(** * Food-price consolidation pipeline: loader, validator, cleaner, consolidator

    A shallow embedding of the [data] package of
    [clustering_food_prices_kalimantan] (loader.py, validator.py, cleaner.py,
    consolidator.py), of the validators of config/settings.py, of
    pipelines/consolidation.py and of the argument mapping of
    scripts/run_consolidation.py, together with the properties its design
    document states about it and further properties of the code.

    Conventions of the embedding.
    - A spreadsheet cell is a [cell]: a number, a text, a timestamp or the
      missing marker.  Numbers are whole (prices are whole Rupiah amounts):
      a number with a fraction is not represented.  Where pandas holds a
      series as float64, a whole number is rounded to the nearest float64.
    - A frame as read from a spreadsheet is a list of labelled columns
      ([DataFrame]); the canonical long table is a list of [row] records with
      the four canonical columns.
    - Text is ASCII; [str.isspace] and [str.isdigit] are modelled on it.
    - Code that may raise returns a [result]; a [try/except Exception] is a
      match on it.
    - The file system and the spreadsheet readers and writers are a [World]
      of answers; log messages are left out, they decide nothing.
    - pandas is modelled as its current major version behaves: [melt] refuses
      a value name that is already a column label, [groupby] leaves rows with
      a missing key out of every group, a timestamp holds every day of the
      calendar of four-digit years. *)

From Stdlib Require Import ZArith Lia Bool Ascii String DecimalString DecimalZ.
From Stdlib Require Import Permutation Sorted.
From stdpp Require Import base option list sorting gmap strings.

Set Default Proof Using "Type".
Local Open Scope string_scope.
Local Open Scope list_scope.
Local Open Scope Z_scope.

(** ** Values *)

(** Python exceptions the modelled code can raise. *)
Inductive exn :=
| KeyError | ValueError | IndexError | FileNotFoundError | OSError.

Inductive result (A : Type) :=
| Ok (a : A)
| Raise (e : exn).
Arguments Ok {A} a.
Arguments Raise {A} e.

#[global] Instance result_ret : MRet result := fun A a => Ok a.
#[global] Instance result_bind : MBind result := fun A B k m =>
  match m with
  | Ok a => k a
  | Raise e => Raise e
  end.

(** [try: ... except Exception: return None]. *)
Definition catch {A} (m : result A) : option A :=
  match m with
  | Ok a => Some a
  | Raise _ => None
  end.

(** A calendar day, as carried by a pandas [Timestamp] at midnight. *)
Record date := mkdate { year : Z; month : Z; day : Z }.

Inductive cell :=
| Num (z : Z)
| Str (s : string)
| Ts (d : date)
| NaN.

#[global] Instance exn_eq_dec : EqDecision exn.
Proof. solve_decision. Defined.
#[global] Instance date_eq_dec : EqDecision date.
Proof. solve_decision. Defined.
#[global] Instance cell_eq_dec : EqDecision cell.
Proof. solve_decision. Defined.

(** [pd.isna] on a cell ([NaN] and [NaT] are both the missing marker). *)
Definition isna (c : cell) : bool :=
  match c with
  | NaN => true
  | _ => false
  end.

(** ** Characters *)

Module Chars.

Definition code (a : ascii) : Z := Z.of_N (N_of_ascii a).

(** [str.isdigit] on an ASCII character, with the digit's value. *)
Definition digit_of (a : ascii) : option Z :=
  let n := code a in
  if (48 <=? n) && (n <=? 57) then Some (n - 48) else None.

Definition is_digit (a : ascii) : bool :=
  match digit_of a with
  | Some _ => true
  | None => false
  end.

(** Python's whitespace on ASCII: TAB..CR, FS..US and the space. *)
Definition is_space (a : ascii) : bool :=
  let n := code a in
  ((9 <=? n) && (n <=? 13)) || ((28 <=? n) && (n <=? 32)).

Fixpoint lstrip (l : list ascii) : list ascii :=
  match l with
  | a :: l' => if is_space a then lstrip l' else l
  | [] => []
  end.

Definition strip (l : list ascii) : list ascii :=
  rev (lstrip (rev (lstrip l))).

End Chars.

(** ** Configuration (config/settings.py, [ConsolidatorConfig]) *)

Record ConsolidatorConfig := {
  target_commodities : list string;
  file_pattern : string;
  columns_to_drop : list string;
  commodity_col : string;
  original_commodity_col : string;
  city_col : string;
  date_col : string;
  price_col : string;
  missing_value_indicators : list string;
  default_csv_output : string;
  default_excel_output : string;
  min_expected_columns : Z;
  target_years : option (list Z);
  target_cities : option (list string);
  year_range_start : option Z;
  year_range_end : option Z
}.

(** The defaults of the field declarations. *)
Definition default_config : ConsolidatorConfig := {|
  target_commodities :=
    ["Beras"; "Telur Ayam"; "Daging Ayam"; "Bawang Merah"; "Bawang Putih"];
  file_pattern := "*.xlsx";
  columns_to_drop := ["No"];
  commodity_col := "Commodities";
  original_commodity_col := "Komoditas (Rp)";
  city_col := "City";
  date_col := "Date";
  price_col := "Price";
  missing_value_indicators := ["-"; ""; "nan"; "NaN"; "null"; "NULL"];
  default_csv_output := "master_data_consolidated.csv";
  default_excel_output := "master_data_consolidated.xlsx";
  min_expected_columns := 2;
  target_years := None;
  target_cities :=
    Some ["kab-sintang"; "kota-pontianak"; "kota-singkawang";
          "kota-banjarmasin"; "kota-tanjung"; "kota-palangkaraya";
          "kota-sampit"; "kota-balikpapan"; "kota-samarinda"; "kota-tarakan"];
  year_range_start := Some 2018;
  year_range_end := Some 2024
|}.

(** ** Paths (pathlib) *)

(** A path is its [parts]. *)
Definition Path := list string.

Module PathLib.
Import Chars.

(** [Path.name]: the final component, empty when there is none. *)
Definition name (p : Path) : string := List.last p "".

(** Index of the last ["."] of a text ([str.rfind]), counting from [i]. *)
Fixpoint rfind_dot (i : nat) (l : list ascii) : option nat :=
  match l with
  | [] => None
  | a :: l' =>
      match rfind_dot (S i) l' with
      | Some j => Some j
      | None => if Ascii.eqb a "."%char then Some i else None
      end
  end.

(** [Path.stem]: the name without its last suffix; a leading or a trailing
    dot does not start a suffix. *)
Definition stem (p : Path) : string :=
  let nm := list_ascii_of_string (name p) in
  match rfind_dot 0 nm with
  | Some i =>
      if ((0 <? i) && (i <? List.length nm - 1))%nat
      then string_of_list_ascii (firstn i nm)
      else name p
  | None => name p
  end.

(** [file_path.parts[-2]]. *)
Definition parent_part (p : Path) : result string :=
  match rev p with
  | _ :: d :: _ => Ok d
  | _ => Raise IndexError
  end.

End PathLib.

(** ** Python's [int(text)] *)

Module PyInt.
Import Chars.

(** Decimal digits, single underscores allowed between two digits. *)
Fixpoint digits (acc : Z) (after_digit : bool) (l : list ascii) : option Z :=
  match l with
  | [] => if after_digit then Some acc else None
  | a :: l' =>
      match digit_of a with
      | Some d => digits (10 * acc + d) true l'
      | None =>
          if after_digit && Ascii.eqb a "_"%char
          then digits acc false l'
          else None
      end
  end.

(** [int(s)], [None] standing for [ValueError]: surrounding whitespace is
    dropped, one sign is allowed. *)
Definition int (s : string) : option Z :=
  match strip (list_ascii_of_string s) with
  | a :: l =>
      if Ascii.eqb a "-"%char then Z.opp <$> digits 0 false l
      else if Ascii.eqb a "+"%char then digits 0 false l
      else digits 0 false (a :: l)
  | [] => None
  end.

End PyInt.

(** ** Frames *)

(** A frame as [pd.DataFrame({label: values, ...})] builds it and as
    [read_excel] returns it: labelled columns, in order.  The row count is the
    common length of the columns. *)
Definition column := (string * list cell)%type.
Definition DataFrame := list column.

Module Frame.

Definition columns (df : DataFrame) : list string := df.*1.

(** [len(df)]. *)
Definition nrows (df : DataFrame) : nat :=
  match df with
  | [] => 0%nat
  | (_, values) :: _ => length values
  end.

(** [df.empty]: one of the axes has length zero. *)
Definition empty (df : DataFrame) : bool :=
  (length df =? 0)%nat || (nrows df =? 0)%nat.

(** Labels are distinct and the columns have one length. *)
Definition well_formed (df : DataFrame) : Prop :=
  NoDup (columns df) /\ Forall (fun c => length c.2 = nrows df) df.

(** [df[label]]. *)
Definition get (label : string) (df : DataFrame) : result (list cell) :=
  match List.find (fun c => String.eqb c.1 label) df with
  | Some c => Ok c.2
  | None => Raise KeyError
  end.

(** [df.drop(columns=labels)], every label being present. *)
Definition drop (labels : list string) (df : DataFrame) : DataFrame :=
  List.filter (fun c => negb (bool_decide (c.1 ∈ labels))) df.

(** [df.rename(columns={old: new})]. *)
Definition rename (old new : string) (df : DataFrame) : DataFrame :=
  List.map (fun c => if String.eqb c.1 old then (new, c.2) else c) df.

(** [df[label] = value] for a scalar: the column is overwritten where it
    exists and appended otherwise. *)
Definition assign (label : string) (value : cell) (df : DataFrame)
  : DataFrame :=
  let filled := repeat value (nrows df) in
  if bool_decide (label ∈ columns df)
  then List.map (fun c => if String.eqb c.1 label then (label, filled) else c) df
  else df ++ [(label, filled)].

End Frame.

(** The canonical long table: one record per observation, its fields being
    the columns the configuration names [commodity_col], [city_col],
    [date_col] and [price_col]. *)
Record row := mkrow {
  Commodity : cell;
  City : cell;
  Date : cell;
  Price : cell
}.
Definition table := list row.

#[global] Instance row_eq_dec : EqDecision row.
Proof. solve_decision. Defined.

(** [df[price_col] = series], the series having the frame's index. *)
Definition set_price (r : row) (p : cell) : row :=
  {| Commodity := Commodity r; City := City r; Date := Date r; Price := p |}.
Definition set_date (r : row) (d : cell) : row :=
  {| Commodity := Commodity r; City := City r; Date := d; Price := Price r |}.

(** ** The file system, as the pipeline sees it *)

(** What the calls into the operating system and into the spreadsheet
    readers and writers answer.  A call that raises answers [Raise]. *)
Record World := {
  dir_exists : Path -> bool;
  rglob : Path -> string -> list Path;
  read_excel : Path -> result DataFrame;
  mkdir : Path -> result unit;
  to_csv : Path -> result unit;
  to_excel : Path -> result unit
}.

(** ** Loader (data/loader.py) *)

Module Loader.

(** The operand of a chained comparison: an integer or [float('±inf')]. *)
Inductive bound := NegInf | Fin (z : Z) | PosInf.

Definition bound_leb (a b : bound) : bool :=
  match a, b with
  | NegInf, _ => true
  | _, PosInf => true
  | Fin x, Fin y => x <=? y
  | _, _ => false
  end.

(** [x or default] on an optional integer: [None] and [0] are falsy. *)
Definition or_else (x : option Z) (default : bound) : bound :=
  match x with
  | Some z => if z =? 0 then default else Fin z
  | None => default
  end.

Section Predicates.
Variable config : ConsolidatorConfig.

Definition _should_process_year (file_path : Path) : bool :=
  match PyInt.int (PathLib.stem file_path) with
  | None => true
  | Some year =>
      match target_years config with
      | Some years => bool_decide (year ∈ years)
      | None =>
          if bool_decide (year_range_start config ≠ None)
             || bool_decide (year_range_end config ≠ None)
          then
            let start_year := or_else (year_range_start config) NegInf in
            let end_year := or_else (year_range_end config) PosInf in
            bound_leb start_year (Fin year) && bound_leb (Fin year) end_year
          else true
      end
  end.

Definition _extract_city_from_path (file_path : Path) : result string :=
  PathLib.parent_part file_path.

Definition _should_process_city (file_path : Path) : result bool :=
  match target_cities config with
  | None => Ok true
  | Some cities =>
      city_name ← _extract_city_from_path file_path;
      Ok (bool_decide (city_name ∈ cities))
  end.

(** The loop of [_filter_files_by_criteria]; [filtered_files] is the
    list built so far. *)
Fixpoint filter_loop (files : list Path) (filtered_files : list Path)
  : result (list Path) :=
  match files with
  | [] => Ok filtered_files
  | file_path :: rest =>
      if negb (_should_process_year file_path)
      then filter_loop rest filtered_files
      else
        keep ← _should_process_city file_path;
        if negb keep then filter_loop rest filtered_files
        else filter_loop rest (filtered_files ++ [file_path])
  end.

Definition _filter_files_by_criteria (files : list Path)
  : result (list Path) :=
  filter_loop files [].

Variable world : World.

(** [None] when [pd.read_excel] raises. *)
Definition load_excel_file (file_path : Path) : option DataFrame :=
  catch (read_excel world file_path).

Definition find_excel_files (root_directory : Path)
  : result (list Path) :=
  if negb (dir_exists world root_directory) then Raise FileNotFoundError
  else
    let all_excel_files :=
      rglob world root_directory (file_pattern config) in
    _filter_files_by_criteria all_excel_files.

End Predicates.

End Loader.

(** Keyword overrides of the year and city filters, as in
    [ConsolidatorConfig(target_years=..., year_range_start=..., ...)]. *)
Definition with_filters (c : ConsolidatorConfig)
    (years : option (list Z)) (range_start range_end : option Z)
    (cities : option (list string)) : ConsolidatorConfig := {|
  target_commodities := target_commodities c;
  file_pattern := file_pattern c;
  columns_to_drop := columns_to_drop c;
  commodity_col := commodity_col c;
  original_commodity_col := original_commodity_col c;
  city_col := city_col c;
  date_col := date_col c;
  price_col := price_col c;
  missing_value_indicators := missing_value_indicators c;
  default_csv_output := default_csv_output c;
  default_excel_output := default_excel_output c;
  min_expected_columns := min_expected_columns c;
  target_years := years;
  target_cities := cities;
  year_range_start := range_start;
  year_range_end := range_end
|}.

(** What a configured limit of the year range demands of a year; an absent
    limit demands nothing. *)
Definition lower_limit (o : option Z) (y : Z) : Prop :=
  match o with Some s => s <= y | None => True end.
Definition upper_limit (o : option Z) (y : Z) : Prop :=
  match o with Some e => y <= e | None => True end.

(** ** Validator (data/validator.py) *)

Module Validator.
Section Validator.
Variable config : ConsolidatorConfig.

(** [issues.append(msg)] under [if cond]. *)
Definition append_if (cond : bool) (msg : string) (issues : list string)
  : list string :=
  if cond then issues ++ [msg] else issues.

Definition validate_dataframe (df : DataFrame) (file_path : Path)
  : bool * list string :=
  let issues := [] in
  let issues :=
    append_if (Frame.empty df)
      ("Empty DataFrame from " +:+ PathLib.name file_path) issues in
  let issues :=
    append_if
      (negb (bool_decide (original_commodity_col config ∈ Frame.columns df)))
      ("Missing '" +:+ original_commodity_col config +:+ "' column in "
         +:+ PathLib.name file_path) issues in
  let issues :=
    append_if
      (Z.of_nat (length (Frame.columns df)) <? min_expected_columns config)
      ("Insufficient columns in " +:+ PathLib.name file_path) issues in
  (bool_decide (length issues = 0%nat), issues).

End Validator.
End Validator.

(** ** Object store

    Python passes frames by reference.  Where a property speaks of the
    argument object itself (it is not mutated, a copy is returned) the method
    is modelled on a store of objects; [new] is the allocation every pandas
    call that builds a frame performs. *)

Definition loc := nat.

Definition St (A B : Type) : Type := gmap loc A -> result (B * gmap loc A).

#[global] Instance St_ret A : MRet (St A) := fun B b h => Ok (b, h).
#[global] Instance St_bind A : MBind (St A) := fun B C k m h =>
  match m h with
  | Ok (b, h') => k b h'
  | Raise e => Raise e
  end.

Module Store.
Section Store.
Context {A : Type}.

Definition new (x : A) : St A loc := fun h =>
  let l := fresh (dom h) in Ok (l, <[l := x]> h).

(** Reading through a reference; a reference always names a live object,
    the error case exists only to make the function total. *)
Definition deref (l : loc) : St A A := fun h =>
  match h !! l with
  | Some x => Ok (x, h)
  | None => Raise KeyError
  end.

(** In-place update of the object behind a reference. *)
Definition update (l : loc) (x : A) : St A unit := fun h =>
  Ok (tt, <[l := x]> h).

End Store.
End Store.

(** The validator as a method on a frame object. *)
Module ValidatorRef.
Definition validate_dataframe (config : ConsolidatorConfig)
    (df : loc) (file_path : Path) : St DataFrame (bool * list string) :=
  frame ← Store.deref df;
  mret (Validator.validate_dataframe config frame file_path).
End ValidatorRef.

(** A small raw sheet: the commodity column and two period columns. *)
Definition sample_sheet : DataFrame :=
  [ ("Komoditas (Rp)", [Str "Beras"; Str "Telur Ayam"; Str "Unknown"]);
    ("15/ 01/ 2024", [Str "12,000"; Str "-"; Num 9000]);
    ("15/ 02/ 2024", [Str "12,500"; Num 25000; Num 9100]) ].

Definition sample_path : Path := ["data"; "kota-pontianak"; "2023.xlsx"].

(** ** Text of a cell and numeric literals *)

Module Text.
Import Chars.

Definition str_of_Z (z : Z) : string := NilZero.string_of_int (Z.to_int z).

(** Left-pad a decimal with zeros to [width] characters. *)
Definition zero_pad (width : nat) (z : Z) : string :=
  let s := str_of_Z z in
  string_of_list_ascii (repeat "0"%char (width - String.length s)) +:+ s.

(** [str(Timestamp)] of a day at midnight. *)
Definition str_of_date (d : date) : string :=
  zero_pad 4 (year d) +:+ "-" +:+ zero_pad 2 (month d) +:+ "-"
    +:+ zero_pad 2 (day d) +:+ " 00:00:00".

(** [series.astype(str)] on one cell.  A number is written as Python
    writes an integer; [str_of_float] is the text of the same number when
    pandas holds it as float64. *)
Definition str_of_cell (c : cell) : string :=
  match c with
  | Num z => str_of_Z z
  | Str s => s
  | Ts d => str_of_date d
  | NaN => "nan"
  end.


(** [.str.replace(',', '', regex=False)]. *)
Definition remove_commas (s : string) : string :=
  string_of_list_ascii
    (List.filter (fun a => negb (Ascii.eqb a ","%char))
       (list_ascii_of_string s)).

(** C's [isspace], which the numeric reader of pandas skips on both sides. *)
Definition is_cspace (a : ascii) : bool :=
  let n := code a in
  ((9 <=? n) && (n <=? 13)) || (n =? 32).

Fixpoint lstrip_c (l : list ascii) : list ascii :=
  match l with
  | a :: l' => if is_cspace a then lstrip_c l' else l
  | [] => []
  end.

Definition strip_c (l : list ascii) : list ascii :=
  rev (lstrip_c (rev (lstrip_c l))).

(** An integer literal: optional sign, decimal digits. *)
Definition int_literal (l : list ascii) : option Z :=
  match l with
  | a :: l' =>
      if Ascii.eqb a "+"%char
      then (fun u => Z.of_int (Decimal.Pos u))
             <$> NilZero.uint_of_string (string_of_list_ascii l')
      else Z.of_int <$> NilZero.int_of_string (string_of_list_ascii l)
  | [] => None
  end.

(** The text before the first ["."], and the text after it. *)
Fixpoint break_point (l : list ascii) : option (list ascii * list ascii) :=
  match l with
  | [] => None
  | a :: l' =>
      if Ascii.eqb a "."%char then Some ([], l')
      else '(before, after) ← break_point l'; Some (a :: before, after)
  end.

(** A sign, or nothing. *)
Definition sign_only (l : list ascii) : bool :=
  match l with
  | [] => true
  | [a] => Ascii.eqb a "+"%char || Ascii.eqb a "-"%char
  | _ => false
  end.

(** A literal with a decimal point and a fraction of zeros only, such as
    ["12000.0"], the text of a whole number held as float64.  Digits may
    be missing on one side of the point, not on both. *)
Definition whole_decimal (l : list ascii) : option Z :=
  '(whole, fraction) ← break_point l;
  if forallb (fun a => Ascii.eqb a "0"%char) fraction
  then
    match int_literal whole with
    | Some z => Some z
    | None =>
        if sign_only whole && negb (bool_decide (fraction = []))
        then Some 0
        else None
    end
  else None.

(** What the numeric reader makes of one text: an integer literal, which
    can be held as an integer, or a literal that only float64 holds. *)
Inductive literal :=
| Integer (z : Z)
| Float (z : Z).

(** The literals of the embedding are those whose value is a whole number,
    surrounded by any whitespace.  A text with a fraction that is not zero,
    with an exponent, or a word for infinity is a number to pandas and is
    not one here; no property below speaks of such a text. *)
Definition numeric_literal (s : string) : option literal :=
  let l := strip_c (list_ascii_of_string s) in
  match int_literal l with
  | Some z => Some (Integer z)
  | None => Float <$> whole_decimal l
  end.

(** The float64 number nearest to an integer, ties going to the even
    significand of 53 bits; an integer of magnitude below [2 ^ 53] is held
    as it is.  (Beyond the largest float64 the answer is infinity, which
    the embedding does not have.) *)
Definition round_binary64 (z : Z) : Z :=
  let a := Z.abs z in
  if a <? 2 ^ 53 then z
  else
    let e := Z.log2 a - 52 in
    let q := a / 2 ^ e in
    let r := a mod 2 ^ e in
    let up := (2 ^ (e - 1) <? r) || ((2 ^ (e - 1) =? r) && Z.odd q) in
    Z.sgn z * ((if up then q + 1 else q) * 2 ^ e).

Definition int64_min : Z := - 2 ^ 63.
Definition int64_max : Z := 2 ^ 63 - 1.
Definition uint64_max : Z := 2 ^ 64 - 1.

(** What pandas notes of each value while it reads the series ([Seen]): a
    negative int64, an integer only uint64 holds, a value only float64
    holds (a missing value, a literal with a point, an integer beyond
    both integer types). *)
Definition sint_ (read : option literal) : bool :=
  match read with
  | Some (Integer z) => (int64_min <=? z) && (z <? 0)
  | _ => false
  end.

Definition uint_ (read : option literal) : bool :=
  match read with
  | Some (Integer z) => (int64_max <? z) && (z <=? uint64_max)
  | _ => false
  end.

Definition float_ (read : option literal) : bool :=
  match read with
  | Some (Integer z) => (z <? int64_min) || (uint64_max <? z)
  | _ => true
  end.

(** The whole result is float64 as soon as one value asks for it, or when
    negative integers meet integers beyond int64. *)
Definition as_float (read : list (option literal)) : bool :=
  existsb float_ read || (existsb sint_ read && existsb uint_ read).

Definition value (float : bool) (read : option literal) : cell :=
  match read with
  | Some (Integer z) | Some (Float z) =>
      Num (if float then round_binary64 z else z)
  | None => NaN
  end.

(** [pd.to_numeric(series, errors='coerce')] on a series of texts: a text
    that is no number is coerced to the missing value, and one type is
    chosen for the whole series. *)
Definition to_numeric (series : list string) : list cell :=
  let read := List.map numeric_literal series in
  List.map (value (as_float read)) read.

End Text.

(** ** Dates: [strptime] with the format ['%d/ %m/ %Y'] *)

Module Strptime.
Import Chars.

(** The text before the first ["/"], and the text after it. *)
Fixpoint break_slash (l : list ascii) : option (list ascii * list ascii) :=
  match l with
  | [] => None
  | a :: l' =>
      if Ascii.eqb a "/"%char then Some ([], l')
      else '(before, after) ← break_slash l'; Some (a :: before, after)
  end.

(** One or more whitespace characters (a blank of the format). *)
Definition skip_blank (l : list ascii) : option (list ascii) :=
  match l with
  | a :: l' => if is_space a then Some (lstrip l') else None
  | [] => None
  end.

(** [%d]: [3[0-1]|[1-2]\d|0[1-9]|[1-9]| [1-9]]. *)
Definition day_of (l : list ascii) : option Z :=
  match l with
  | [a] => d ← digit_of a; if 1 <=? d then Some d else None
  | [a; b] =>
      match digit_of a, digit_of b with
      | Some x, Some y =>
          let v := 10 * x + y in
          if (1 <=? v) && (v <=? 31) then Some v else None
      | None, Some y =>
          if Ascii.eqb a " "%char && (1 <=? y) then Some y else None
      | _, _ => None
      end
  | _ => None
  end.

(** [%m]: [1[0-2]|0[1-9]|[1-9]]. *)
Definition month_of (l : list ascii) : option Z :=
  match l with
  | [a] => d ← digit_of a; if 1 <=? d then Some d else None
  | [a; b] =>
      x ← digit_of a; y ← digit_of b;
      let v := 10 * x + y in
      if (1 <=? v) && (v <=? 12) then Some v else None
  | _ => None
  end.

(** [%Y]: [\d\d\d\d], at the end of the text. *)
Definition year_of (l : list ascii) : option Z :=
  match l with
  | [a; b; c; d] =>
      w ← digit_of a; x ← digit_of b; y ← digit_of c; z ← digit_of d;
      Some (1000 * w + 100 * x + 10 * y + z)
  | _ => None
  end.

Definition is_leap (y : Z) : bool :=
  ((y mod 4 =? 0) && negb (y mod 100 =? 0)) || (y mod 400 =? 0).

Definition days_in_month (y m : Z) : Z :=
  if m =? 2 then (if is_leap y then 29 else 28)
  else if (m =? 4) || (m =? 6) || (m =? 9) || (m =? 11) then 30
  else 31.

(** [datetime.date(y, m, d)] accepts the triple. *)
Definition valid_date (d : date) : bool :=
  (1 <=? year d) && (1 <=? month d) && (month d <=? 12)
  && (1 <=? day d) && (day d <=? days_in_month (year d) (month d)).

Definition date_leb (a b : date) : bool :=
  if year a <? year b then true
  else if year b <? year a then false
  else if month a <? month b then true
  else if month b <? month a then false
  else day a <=? day b.

Definition strptime (l : list ascii) : option date :=
  '(day_text, l) ← break_slash l;
  d ← day_of day_text;
  l ← skip_blank l;
  '(month_text, l) ← break_slash l;
  m ← month_of month_text;
  l ← skip_blank l;
  y ← year_of l;
  let parsed := mkdate y m d in
  if valid_date parsed then Some parsed else None.

(** [pd.to_datetime(cell, format='%d/ %m/ %Y', errors='coerce')].  (The
    words ["now"] and ["today"], which pandas reads as the time of the call
    whatever the format, are not read here: the embedding has no clock, and
    no property below speaks of them.) *)
Definition to_datetime (c : cell) : cell :=
  match c with
  | Str s =>
      match strptime (list_ascii_of_string s) with
      | Some d => Ts d
      | None => NaN
      end
  | Ts d => Ts d
  | Num z =>
      match strptime (list_ascii_of_string (Text.str_of_Z z)) with
      | Some d => Ts d
      | None => NaN
      end
  | NaN => NaN
  end.

End Strptime.

(** ** Cleaner (data/cleaner.py) *)

Module Cleaner.

(** *** pandas operations the cleaner calls *)

(** The rows one value column contributes to [melt]: the identifier values
    beside the column's label and its cells. *)
Fixpoint stack (label : string) (commodity city values : list cell)
  : table :=
  match commodity, city, values with
  | c :: commodity', t :: city', v :: values' =>
      mkrow c t (Str label) v :: stack label commodity' city' values'
  | _, _, _ => []
  end.

(** [df.melt(id_vars=[id1, id2], var_name=.., value_name=..)]: the value
    name must be unused and the identifier columns present; every other
    column is stacked, in column order. *)
Definition melt (id1 id2 value_name : string) (df : DataFrame)
  : result table :=
  if bool_decide (value_name ∈ Frame.columns df) then Raise ValueError
  else
    commodity ← Frame.get id1 df;
    city ← Frame.get id2 df;
    let value_vars :=
      List.filter (fun c => negb (bool_decide (c.1 ∈ [id1; id2]))) df in
    Ok (flat_map (fun c => stack c.1 commodity city c.2) value_vars).

(** [series.replace(indicator, np.nan)]. *)
Definition replace (indicator : string) (c : cell) : cell :=
  if bool_decide (c = Str indicator) then NaN else c.

(** The loop [for indicator in indicators: df[price] = df[price].replace(..)]. *)
Definition replace_indicators (indicators : list string) (df : table)
  : table :=
  fold_left
    (fun df indicator =>
       List.map (fun r => set_price r (replace indicator (Price r))) df)
    indicators df.

(** The order [sort_values] puts cells in: numbers, timestamps and texts
    each in their own order, numbers before texts, missing values last. *)
Definition rank (c : cell) : Z :=
  match c with
  | Num _ => 0
  | Ts _ => 1
  | Str _ => 2
  | NaN => 3
  end.

Definition cell_leb (a b : cell) : bool :=
  match a, b with
  | Num x, Num y => x <=? y
  | Ts d, Ts e => Strptime.date_leb d e
  | Str s, Str t => String.leb s t
  | _, _ => rank a <=? rank b
  end.

Definition cell_ltb (a b : cell) : bool := negb (cell_leb b a).

(** Rows compared by (City, Commodity, Date). *)
Definition key_leb (r1 r2 : row) : bool :=
  if cell_ltb (City r1) (City r2) then true
  else if cell_ltb (City r2) (City r1) then false
  else if cell_ltb (Commodity r1) (Commodity r2) then true
  else if cell_ltb (Commodity r2) (Commodity r1) then false
  else cell_leb (Date r1) (Date r2).

Fixpoint insert_row (r : row) (sorted : table) : table :=
  match sorted with
  | [] => [r]
  | r' :: sorted' =>
      if key_leb r r' then r :: sorted else r' :: insert_row r sorted'
  end.

(** [df.sort_values([city, commodity, date])]: a stable sort. *)
Definition sort_values (df : table) : table := foldr insert_row [] df.

Definition group_key (r : row) : cell * cell := (City r, Commodity r).

(** [groupby] leaves rows with a missing key out of every group. *)
Definition grouped (r : row) : bool :=
  negb (isna (City r)) && negb (isna (Commodity r)).

(** The last valid price of group [k] among the rows [before] (most recent
    first). *)
Fixpoint last_valid (k : cell * cell) (before : list row) : cell :=
  match before with
  | [] => NaN
  | r :: before' =>
      if bool_decide (group_key r = k) && negb (isna (Price r))
      then Price r
      else last_valid k before'
  end.

(** [df.groupby([city, commodity])[price].ffill()]: a series in the order
    of the frame's rows; [before] holds the rows already passed. *)
Fixpoint groupby_ffill (before : list row) (rows : list row) : list cell :=
  match rows with
  | [] => []
  | r :: rows' =>
      (if negb (grouped r) then NaN
       else if isna (Price r) then last_valid (group_key r) before
       else Price r)
      :: groupby_ffill (r :: before) rows'
  end.

(** [series.bfill()]. *)
Fixpoint bfill (series : list cell) : list cell :=
  match series with
  | [] => []
  | c :: rest =>
      let filled := bfill rest in
      (if isna c then List.hd NaN filled else c) :: filled
  end.

Section Cleaner.
Variable config : ConsolidatorConfig.

Definition _extract_city_from_path (file_path : Path) : result string :=
  PathLib.parent_part file_path.

Definition clean_dataframe (df : DataFrame) (file_path : Path)
  : result DataFrame :=
  let columns_to_drop :=
    List.filter (fun col => bool_decide (col ∈ Frame.columns df))
      (columns_to_drop config) in
  let df := Frame.drop columns_to_drop df in
  let df :=
    if bool_decide (original_commodity_col config ∈ Frame.columns df)
    then Frame.rename (original_commodity_col config) (commodity_col config) df
    else df in
  city_name ← _extract_city_from_path file_path;
  Ok (Frame.assign (city_col config) (Str city_name) df).

Definition transform_to_long_format (df : DataFrame) : result table :=
  melt (commodity_col config) (city_col config) (price_col config) df.

(** [df[df[commodity].isin(target_commodities)]]. *)
Definition isin (targets : list string) (c : cell) : bool :=
  bool_decide (c ∈ (Str <$> targets)).

Definition filter_commodities (df : table) (target_commodities : list string)
  : table :=
  List.filter (fun r => isin target_commodities (Commodity r)) df.

Definition handle_missing_values (df : table) : table :=
  let df := replace_indicators (missing_value_indicators config) df in
  let df := sort_values df in
  zip_with set_price df (bfill (groupby_ffill [] df)).

(** [pd.to_numeric(series.astype(str).str.replace(',', ''),
    errors='coerce')]. *)
Definition _clean_and_convert_price (price_series : list cell)
  : list cell :=
  Text.to_numeric
    (List.map (fun c => Text.remove_commas (Text.str_of_cell c)) price_series).

Definition _clean_and_convert_date (date_series : list cell) : list cell :=
  List.map Strptime.to_datetime date_series.

(** Neither conversion raises, so the [except] branch is never taken; the
    category typing of City and Commodity leaves the values as they are. *)
Definition convert_data_types (df : table) : table :=
  let prices := _clean_and_convert_price (List.map Price df) in
  let df := zip_with set_price df prices in
  let dates := _clean_and_convert_date (List.map Date df) in
  zip_with set_date df dates.

End Cleaner.
End Cleaner.

(** The columns [melt] unpivots: those that are not identifier columns. *)
Definition is_period (config : ConsolidatorConfig) (label : string) : bool :=
  negb (bool_decide (label ∈ [commodity_col config; city_col config])).

Definition period_columns (config : ConsolidatorConfig) (df : DataFrame)
  : list column :=
  List.filter (fun c => is_period config c.1) df.

(** The sample sheet after [clean_dataframe], ready to be reshaped. *)
Definition sample_wide : DataFrame :=
  [ ("Commodities", [Str "Beras"; Str "Telur Ayam"; Str "Unknown"]);
    ("15/ 01/ 2024", [Str "12,000"; Str "-"; Num 9000]);
    ("15/ 02/ 2024", [Str "12,500"; Num 25000; Num 9100]);
    ("City", [Str "kota-pontianak"; Str "kota-pontianak"; Str "kota-pontianak"]) ].

(** A wide frame one of whose period columns is labelled like the price
    column. *)
Definition priced_sheet : DataFrame :=
  [ ("Commodities", [Str "Beras"]);
    ("City", [Str "kota-pontianak"]);
    ("Price", [Num 12000]) ].

(** The cleaner's methods on frame objects. *)
Module CleanerRef.

(** [df[mask]] builds the selection, [.copy()] a second object. *)
Definition filter_commodities (config : ConsolidatorConfig)
    (df : loc) (target_commodities : list string) : St table loc :=
  frame ← Store.deref df;
  selection ← Store.new
    (Cleaner.filter_commodities frame target_commodities);
  selected ← Store.deref selection;
  Store.new selected.

(** [df = df.copy()], the indicator loop assigning into that copy,
    [sort_values] building the sorted frame, and the filled prices assigned
    into the sorted frame, which is returned. *)
Definition handle_missing_values (config : ConsolidatorConfig) (df : loc)
  : St table loc :=
  frame ← Store.deref df;
  df ← Store.new frame;
  frame ← Store.deref df;
  _ ← Store.update df
    (Cleaner.replace_indicators (missing_value_indicators config) frame);
  frame ← Store.deref df;
  df ← Store.new (Cleaner.sort_values frame);
  frame ← Store.deref df;
  _ ← Store.update df
    (zip_with set_price frame
       (Cleaner.bfill (Cleaner.groupby_ffill [] frame)));
  mret df.

End CleanerRef.

(** A long table with one commodity outside the default target list. *)
Definition sample_long : table :=
  [ mkrow (Str "Beras") (Str "kota-pontianak") (Str "15/ 01/ 2024") (Num 12000);
    mkrow (Str "Unknown") (Str "kota-pontianak") (Str "15/ 01/ 2024") (Num 9000);
    mkrow (Str "Telur Ayam") (Str "kota-pontianak") (Str "15/ 01/ 2024") NaN ].

(** The sort order of [handle_missing_values], as a relation. *)
Definition key_le (r1 r2 : row) : Prop := Cleaner.key_leb r1 r2 = true.

(** What identifies an observation: everything but its price. *)
Definition observation (r : row) : cell * cell * cell :=
  (City r, Commodity r, Date r).

(** A price [handle_missing_values] takes for missing: the missing marker or
    one of the configured indicator texts. *)
Definition missing (config : ConsolidatorConfig) (c : cell) : bool :=
  isna c
  || bool_decide (c ∈ (Str <$> missing_value_indicators config)).

(** A long table in which one group (Beras) has no price at all and the
    group after it in sort order (Telur Ayam) has one. *)
Definition leak_table : table :=
  [ mkrow (Str "Beras") (Str "kota-pontianak") (Str "15/ 01/ 2024") (Str "-");
    mkrow (Str "Telur Ayam") (Str "kota-pontianak") (Str "15/ 01/ 2024")
      (Num 25000);
    mkrow (Str "Beras") (Str "kota-pontianak") (Str "15/ 02/ 2024") NaN ].

(** *** The date format, declaratively *)

(** A blank of the input: at least one character, whitespace only. *)
Definition blank (ws : list ascii) : Prop :=
  ws <> [] /\ Forall (fun a => Chars.is_space a = true) ws.

(** The text is a day, a slash, a blank, a month, a slash, a blank and a
    four-digit year, and these read as the fields of [d]. *)
Definition reads_as (l : list ascii) (d : date) : Prop :=
  exists day_text ws1 month_text ws2 year_text,
    l = day_text ++ "/"%char :: ws1 ++ month_text ++ "/"%char :: ws2 ++ year_text
    /\ Strptime.day_of day_text = Some (day d)
    /\ blank ws1
    /\ Strptime.month_of month_text = Some (month d)
    /\ blank ws2
    /\ Strptime.year_of year_text = Some (year d).

(** The two words pandas reads as the time of the call. *)
Definition clock_word (s : string) : Prop := s = "now" \/ s = "today".

(** The format read to the letter: digits, ["/ "], digits, ["/ "], four
    digits, the separator being a slash and exactly one space. *)
Definition literal_format (l : list ascii) : bool :=
  match Strptime.break_slash l with
  | Some (day_text, sp1 :: l) =>
      match Strptime.break_slash l with
      | Some (month_text, sp2 :: year_text) =>
          Ascii.eqb sp1 " "%char && Ascii.eqb sp2 " "%char
          && negb (length day_text =? 0)%nat && forallb Chars.is_digit day_text
          && negb (length month_text =? 0)%nat
          && forallb Chars.is_digit month_text
          && (length year_text =? 4)%nat && forallb Chars.is_digit year_text
      | _ => false
      end
  | _ => false
  end.

(** ** Consolidator (data/consolidator.py) *)

(** What [save_data] and the loader ask of the file system, in order. *)
Inductive event :=
| Mkdir (directory : Path)
| ToCsv (file : Path)
| ToExcel (file : Path).

(** The requests that write a file. *)
Definition is_write (e : event) : bool :=
  match e with
  | Mkdir _ => false
  | ToCsv _ | ToExcel _ => true
  end.

Module Consolidator.
Section Consolidator.
Variable config : ConsolidatorConfig.
Variable world : World.
(** [self.target_commodities]. *)
Variable target_commodities : list string.

(** The body of the [try] block once the frame is loaded and valid. *)
Definition process_valid (df : DataFrame) (file_path : Path)
  : result (option table) :=
  df ← Cleaner.clean_dataframe config df file_path;
  long_df ← Cleaner.transform_to_long_format config df;
  let long_df := Cleaner.handle_missing_values config long_df in
  let long_df := Cleaner.convert_data_types long_df in
  let filtered_df :=
    Cleaner.filter_commodities long_df target_commodities in
  if negb (bool_decide (filtered_df = [])) then
    (* the log line reads [df[city_col].iloc[0]] *)
    cities ← Frame.get (city_col config) df;
    match cities with
    | _ :: _ => Ok (Some filtered_df)
    | [] => Raise IndexError
    end
  else Ok None.

Definition _process_single_file (file_path : Path) : option table :=
  match Loader.load_excel_file world file_path with
  | None => None
  | Some df =>
      let '(is_valid, issues) :=
        Validator.validate_dataframe config df file_path in
      if negb is_valid then None
      else
        match process_valid df file_path with
        | Ok processed => processed
        | Raise _ => None
        end
  end.

(** The loop over the discovered files. *)
Definition process_loop (excel_files : list Path) : list table :=
  fold_left
    (fun processed_dataframes file_path =>
       match _process_single_file file_path with
       | Some processed_df => processed_dataframes ++ [processed_df]
       | None => processed_dataframes
       end)
    excel_files [].

Definition consolidate_data (root_directory : Path) : result table :=
  excel_files ← Loader.find_excel_files config world root_directory;
  let processed_dataframes := process_loop excel_files in
  if bool_decide (processed_dataframes = []) then Ok []
  else Ok (concat processed_dataframes).

(** [x or default] on an optional file name. *)
Definition name_or (x : option string) (default : string) : string :=
  match x with
  | Some s => if String.eqb s "" then default else s
  | None => default
  end.

Definition is_ok {A} (r : result A) : bool :=
  match r with
  | Ok _ => true
  | Raise _ => false
  end.

(** The two guarded writes; the dictionary of outcomes is returned with
    the requests made. *)
Definition write_both (csv_file excel_file : Path)
  : list event * gmap string bool :=
  let results : gmap string bool := ∅ in
  let results := <["csv" := is_ok (to_csv world csv_file)]> results in
  let results := <["excel" := is_ok (to_excel world excel_file)]> results in
  ([ToCsv csv_file; ToExcel excel_file], results).

Definition save_data (df : table) (csv_filename excel_filename : option string)
    (output_dir : option Path)
  : list event * result (gmap string bool) :=
  if bool_decide (df = []) then
    ([], Ok (<["excel" := false]> (<["csv" := false]> ∅)))
  else
    let csv_file := name_or csv_filename (default_csv_output config) in
    let excel_file := name_or excel_filename (default_excel_output config) in
    match output_dir with
    | Some output_path =>
        match mkdir world output_path with
        | Raise e => ([Mkdir output_path], Raise e)
        | Ok _ =>
            let '(requests, results) :=
              write_both (output_path ++ [csv_file])
                (output_path ++ [excel_file]) in
            (Mkdir output_path :: requests, Ok results)
        end
    | None =>
        let '(requests, results) := write_both [csv_file] [excel_file] in
        (requests, Ok results)
    end.

End Consolidator.
End Consolidator.

(** The ways one file can fail: it does not load; it does not validate;
    nothing of it is left once the commodities are filtered; or a step of the
    processing raises. *)
Definition file_fails (config : ConsolidatorConfig) (world : World)
    (targets : list string) (file_path : Path) : Prop :=
  (exists e, read_excel world file_path = Raise e)
  \/ (exists df, read_excel world file_path = Ok df
        /\ (Validator.validate_dataframe config df file_path).1 = false)
  \/ (exists df wide long,
        read_excel world file_path = Ok df
        /\ Cleaner.clean_dataframe config df file_path = Ok wide
        /\ Cleaner.transform_to_long_format config wide = Ok long
        /\ Cleaner.filter_commodities
             (Cleaner.convert_data_types
                (Cleaner.handle_missing_values config long)) targets = [])
  \/ (exists df e,
        read_excel world file_path = Ok df
        /\ Consolidator.process_valid config targets df file_path = Raise e).

(** Where [save_data] writes a file: under the output directory when one is
    given. *)
Definition target (output_dir : option Path) (file : string) : Path :=
  match output_dir with
  | Some output_path => output_path ++ [file]
  | None => [file]
  end.

(** A sheet without the commodity column, and one with no target commodity. *)
Definition headless_sheet : DataFrame :=
  [ ("Item", [Str "Beras"]); ("15/ 01/ 2024", [Num 12000]) ].
Definition foreign_sheet : DataFrame :=
  [ ("Komoditas (Rp)", [Str "Unknown"]); ("15/ 01/ 2024", [Num 9000]) ].

(** A small world: four files under one city directory, of which one does
    not load, one does not validate and one has no target commodity; CSV
    files cannot be written, spreadsheets can. *)
Definition sample_world : World := {|
  dir_exists := fun _ => true;
  rglob := fun root _ =>
    [ root ++ ["kota-pontianak"; "broken.xlsx"];
      root ++ ["kota-pontianak"; "2022.xlsx"];
      root ++ ["kota-pontianak"; "2023.xlsx"];
      root ++ ["kota-pontianak"; "2024.xlsx"] ];
  read_excel := fun file_path =>
    if bool_decide (file_path = ["data"; "kota-pontianak"; "2022.xlsx"])
    then Ok headless_sheet
    else if bool_decide (file_path = ["data"; "kota-pontianak"; "2023.xlsx"])
    then Ok sample_sheet
    else if bool_decide (file_path = ["data"; "kota-pontianak"; "2024.xlsx"])
    then Ok foreign_sheet
    else Raise ValueError;
  mkdir := fun _ => Ok tt;
  to_csv := fun _ => Raise OSError;
  to_excel := fun _ => Ok tt
|}.

(** The same world with an output directory that cannot be created. *)
Definition readonly_world : World := {|
  dir_exists := dir_exists sample_world;
  rglob := rglob sample_world;
  read_excel := read_excel sample_world;
  mkdir := fun _ => Raise OSError;
  to_csv := to_csv sample_world;
  to_excel := to_excel sample_world
|}.

(** What the sample world consolidates to: the two target commodities of the
    one good file, at its two periods. *)
Definition sample_master : table :=
  [ mkrow (Str "Beras") (Str "kota-pontianak") (Ts (mkdate 2024 1 15)) (Num 12000);
    mkrow (Str "Beras") (Str "kota-pontianak") (Ts (mkdate 2024 2 15)) (Num 12500);
    mkrow (Str "Telur Ayam") (Str "kota-pontianak") (Ts (mkdate 2024 1 15))
      (Num 25000);
    mkrow (Str "Telur Ayam") (Str "kota-pontianak") (Ts (mkdate 2024 2 15))
      (Num 25000) ].

(** A character of a decimal rendering: a digit or the minus sign. *)
Definition decimal_char (a : ascii) : Prop :=
  Chars.is_digit a = true \/ a = "-"%char.

(** *** Prices, declaratively *)









(** [series.isna().sum()]. *)
Fixpoint na_count (series : list cell) : nat :=
  match series with
  | [] => 0
  | c :: series' => (if isna c then 1 else 0) + na_count series'
  end.

(** The number of prices [handle_missing_values] takes for missing. *)
Fixpoint missing_count (config : ConsolidatorConfig) (series : list cell)
  : nat :=
  match series with
  | [] => 0
  | c :: series' =>
      (if missing config c then 1 else 0) + missing_count config series'
  end.

(** *** Filling within groups, as the design document words it

    A missing price takes the most recent prior price of its own group or,
    if there is none, the nearest subsequent price of its own group. *)

(** The first valid price of group [k] in [rows]. *)
Fixpoint nearest_valid (k : cell * cell) (rows : list row) : cell :=
  match rows with
  | [] => NaN
  | r :: rows' =>
      if bool_decide (Cleaner.group_key r = k) && negb (isna (Price r))
      then Price r
      else nearest_valid k rows'
  end.

(** [before] holds the rows already passed, most recent first. *)
Fixpoint fill_within_groups (before rows : list row) : list cell :=
  match rows with
  | [] => []
  | r :: rows' =>
      (if negb (Cleaner.grouped r) then NaN
       else if isna (Price r) then
         let prior := nearest_valid (Cleaner.group_key r) before in
         if isna prior then nearest_valid (Cleaner.group_key r) rows'
         else prior
       else Price r)
      :: fill_within_groups (r :: before) rows'
  end.

Definition handle_missing_values_within_groups
    (config : ConsolidatorConfig) (df : table) : table :=
  let df :=
    Cleaner.replace_indicators (missing_value_indicators config) df in
  let df := Cleaner.sort_values df in
  zip_with set_price df (fill_within_groups [] df).

(** The first valid cell of a series. *)
Fixpoint first_valid (series : list cell) : cell :=
  match series with
  | [] => NaN
  | c :: series' => if isna c then first_valid series' else c
  end.

(** Rows compared by (City, Commodity) alone. *)
Definition group_leb (r1 r2 : row) : bool :=
  if Cleaner.cell_ltb (City r1) (City r2) then true
  else if Cleaner.cell_ltb (City r2) (City r1) then false
  else Cleaner.cell_leb (Commodity r1) (Commodity r2).

Definition group_le (r1 r2 : row) : Prop := group_leb r1 r2 = true.

(** * Further definitions *)

(** ** Discovery, read as a filter *)

#[global] Instance result_eq_dec {A} `{EqDecision A} : EqDecision (result A).
Proof. solve_decision. Defined.

(** The verdict of the two predicates of the loader on one file: the year
    test passes and the city test answers [True]. *)
Definition admitted (config : ConsolidatorConfig) (file_path : Path) : bool :=
  Loader._should_process_year config file_path
  && bool_decide (Loader._should_process_city config file_path = Ok true).

(** The workbook of one year in a directory, [<year>.xlsx]. *)
Definition year_file (directory : Path) (y : Z) : Path :=
  directory ++ [Text.str_of_Z y +:+ ".xlsx"].

(** A world whose data root holds a workbook directly, as [Path('.')]
    does when it is searched: the path of the file has one part. *)
Definition flat_world : World := {|
  dir_exists := fun _ => true;
  rglob := fun _ _ => [["2023.xlsx"]];
  read_excel := fun _ => Ok sample_sheet;
  mkdir := fun _ => Ok tt;
  to_csv := fun _ => Ok tt;
  to_excel := fun _ => Ok tt
|}.

(** ** The sheet of one file, on its way to the long table *)

(** The labels the cleaning removes from the period columns of a raw sheet:
    the original commodity column, the city column and the dropped ones. *)
Definition is_raw_period (config : ConsolidatorConfig) (label : string)
  : bool :=
  negb (bool_decide
          (label ∈ original_commodity_col config :: city_col config
                     :: columns_to_drop config)).

(** The columns [clean_dataframe] does not drop. *)
Definition not_dropped (config : ConsolidatorConfig) (label : string) : bool :=
  negb (bool_decide (label ∈ columns_to_drop config)).

Definition kept_columns (config : ConsolidatorConfig) (df : DataFrame)
  : DataFrame :=
  List.filter (fun c : column => not_dropped config c.1) df.

(** [clean_dataframe] followed by [transform_to_long_format], as
    [_process_single_file] chains them. *)
Definition clean_and_transform (config : ConsolidatorConfig)
    (df : DataFrame) (file_path : Path) : result table :=
  wide ← Cleaner.clean_dataframe config df file_path;
  Cleaner.transform_to_long_format config wide.

(** A raw sheet with the numbering column the default configuration drops. *)
Definition numbered_sheet : DataFrame :=
  [ ("No", [Num 1; Num 2]);
    ("Komoditas (Rp)", [Str "Beras"; Str "Telur Ayam"]);
    ("15/ 01/ 2024", [Str "12,000"; Str "-"]);
    ("15/ 02/ 2024", [Str "12,500"; Num 25000]) ].

(** ** What a consolidated row is *)

(** A row as the processing of a file leaves it: its commodity is one of the
    targets, its price a number or missing, its date a timestamp or missing. *)
Definition consolidated (targets : list string) (r : row) : Prop :=
  (exists s, Commodity r = Str s /\ s ∈ targets)
  /\ (Price r = NaN \/ exists z, Price r = Num z)
  /\ (Date r = NaN \/ exists d, Date r = Ts d).

(** ** Paths and file names, continued *)

Module PurePath.

(** [Path.suffix]: the last suffix of the name, dot included; a leading or
    a trailing dot does not start one. *)
Definition suffix (p : Path) : string :=
  let nm := list_ascii_of_string (PathLib.name p) in
  match PathLib.rfind_dot 0 nm with
  | Some i =>
      if ((0 <? i) && (i <? List.length nm - 1))%nat
      then string_of_list_ascii (skipn i nm)
      else ""
  | None => ""
  end.

(** [str.lower] on ASCII text. *)
Definition lower_char (a : ascii) : ascii :=
  let n := Chars.code a in
  if (65 <=? n) && (n <=? 90) then ascii_of_N (N_of_ascii a + 32) else a.

Definition lower (s : string) : string :=
  string_of_list_ascii (List.map lower_char (list_ascii_of_string s)).

(** [str(path)] of a POSIX path. *)
Definition str (p : Path) : string :=
  match p with
  | [] => "."
  | anchor :: rest =>
      if String.eqb anchor "/" then "/" +:+ String.concat "/" rest
      else String.concat "/" p
  end.

End PurePath.

(** ** Validator: file paths (data/validator.py) *)

Module PathValidator.
Section PathValidator.
Variable world : World.
(** [Path.is_file]; [Path.exists] is the [dir_exists] of the world. *)
Variable is_file : Path -> bool.

Definition validate_file_path (file_path : Path) : bool * list string :=
  let issues := [] in
  let issues :=
    Validator.append_if (negb (dir_exists world file_path))
      ("File does not exist: " +:+ PurePath.str file_path) issues in
  let issues :=
    Validator.append_if (negb (is_file file_path))
      ("Path is not a file: " +:+ PurePath.str file_path) issues in
  let issues :=
    Validator.append_if
      (negb (bool_decide
               (PurePath.lower (PurePath.suffix file_path)
                  ∈ [".xlsx"; ".xls"])))
      ("File is not an Excel file: " +:+ PurePath.str file_path) issues in
  (bool_decide (length issues = 0%nat), issues).

End PathValidator.
End PathValidator.

(** ** Pipeline (pipelines/consolidation.py) *)

(** config/settings.py, [PathConfig]. *)
Record PathConfig := {
  data_root : Path;
  raw_data_dir : Path;
  processed_data_dir : Path;
  features_data_dir : Path;
  logs_dir : Path
}.

Definition default_paths : PathConfig := {|
  data_root := ["data"];
  raw_data_dir := ["data"; "raw"];
  processed_data_dir := ["data"; "processed"];
  features_data_dir := ["data"; "features"];
  logs_dir := ["logs"]
|}.

(** The dictionary [validate_data_structure] returns. *)
Module Report.
Record t := {
  valid_files : list string;
  invalid_files : list string;
  missing_directories : list string;
  issues : list string
}.
End Report.

Module Pipeline.
Section Pipeline.
Variable config : ConsolidatorConfig.
Variable paths : PathConfig.
Variable world : World.
Variable is_file : Path -> bool.
(** [self.data_root]. *)
Variable root : Path.

Definition _save_consolidated_data (df : table)
    (output_formats : option (list string))
  : list event * result (gmap string bool) :=
  let output_formats :=
    match output_formats with
    | None => ["csv"; "excel"]
    | Some formats => formats
    end in
  let csv_filename :=
    if bool_decide ("csv" ∈ output_formats)
    then Some (default_csv_output config) else None in
  let excel_filename :=
    if bool_decide ("excel" ∈ output_formats)
    then Some (default_excel_output config) else None in
  Consolidator.save_data config world df csv_filename excel_filename
    (Some (processed_data_dir paths)).

(** [if target_commodities:] on an optional list: [None] and the empty list
    are falsy. *)
Definition override (target_commodities : option (list string))
    (current : list string) : list string :=
  match target_commodities with
  | Some (c :: cs) => c :: cs
  | _ => current
  end.

(** One call of [run_consolidation] on a pipeline whose consolidator holds
    [self_targets] as its [target_commodities]: the list the consolidator
    holds afterwards, the requests made for saving, and the outcome. *)
Definition run_consolidation (self_targets : list string)
    (target_commodities : option (list string)) (save_outputs : bool)
    (output_formats : option (list string))
  : list string * list event * result table :=
  let self_targets := override target_commodities self_targets in
  match Consolidator.consolidate_data config world self_targets root with
  | Raise e => (self_targets, [], Raise e)
  | Ok consolidated_df =>
      if bool_decide (consolidated_df = [])
      then (self_targets, [], Ok consolidated_df)
      else if save_outputs then
        let '(requests, saved) :=
          _save_consolidated_data consolidated_df output_formats in
        match saved with
        | Raise e => (self_targets, requests, Raise e)
        | Ok _ => (self_targets, requests, Ok consolidated_df)
        end
      else (self_targets, [], Ok consolidated_df)
  end.

(** [str(e)] of the errors discovery raises (it raises no other). *)
Definition discovery_error (e : exn) : string :=
  match e with
  | IndexError => "tuple index out of range"
  | FileNotFoundError => "Directory not found: " +:+ PurePath.str root
  | _ => ""
  end.

(** The body of the loop over the discovered files. *)
Definition record_file (results : Report.t) (file_path : Path) : Report.t :=
  let '(is_valid, issues) :=
    PathValidator.validate_file_path world is_file file_path in
  if is_valid then
    {| Report.valid_files :=
         Report.valid_files results ++ [PurePath.str file_path];
       Report.invalid_files := Report.invalid_files results;
       Report.missing_directories := Report.missing_directories results;
       Report.issues := Report.issues results |}
  else
    {| Report.valid_files := Report.valid_files results;
       Report.invalid_files :=
         Report.invalid_files results ++ [PurePath.str file_path];
       Report.missing_directories := Report.missing_directories results;
       Report.issues := Report.issues results ++ issues |}.

Definition with_issue (results : Report.t) (issue : string) : Report.t :=
  {| Report.valid_files := Report.valid_files results;
     Report.invalid_files := Report.invalid_files results;
     Report.missing_directories := Report.missing_directories results;
     Report.issues := Report.issues results ++ [issue] |}.

Definition validate_data_structure : Report.t :=
  let results :=
    {| Report.valid_files := []; Report.invalid_files := [];
       Report.missing_directories := []; Report.issues := [] |} in
  if negb (dir_exists world root) then
    with_issue results
      ("Data root directory does not exist: " +:+ PurePath.str root)
  else
    match Loader.find_excel_files config world root with
    | Ok excel_files => fold_left record_file excel_files results
    | Raise e =>
        with_issue results
          ("Error during file discovery: " +:+ discovery_error e)
    end.

End Pipeline.
End Pipeline.

(** ** Settings: the validators of the two filters (config/settings.py) *)

Module Settings.
Import Chars.

(** The value a [mode='before'] validator is handed: a text (as an
    environment variable gives it), a list, or [None]. *)
Inductive raw (A : Type) :=
| Text (s : string)
| Items (l : list A)
| Unset.
Arguments Text {A} s.
Arguments Items {A} l.
Arguments Unset {A}.

(** [text.split(',')] on the characters of the text. *)
Fixpoint split_commas (l : list ascii) : list (list ascii) :=
  match l with
  | [] => [[]]
  | a :: l' =>
      if Ascii.eqb a ","%char then [] :: split_commas l'
      else
        match split_commas l' with
        | part :: parts => (a :: part) :: parts
        | [] => [[a]]
        end
  end.

Definition split (s : string) : list string :=
  string_of_list_ascii <$> split_commas (list_ascii_of_string s).

(** [text.strip()]. *)
Definition strip (s : string) : string :=
  string_of_list_ascii (Chars.strip (list_ascii_of_string s)).

(** [[int(year.strip()) for year in parts]]; [int] raises [ValueError]. *)
Fixpoint ints (parts : list string) : result (list Z) :=
  match parts with
  | [] => Ok []
  | year :: parts' =>
      match PyInt.int (strip year) with
      | Some y => years ← ints parts'; Ok (y :: years)
      | None => Raise ValueError
      end
  end.

Definition parse_target_years (v : raw Z) : result (raw Z) :=
  match v with
  | Text s =>
      if negb (String.eqb s "")
      then years ← ints (split s); Ok (Items years)
      else Ok v
  | _ => Ok v
  end.

Definition parse_target_cities (v : raw string) : result (raw string) :=
  match v with
  | Text s =>
      if negb (String.eqb s "")
      then Ok (Items (strip <$> split s))
      else Ok v
  | _ => Ok v
  end.

End Settings.

(** A separator of an environment list: a comma and optional whitespace. *)
Definition separator (ws : string) : string := "," +:+ ws.

(** A name that can stand in such a list: not empty, without commas and
    without whitespace at either end. *)
Definition plain_name (s : string) : Prop :=
  s <> ""
  /\ Forall (fun a => Ascii.eqb a ","%char = false) (list_ascii_of_string s)
  /\ Settings.strip s = s.

(** A long table with a gap at the start of one group and a gap at the end
    of another; each group has a price of its own. *)
Definition gap_table : table :=
  [ mkrow (Str "Telur Ayam") (Str "kota-pontianak") (Str "15/ 02/ 2024") NaN;
    mkrow (Str "Beras") (Str "kota-pontianak") (Str "15/ 01/ 2024") (Str "-");
    mkrow (Str "Telur Ayam") (Str "kota-pontianak") (Str "15/ 01/ 2024")
      (Num 25000);
    mkrow (Str "Beras") (Str "kota-pontianak") (Str "15/ 02/ 2024")
      (Num 12500) ].

(** A sorted long table whose last group has no price at all. *)
Definition tail_table : table :=
  [ mkrow (Str "Beras") (Str "kota-pontianak") (Str "15/ 01/ 2024") (Num 12000);
    mkrow (Str "Telur Ayam") (Str "kota-pontianak") (Str "15/ 01/ 2024") NaN;
    mkrow (Str "Telur Ayam") (Str "kota-pontianak") (Str "15/ 02/ 2024")
      (Str "-") ].

(** ** File patterns and commodity columns of the usual kind *)

Definition alnum (a : ascii) : bool :=
  let n := Chars.code a in
  ((48 <=? n) && (n <=? 57)) || ((65 <=? n) && (n <=? 90))
  || ((97 <=? n) && (n <=? 122)).

Fixpoint doubled_star (l : list ascii) : bool :=
  match l with
  | a :: (b :: _) as l' =>
      (Ascii.eqb a "*"%char && Ascii.eqb b "*"%char) || doubled_star l'
  | _ => false
  end.

(** A pattern for file names that [rglob] accepts: letters, digits, [.],
    [_], [-], [?] and single [*] only, with a letter or digit among them.
    (An empty pattern, one that starts at the root of the file system and
    one with a misplaced [**] make [rglob] raise.) *)
Definition name_pattern (pattern : string) : bool :=
  let l := list_ascii_of_string pattern in
  forallb
    (fun a => alnum a || bool_decide (a ∈ list_ascii_of_string "._-?*")) l
  && existsb alnum l
  && negb (doubled_star l).


(** ** The runner (scripts/run_consolidation.py) *)

Module Runner.

(** The YAML keys the runner passes on, each with the configuration field
    it becomes. *)
Definition config_mapping : list (string * string) :=
  [ ("target_commodities", "target_commodities");
    ("target_years", "target_years");
    ("year_range_start", "year_range_start");
    ("year_range_end", "year_range_end");
    ("target_cities", "target_cities");
    ("log_level", "log_level");
    ("enable_logging", "enable_logging");
    ("file_pattern", "file_pattern");
    ("missing_value_indicators", "missing_value_indicators");
    ("csv_filename", "default_csv_output");
    ("excel_filename", "default_excel_output") ].

Section Runner.
(** The values of a YAML document; [None] is YAML's [null]. *)
Context {V : Type}.

(** The loop that builds the keyword arguments of [ConsolidatorConfig]
    from the loaded document. *)
Definition pass_on (config_data : gmap string (option V))
    (consolidated_config : gmap string V) (entry : string * string)
  : gmap string V :=
  let '(yaml_key, config_key) := entry in
  match config_data !! yaml_key with
  | Some (Some value) => <[config_key := value]> consolidated_config
  | _ => consolidated_config
  end.

Definition consolidated_config (config_data : gmap string (option V))
  : gmap string V :=
  fold_left (pass_on config_data) config_mapping ∅.

End Runner.
End Runner.

(** A world in which no file yields a row: the only workbook has no target
    commodity. *)
Definition barren_world : World := {|
  dir_exists := fun _ => true;
  rglob := fun root _ => [root ++ ["kota-pontianak"; "2024.xlsx"]];
  read_excel := fun _ => Ok foreign_sheet;
  mkdir := fun _ => Ok tt;
  to_csv := fun _ => Ok tt;
  to_excel := fun _ => Ok tt
|}.

(** * Properties *)

(** ** Loader *)

Example stem_2022 : PathLib.stem ["data"; "kota-pontianak"; "2022.xlsx"] = "2022".
Proof. reflexivity. Qed.
Example int_2022 : PyInt.int " 2_022 " = Some 2022.
Proof. reflexivity. Qed.
Example int_notayear : PyInt.int "notayear" = None.
Proof. reflexivity. Qed.

Section LoaderFacts.
Import Loader.
Variable config : ConsolidatorConfig.

(** A base name that does not read as an integer is always kept. *)
Lemma should_process_year_unparsed file_path :
  PyInt.int (PathLib.stem file_path) = None ->
  _should_process_year config file_path = true.
Proof. intros H. unfold _should_process_year. now rewrite H. Qed.

(** With an explicit year list, membership decides. *)
Lemma should_process_year_listed file_path y years :
  PyInt.int (PathLib.stem file_path) = Some y ->
  target_years config = Some years ->
  _should_process_year config file_path = true <-> y ∈ years.
Proof.
  intros H Hy. unfold _should_process_year. rewrite H, Hy.
  apply bool_decide_eq_true.
Qed.

(** Without any filter, every year is kept. *)
Lemma should_process_year_unfiltered file_path :
  target_years config = None ->
  year_range_start config = None ->
  year_range_end config = None ->
  _should_process_year config file_path = true.
Proof.
  intros Hy Hs He. unfold _should_process_year. rewrite Hy, Hs, He.
  now destruct (PyInt.int _).
Qed.

(** With a year range whose configured limits are not [0], the file is kept
    exactly when the year lies between the limits that are present. *)
Lemma should_process_year_range file_path y :
  PyInt.int (PathLib.stem file_path) = Some y ->
  target_years config = None ->
  year_range_start config ≠ Some 0 ->
  year_range_end config ≠ Some 0 ->
  _should_process_year config file_path = true <->
  lower_limit (year_range_start config) y /\
  upper_limit (year_range_end config) y.
Proof.
  intros H Hy Hs He. unfold _should_process_year. rewrite H, Hy.
  destruct (year_range_start config) as [s|], (year_range_end config) as [e|];
    cbn [or_else lower_limit upper_limit];
    repeat match goal with
      | |- context [?z =? 0] =>
          destruct (Z.eqb_spec z 0); [subst; congruence|]
      end;
    cbn; rewrite ?andb_true_iff, ?Z.leb_le; intuition.
Qed.

End LoaderFacts.

(** The configuration of the year-filter example: [target_years=[2023]]. *)
Example year_list_excludes_2022 :
  Loader._should_process_year
    (with_filters default_config (Some [2023]) None None None)
    ["data"; "kota-pontianak"; "2022.xlsx"] = false.
Proof. reflexivity. Qed.

Example year_list_includes_notayear :
  Loader._should_process_year
    (with_filters default_config (Some [2023]) None None None)
    ["data"; "kota-pontianak"; "notayear.xlsx"] = true.
Proof. reflexivity. Qed.

(** C4 (at the input where the code departs from it): the explicit year list
    is absent and the range is configured with end year [0] only; the file
    [2023.xlsx] lies above that end, yet the predicate keeps it, because
    [year_range_end or float('inf')] reads a configured [0] as "no limit". *)
Theorem should_process_year_zero_end_kept :
  let config := with_filters default_config None None (Some 0) None in
  PyInt.int (PathLib.stem ["data"; "kota-pontianak"; "2023.xlsx"]) = Some 2023
  /\ target_years config = None
  /\ year_range_end config = Some 0
  /\ ~ (2023 <= 0)
  /\ Loader._should_process_year config
       ["data"; "kota-pontianak"; "2023.xlsx"] = true.
Proof. cbv zeta. repeat split; try reflexivity. lia. Qed.

(** ** Validator *)

Lemma frame_empty_iff_no_rows (df : DataFrame) :
  Frame.empty df = bool_decide (Frame.nrows df = 0%nat).
Proof.
  unfold Frame.empty. destruct df as [|[label values] df]; [reflexivity|].
  cbn. destruct values; reflexivity.
Qed.

Lemma length_zero_nil {A} (l : list A) :
  bool_decide (length l = 0%nat) = bool_decide (l = []).
Proof. destruct l; reflexivity. Qed.

(** C9: the validator runs its three checks one after the other, none of
    them guarding another: the issue list is the concatenation of one
    optional message per check (no rows; the original commodity column is
    absent; fewer columns than the configured minimum), the verdict is [true]
    exactly when that list is empty, and the store, hence the frame that was
    passed, is left as it was. *)
Theorem validate_dataframe_independent_checks
    (config : ConsolidatorConfig) (h : gmap loc DataFrame) (df : loc)
    (frame : DataFrame) (file_path : Path) :
  h !! df = Some frame ->
  let name := PathLib.name file_path in
  let issues :=
    (if bool_decide (Frame.nrows frame = 0%nat)
     then ["Empty DataFrame from " +:+ name] else [])
    ++ (if bool_decide (original_commodity_col config ∈ Frame.columns frame)
        then []
        else ["Missing '" +:+ original_commodity_col config +:+ "' column in "
                +:+ name])
    ++ (if bool_decide
             (Z.of_nat (length (Frame.columns frame))
              < min_expected_columns config)
        then ["Insufficient columns in " +:+ name] else []) in
  ValidatorRef.validate_dataframe config df file_path h
  = Ok ((bool_decide (issues = []), issues), h).
Proof.
  intros Hdf name issues.
  unfold ValidatorRef.validate_dataframe, mbind, St_bind, Store.deref, mret,
    St_ret.
  rewrite Hdf. unfold Validator.validate_dataframe.
  rewrite length_zero_nil, frame_empty_iff_no_rows.
  assert (Hlt : (Z.of_nat (length (Frame.columns frame))
                 <? min_expected_columns config)
                = bool_decide (Z.of_nat (length (Frame.columns frame))
                               < min_expected_columns config)).
  { destruct (Z.ltb_spec (Z.of_nat (length (Frame.columns frame)))
                (min_expected_columns config));
      [rewrite bool_decide_eq_true_2 by lia
      |rewrite bool_decide_eq_false_2 by lia]; reflexivity. }
  rewrite Hlt. subst issues name. unfold Validator.append_if.
  destruct (bool_decide (Frame.nrows frame = 0%nat));
    destruct (bool_decide (original_commodity_col config ∈ Frame.columns frame));
    destruct (bool_decide (Z.of_nat (length (Frame.columns frame))
                           < min_expected_columns config));
    reflexivity.
Qed.

Lemma validate_dataframe_independent_checks_witness :
  ({[ 0%nat := sample_sheet ]} : gmap loc DataFrame) !! 0%nat = Some sample_sheet
  /\ ValidatorRef.validate_dataframe default_config 0%nat sample_path
       {[ 0%nat := sample_sheet ]}
     = Ok ((true, []), {[ 0%nat := sample_sheet ]}).
Proof.
  split; [reflexivity|].
  exact (validate_dataframe_independent_checks default_config
           {[ 0%nat := sample_sheet ]} 0%nat sample_sheet sample_path
           eq_refl).
Defined.

(** ** Cleaner: reshaping *)

Section FrameFacts.

Lemma frame_get_present label (df : DataFrame) :
  label ∈ Frame.columns df -> exists values, Frame.get label df = Ok values.
Proof.
  unfold Frame.get, Frame.columns. induction df as [|[l vs] df IH]; cbn.
  - intros H. inversion H.
  - intros H. destruct (String.eqb_spec l label) as [->|Hne]; [eauto|].
    apply IH. inversion H; subst; [congruence|assumption].
Qed.

Lemma frame_get_elem label (df : DataFrame) values :
  Frame.get label df = Ok values -> (label, values) ∈ df.
Proof.
  unfold Frame.get. induction df as [|[l vs] df IH]; cbn; [discriminate|].
  destruct (String.eqb_spec l label) as [->|Hne].
  - intros [= ->]. left.
  - intros H. right. auto.
Qed.

Lemma well_formed_length (df : DataFrame) c :
  Frame.well_formed df -> c ∈ df -> length c.2 = Frame.nrows df.
Proof.
  intros [_ Hrect] Hin. rewrite Forall_forall in Hrect. now apply Hrect.
Qed.

Lemma stack_length label (commodity city values : list cell) n :
  length commodity = n -> length city = n -> length values = n ->
  length (Cleaner.stack label commodity city values) = n.
Proof.
  revert city values n.
  induction commodity as [|c commodity IH]; intros [|t city] [|v values] n;
    cbn; intros; subst; try discriminate; try reflexivity.
  f_equal. apply IH; congruence.
Qed.

Lemma stack_lookup label (commodity city values : list cell) i c t v :
  commodity !! i = Some c -> city !! i = Some t -> values !! i = Some v ->
  Cleaner.stack label commodity city values !! i
  = Some (mkrow c t (Str label) v).
Proof.
  revert city values i.
  induction commodity as [|c' commodity IH]; intros [|t' city] [|v' values] i;
    try (intros; discriminate).
  destruct i as [|i]; cbn.
  - congruence.
  - apply IH.
Qed.

(** Blocks of one length, laid end to end. *)
Lemma flat_map_length_uniform {A B} (f : A -> list B) (l : list A) n :
  (forall a, a ∈ l -> length (f a) = n) ->
  length (flat_map f l) = (n * length l)%nat.
Proof.
  induction l as [|a l IH]; cbn; intros H; [lia|].
  rewrite length_app, IH, (H a) by (intros; apply H; now right) || left.
  lia.
Qed.

Lemma flat_map_lookup_uniform {A B} (f : A -> list B) (l : list A) n j i a :
  (forall a, a ∈ l -> length (f a) = n) ->
  l !! j = Some a -> (i < n)%nat ->
  flat_map f l !! (j * n + i)%nat = f a !! i.
Proof.
  revert j. induction l as [|a' l IH]; intros j Hlen Hj Hi; [discriminate|].
  cbn [flat_map]. destruct j as [|j]; cbn in Hj.
  - injection Hj as ->. cbn. apply lookup_app_l.
    rewrite Hlen by left. exact Hi.
  - rewrite lookup_app_r by (rewrite Hlen by left; lia).
    rewrite Hlen by left.
    replace (S j * n + i - n)%nat with (j * n + i)%nat by lia.
    apply IH; [intros; apply Hlen; now right|assumption|assumption].
Qed.

(** Removing one present label of a frame with distinct labels. *)
Lemma filter_label_length (df : DataFrame) (P : string -> bool) a :
  NoDup (Frame.columns df) -> a ∈ Frame.columns df ->
  P a = false -> (forall b, b ∈ Frame.columns df -> b <> a -> P b = true) ->
  S (length (List.filter (fun c => P c.1) df)) = length df.
Proof.
  unfold Frame.columns. induction df as [|[l vs] df IH]; cbn.
  - intros _ H. inversion H.
  - intros Hnd Hin Ha Hothers. apply NoDup_cons in Hnd as [Hl Hnd].
    destruct (decide (l = a)) as [->|Hne].
    + rewrite Ha. f_equal.
      clear IH Hin. induction df as [|[l' vs'] df IH]; [reflexivity|].
      cbn in *. apply not_elem_of_cons in Hl as [Hne Hl].
      apply NoDup_cons in Hnd as [_ Hnd].
      rewrite Hothers by (try (right; left); congruence). cbn. f_equal.
      apply IH; [assumption|assumption|].
      intros b Hb Hba. apply Hothers; [|assumption].
      inversion Hb; subst; [left|right; now right].
    + rewrite Hothers by (try left; assumption). cbn. f_equal.
      apply IH; [assumption| |assumption|].
      * inversion Hin; subst; [congruence|assumption].
      * intros b Hb Hba. apply Hothers; [now right|assumption].
Qed.

End FrameFacts.

Section Reshape.
Variable config : ConsolidatorConfig.

Lemma is_period_other label :
  label <> commodity_col config -> label <> city_col config ->
  is_period config label = true.
Proof.
  intros Ha Hb. unfold is_period. rewrite bool_decide_eq_false_2; [reflexivity|].
  rewrite !elem_of_cons, elem_of_nil. tauto.
Qed.

Lemma is_period_commodity : is_period config (commodity_col config) = false.
Proof.
  unfold is_period. rewrite bool_decide_eq_true_2; [reflexivity|left].
Qed.

Lemma is_period_city : is_period config (city_col config) = false.
Proof.
  unfold is_period. rewrite bool_decide_eq_true_2; [reflexivity|right; left].
Qed.

(** Both identifier columns present once: the period columns are all the
    columns but two. *)
Lemma period_columns_length (df : DataFrame) :
  NoDup (Frame.columns df) ->
  commodity_col config ∈ Frame.columns df ->
  city_col config ∈ Frame.columns df ->
  commodity_col config <> city_col config ->
  S (S (length (period_columns config df))) = length df.
Proof.
  unfold period_columns.
  intros Hnd Ha Hb Hab. induction df as [|[l vs] df IH]; [inversion Ha|].
  cbn [List.filter fst length]. unfold Frame.columns in *.
  rewrite fmap_cons in Hnd, Ha, Hb. cbn [fst] in Hnd, Ha, Hb.
  pose proof Hnd as Hnd'. apply NoDup_cons in Hnd' as [Hl Hnd'].
  destruct (decide (l = commodity_col config)) as [->|Hla];
    [|destruct (decide (l = city_col config)) as [->|Hlb]].
  - rewrite is_period_commodity. f_equal.
    apply (filter_label_length df (is_period config) (city_col config));
      [assumption| |apply is_period_city|].
    + inversion Hb; subst; [congruence|assumption].
    + intros b Hin Hne. apply is_period_other; [|assumption].
      intros ->. contradiction.
  - rewrite is_period_city. f_equal.
    apply (filter_label_length df (is_period config) (commodity_col config));
      [assumption| |apply is_period_commodity|].
    + inversion Ha; subst; [congruence|assumption].
    + intros b Hin Hne. apply is_period_other; [assumption|].
      intros ->. contradiction.
  - rewrite is_period_other by assumption. cbn [length]. f_equal.
    apply IH; [assumption| |].
    + inversion Ha; subst; [congruence|assumption].
    + inversion Hb; subst; [congruence|assumption].
Qed.

(** C2 (as amended): on a wide frame with distinct column labels and
    columns of one length that has the two identifier columns, these being
    two different columns, and no column already carrying the price
    column's name, the reshape succeeds and yields exactly (rows) x (period
    columns) records, the period columns being all columns but the two
    identifier columns; the record at position [j * rows + i] pairs row [i]
    with period column [j]: it carries the row's identifiers, the column's
    label as its date and the cell as its price. *)
Theorem transform_to_long_format_row_count (df : DataFrame) :
  Frame.well_formed df ->
  commodity_col config ∈ Frame.columns df ->
  city_col config ∈ Frame.columns df ->
  commodity_col config <> city_col config ->
  price_col config ∉ Frame.columns df ->
  exists long commodity city,
    Cleaner.transform_to_long_format config df = Ok long
    /\ Frame.get (commodity_col config) df = Ok commodity
    /\ Frame.get (city_col config) df = Ok city
    /\ length long
       = (Frame.nrows df * length (period_columns config df))%nat
    /\ length (period_columns config df) = (length df - 2)%nat
    /\ forall j i label values,
         period_columns config df !! j = Some (label, values) ->
         (i < Frame.nrows df)%nat ->
         exists c t v,
           commodity !! i = Some c /\ city !! i = Some t
           /\ values !! i = Some v
           /\ long !! (j * Frame.nrows df + i)%nat
              = Some (mkrow c t (Str label) v).
Proof.
  intros Hwf Ha Hb Hab Hprice.
  destruct (frame_get_present _ _ Ha) as [commodity Hca].
  destruct (frame_get_present _ _ Hb) as [city Hcb].
  pose proof (well_formed_length df _ Hwf (frame_get_elem _ _ _ Hca)) as Hla.
  pose proof (well_formed_length df _ Hwf (frame_get_elem _ _ _ Hcb)) as Hlb.
  cbn in Hla, Hlb.
  assert (Hblocks : forall c : column, c ∈ period_columns config df ->
            length (Cleaner.stack c.1 commodity city c.2) = Frame.nrows df).
  { intros c Hc. apply stack_length; [assumption|assumption|].
    apply well_formed_length; [assumption|].
    unfold period_columns in Hc. apply list_elem_of_In in Hc.
    apply filter_In in Hc as [Hc _]. now apply list_elem_of_In. }
  exists (flat_map (fun c : column => Cleaner.stack c.1 commodity city c.2)
            (period_columns config df)), commodity, city.
  repeat split; try assumption.
  - unfold Cleaner.transform_to_long_format, Cleaner.melt.
    rewrite bool_decide_eq_false_2 by assumption.
    rewrite Hca, Hcb. reflexivity.
  - now apply flat_map_length_uniform.
  - pose proof (period_columns_length df (proj1 Hwf) Ha Hb Hab). lia.
  - intros j i label values Hj Hi.
    destruct (lookup_lt_is_Some_2 commodity i) as [c Hc]; [lia|].
    destruct (lookup_lt_is_Some_2 city i) as [t Ht]; [lia|].
    assert (Hlv : length values = Frame.nrows df).
    { apply (well_formed_length df (label, values)); [assumption|].
      apply list_elem_of_lookup_2 in Hj. unfold period_columns in Hj.
      apply list_elem_of_In in Hj. apply filter_In in Hj as [Hj _].
      now apply list_elem_of_In. }
    destruct (lookup_lt_is_Some_2 values i) as [v Hv]; [lia|].
    exists c, t, v. repeat split; try assumption.
    etrans;
      [apply (flat_map_lookup_uniform _ _ (Frame.nrows df) j i (label, values));
       assumption|].
    now apply stack_lookup.
Qed.

End Reshape.

Lemma sample_wide_well_formed : Frame.well_formed sample_wide.
Proof.
  split.
  - apply (bool_decide_unpack _). vm_compute. exact I.
  - repeat constructor.
Qed.

Lemma transform_to_long_format_row_count_witness :
  exists long commodity city,
    Cleaner.transform_to_long_format default_config sample_wide = Ok long
    /\ Frame.get "Commodities" sample_wide = Ok commodity
    /\ Frame.get "City" sample_wide = Ok city
    /\ length long
       = (Frame.nrows sample_wide
          * length (period_columns default_config sample_wide))%nat
    /\ length (period_columns default_config sample_wide)
       = (length sample_wide - 2)%nat
    /\ forall j i label values,
         period_columns default_config sample_wide !! j = Some (label, values) ->
         (i < Frame.nrows sample_wide)%nat ->
         exists c t v,
           commodity !! i = Some c /\ city !! i = Some t
           /\ values !! i = Some v
           /\ long !! (j * Frame.nrows sample_wide + i)%nat
              = Some (mkrow c t (Str label) v).
Proof.
  apply (transform_to_long_format_row_count default_config sample_wide).
  - apply sample_wide_well_formed.
  - apply (bool_decide_unpack _). vm_compute. exact I.
  - apply (bool_decide_unpack _). vm_compute. exact I.
  - discriminate.
  - apply (bool_decide_unpack _). vm_compute. exact I.
Defined.

(** C2 (as stated) fails on a frame that has both identifier columns and a
    period column labelled [Price]: [melt] refuses the value name, so no
    record is produced at all, let alone one per (row, period column). *)
Lemma transform_to_long_format_price_label_raises :
  Frame.well_formed priced_sheet
  /\ commodity_col default_config ∈ Frame.columns priced_sheet
  /\ city_col default_config ∈ Frame.columns priced_sheet
  /\ Cleaner.transform_to_long_format default_config priced_sheet
     = Raise ValueError
  /\ ~ exists long,
         Cleaner.transform_to_long_format default_config priced_sheet = Ok long
         /\ length long
            = (Frame.nrows priced_sheet
               * length (period_columns default_config priced_sheet))%nat.
Proof.
  split; [|split; [|split; [|split]]].
  - split; [apply (bool_decide_unpack _); vm_compute; exact I|repeat constructor].
  - apply (bool_decide_unpack _). vm_compute. exact I.
  - apply (bool_decide_unpack _). vm_compute. exact I.
  - reflexivity.
  - intros (long & H & _). discriminate H.
Qed.

(** ** Cleaner: commodity filter *)

Section Filter.
Variable config : ConsolidatorConfig.

Lemma isin_spec targets c :
  Cleaner.isin targets c = true <-> exists s, c = Str s /\ s ∈ targets.
Proof.
  unfold Cleaner.isin. rewrite bool_decide_eq_true, list_elem_of_fmap.
  split; intros (s & H1 & H2); eauto.
Qed.

Lemma filter_commodities_closed df targets r :
  r ∈ Cleaner.filter_commodities df targets ->
  r ∈ df /\ exists s, Commodity r = Str s /\ s ∈ targets.
Proof.
  unfold Cleaner.filter_commodities. rewrite !list_elem_of_In, filter_In.
  now rewrite isin_spec.
Qed.

Lemma filter_commodities_length df targets :
  (length (Cleaner.filter_commodities df targets) <= length df)%nat.
Proof. apply List.filter_length_le. Qed.

(** C3: called on a frame object, the filter returns a reference to a new
    object, different from every object that existed; that object holds
    the rows of the input whose commodity is a text of the target list, in
    their order, hence no more rows than the input; the input frame, like
    every other object of the store, is the same after the call. *)
Theorem filter_commodities_closure
    (h : gmap loc table) (df : loc) (frame : table) (targets : list string) :
  h !! df = Some frame ->
  exists out h',
    CleanerRef.filter_commodities config df targets h = Ok (out, h')
    /\ h !! out = None
    /\ out <> df
    /\ (forall l, is_Some (h !! l) -> h' !! l = h !! l)
    /\ h' !! df = Some frame
    /\ h' !! out = Some (Cleaner.filter_commodities frame targets)
    /\ (forall r, r ∈ Cleaner.filter_commodities frame targets ->
          r ∈ frame /\ exists s, Commodity r = Str s /\ s ∈ targets)
    /\ (length (Cleaner.filter_commodities frame targets)
        <= length frame)%nat.
Proof.
  intros Hdf.
  set (kept := Cleaner.filter_commodities frame targets).
  set (l1 := fresh (dom h)).
  set (h1 := <[l1 := kept]> h).
  set (l2 := fresh (dom h1)).
  assert (Hl1 : h !! l1 = None).
  { apply not_elem_of_dom. apply is_fresh. }
  assert (Hl2 : h1 !! l2 = None).
  { apply not_elem_of_dom. apply is_fresh. }
  assert (Hl2' : h !! l2 = None /\ l2 <> l1).
  { unfold h1 in Hl2. apply lookup_insert_None in Hl2.
    destruct Hl2; split; [assumption|congruence]. }
  destruct Hl2' as [Hl2h Hne].
  exists l2, (<[l2 := kept]> h1).
  split.
  { unfold CleanerRef.filter_commodities, mbind, St_bind, Store.deref,
      Store.new. rewrite Hdf. fold kept l1 h1.
    replace (h1 !! l1) with (Some kept)
      by (symmetry; apply lookup_insert_eq).
    reflexivity. }
  split; [assumption|]. split; [congruence|].
  assert (Hframe : forall l, is_Some (h !! l) ->
            <[l2 := kept]> h1 !! l = h !! l).
  { intros l [x Hx]. unfold h1.
    rewrite !lookup_insert_ne by congruence. reflexivity. }
  split; [assumption|]. split; [rewrite Hframe by eauto; assumption|].
  split; [apply lookup_insert_eq|].
  split; [apply filter_commodities_closed|apply filter_commodities_length].
Qed.

End Filter.

Lemma filter_commodities_closure_witness :
  ({[ 0%nat := sample_long ]} : gmap loc table) !! 0%nat = Some sample_long
  /\ exists out h',
       CleanerRef.filter_commodities default_config 0%nat
         (target_commodities default_config) {[ 0%nat := sample_long ]}
       = Ok (out, h')
       /\ out <> 0%nat
       /\ h' !! 0%nat = Some sample_long
       /\ h' !! out
          = Some (Cleaner.filter_commodities sample_long
                    (target_commodities default_config)).
Proof.
  assert (Hdf : ({[ 0%nat := sample_long ]} : gmap loc table) !! 0%nat
                = Some sample_long) by reflexivity.
  split; [exact Hdf|].
  destruct (filter_commodities_closure default_config
              {[ 0%nat := sample_long ]} 0%nat
              sample_long (target_commodities default_config) Hdf)
    as (out & h' & Hrun & _ & Hne & _ & Hin & Hout & _).
  exists out, h'. repeat split; assumption.
Defined.

(** ** Cleaner: missing values *)

Section Sorting.

Lemma insert_row_perm r (l : table) :
  Permutation (Cleaner.insert_row r l) (r :: l).
Proof.
  induction l as [|r' l IH]; cbn; [reflexivity|].
  destruct (Cleaner.key_leb r r'); [reflexivity|].
  rewrite IH. apply perm_swap.
Qed.

Lemma sort_values_perm (df : table) : Permutation (Cleaner.sort_values df) df.
Proof.
  unfold Cleaner.sort_values. induction df as [|r df IH]; cbn; [reflexivity|].
  rewrite insert_row_perm. now constructor.
Qed.

Lemma date_leb_total a b :
  Strptime.date_leb a b = true \/ Strptime.date_leb b a = true.
Proof.
  unfold Strptime.date_leb.
  repeat match goal with
    | |- context [?x <? ?y] => destruct (Z.ltb_spec x y)
    | |- context [?x <=? ?y] => destruct (Z.leb_spec x y)
    end; auto; lia.
Qed.

Lemma cell_leb_total a b :
  Cleaner.cell_leb a b = true \/ Cleaner.cell_leb b a = true.
Proof.
  destruct a, b; cbn; auto using String.leb_total, date_leb_total.
  destruct (Z.leb_spec z z0), (Z.leb_spec z0 z); auto; lia.
Qed.

Lemma key_leb_total r1 r2 :
  Cleaner.key_leb r1 r2 = true \/ Cleaner.key_leb r2 r1 = true.
Proof.
  unfold Cleaner.key_leb, Cleaner.cell_ltb.
  destruct (cell_leb_total (City r1) (City r2)) as [H|H];
    destruct (Cleaner.cell_leb (City r1) (City r2)) eqn:E1;
    destruct (Cleaner.cell_leb (City r2) (City r1)) eqn:E2;
    try discriminate; cbn; auto;
    destruct (cell_leb_total (Commodity r1) (Commodity r2)) as [H'|H'];
    destruct (Cleaner.cell_leb (Commodity r1) (Commodity r2)) eqn:E3;
    destruct (Cleaner.cell_leb (Commodity r2) (Commodity r1)) eqn:E4;
    try discriminate; cbn; auto using cell_leb_total.
Qed.

Lemma insert_row_sorted r (l : table) :
  Sorted key_le l -> Sorted key_le (Cleaner.insert_row r l).
Proof.
  induction 1 as [|r' l Hs IH Hhd]; cbn; [repeat constructor|].
  destruct (Cleaner.key_leb r r') eqn:E.
  - repeat constructor; assumption.
  - constructor; [assumption|].
    assert (Hr : key_le r' r).
    { destruct (key_leb_total r r'); [congruence|assumption]. }
    destruct l as [|r'' l]; cbn; [now constructor|].
    destruct (Cleaner.key_leb r r''); constructor; [assumption|].
    now inversion Hhd.
Qed.

(** The frame is in (City, Commodity, Date) order after [sort_values]. *)
Lemma sort_values_sorted (df : table) : Sorted key_le (Cleaner.sort_values df).
Proof.
  unfold Cleaner.sort_values. induction df; cbn;
    [constructor|now apply insert_row_sorted].
Qed.

End Sorting.

Section MissingValues.
Variable config : ConsolidatorConfig.

Lemma groupby_ffill_length before rows :
  length (Cleaner.groupby_ffill before rows) = length rows.
Proof.
  revert before. induction rows as [|r rows IH]; intros before; cbn;
    [reflexivity|now rewrite IH].
Qed.

Lemma bfill_length series : length (Cleaner.bfill series) = length series.
Proof. induction series; cbn; [reflexivity|now f_equal]. Qed.

Lemma observation_set_price r p : observation (set_price r p) = observation r.
Proof. reflexivity. Qed.

Lemma observation_assign (df : table) (prices : list cell) :
  length prices = length df ->
  observation <$> zip_with set_price df prices = observation <$> df.
Proof.
  revert prices. induction df as [|r df IH]; intros [|p prices]; cbn;
    try discriminate; [reflexivity|].
  intros [= H]. now rewrite IH.
Qed.

Lemma replaced_observation indicators (df : table) :
  observation <$> Cleaner.replace_indicators indicators df = observation <$> df.
Proof.
  unfold Cleaner.replace_indicators. revert df.
  induction indicators as [|i indicators IH]; intros df; cbn; [reflexivity|].
  rewrite IH. rewrite <- list_fmap_compose. reflexivity.
Qed.

(** C10: [handle_missing_values] returns as many rows as it was given, and
    the (City, Commodity, Date) triples of the output are those of the
    input, each as often as before (the rows may be in another order):
    only prices are rewritten. *)
Theorem handle_missing_values_frame (df : table) :
  length (Cleaner.handle_missing_values config df) = length df
  /\ Permutation (observation <$> Cleaner.handle_missing_values config df)
       (observation <$> df).
Proof.
  unfold Cleaner.handle_missing_values.
  set (sorted := Cleaner.sort_values (Cleaner.replace_indicators _ df)).
  assert (Hlen : length (Cleaner.bfill (Cleaner.groupby_ffill [] sorted))
                 = length sorted).
  { now rewrite bfill_length, groupby_ffill_length. }
  assert (Hobs : Permutation (observation <$> sorted) (observation <$> df)).
  { unfold sorted. rewrite sort_values_perm. now rewrite replaced_observation. }
  split.
  - apply Permutation_length in Hobs. rewrite !length_fmap in Hobs.
    rewrite length_zip_with, Hlen. lia.
  - now rewrite observation_assign.
Qed.

End MissingValues.

(** Running the store operations. *)
Lemma bind_ok {A B C} (m : St A B) (k : B -> St A C) h b h' :
  m h = Ok (b, h') -> (m ≫= k) h = k b h'.
Proof. intros H. unfold mbind, St_bind. now rewrite H. Qed.

Lemma deref_ok {A} (h : gmap loc A) l x :
  h !! l = Some x -> Store.deref l h = Ok (x, h).
Proof. intros H. unfold Store.deref. now rewrite H. Qed.

Lemma new_ok {A} (h : gmap loc A) x :
  Store.new x h = Ok (fresh (dom h), <[fresh (dom h) := x]> h).
Proof. reflexivity. Qed.

Lemma update_ok {A} (h : gmap loc A) l x :
  Store.update l x h = Ok (tt, <[l := x]> h).
Proof. reflexivity. Qed.

(** X25: [handle_missing_values] works on a copy: the frame that was
    passed, like every other object of the store, is the same afterwards, and
    the frame returned is a new object holding the filled rows. *)
Lemma handle_missing_values_copy
    (config : ConsolidatorConfig) (h : gmap loc table) (df : loc)
    (frame : table) :
  h !! df = Some frame ->
  exists out h',
    CleanerRef.handle_missing_values config df h = Ok (out, h')
    /\ h !! out = None
    /\ (forall l, is_Some (h !! l) -> h' !! l = h !! l)
    /\ h' !! out = Some (Cleaner.handle_missing_values config frame).
Proof.
  intros Hdf.
  set (replaced :=
         Cleaner.replace_indicators (missing_value_indicators config) frame).
  set (l1 := fresh (dom h)).
  set (h1 := <[l1 := replaced]> (<[l1 := frame]> h)).
  set (l2 := fresh (dom h1)).
  assert (Hl1 : h !! l1 = None) by apply not_elem_of_dom, is_fresh.
  assert (Hl2 : h1 !! l2 = None) by apply not_elem_of_dom, is_fresh.
  assert (Hfresh : h !! l2 = None /\ l1 <> l2).
  { unfold h1 in Hl2. rewrite insert_insert_eq in Hl2.
    apply lookup_insert_None in Hl2. tauto. }
  destruct Hfresh as [Hl2h Hne].
  exists l2,
    (<[l2 := Cleaner.handle_missing_values config frame]>
       (<[l2 := Cleaner.sort_values replaced]> h1)).
  split; [|split; [assumption|split]].
  - unfold CleanerRef.handle_missing_values.
    rewrite (bind_ok _ _ h frame h) by now apply deref_ok.
    rewrite (bind_ok _ _ h l1 (<[l1 := frame]> h)) by apply new_ok.
    rewrite (bind_ok _ _ _ frame (<[l1 := frame]> h))
      by apply deref_ok, lookup_insert_eq.
    rewrite (bind_ok _ _ _ tt h1) by apply update_ok.
    rewrite (bind_ok _ _ _ replaced h1) by apply deref_ok, lookup_insert_eq.
    rewrite (bind_ok _ _ h1 l2 (<[l2 := Cleaner.sort_values replaced]> h1))
      by apply new_ok.
    rewrite (bind_ok _ _ _ (Cleaner.sort_values replaced)
               (<[l2 := Cleaner.sort_values replaced]> h1))
      by apply deref_ok, lookup_insert_eq.
    rewrite (bind_ok _ _ _ tt
               (<[l2 := Cleaner.handle_missing_values config frame]>
                  (<[l2 := Cleaner.sort_values replaced]> h1)))
      by apply update_ok.
    reflexivity.
  - intros l [x Hx]. unfold h1.
    rewrite !lookup_insert_ne by congruence. reflexivity.
  - apply lookup_insert_eq.
Qed.

(** *** The sort order is a total order on keys *)

Section KeyOrder.

Lemma ascii_compare_refl a : Ascii.compare a a = Eq.
Proof. unfold Ascii.compare. apply N.compare_refl. Qed.

Lemma ascii_compare_lt_trans a b c :
  Ascii.compare a b = Lt -> Ascii.compare b c = Lt -> Ascii.compare a c = Lt.
Proof.
  unfold Ascii.compare. rewrite !N.compare_lt_iff. apply N.lt_trans.
Qed.

Lemma string_compare_lt_trans s1 s2 s3 :
  String.compare s1 s2 = Lt -> String.compare s2 s3 = Lt ->
  String.compare s1 s3 = Lt.
Proof.
  revert s2 s3. induction s1 as [|a s1 IH]; intros [|b s2] [|c s3]; cbn;
    try discriminate; try reflexivity.
  destruct (Ascii.compare a b) eqn:Eab, (Ascii.compare b c) eqn:Ebc;
    try discriminate; intros H12 H23.
  - apply Ascii.compare_eq_iff in Eab, Ebc. subst.
    rewrite ascii_compare_refl. eauto.
  - apply Ascii.compare_eq_iff in Eab. subst. now rewrite Ebc.
  - apply Ascii.compare_eq_iff in Ebc. subst. now rewrite Eab.
  - now rewrite (ascii_compare_lt_trans a b c).
Qed.

Lemma string_leb_trans s1 s2 s3 :
  String.leb s1 s2 = true -> String.leb s2 s3 = true ->
  String.leb s1 s3 = true.
Proof.
  unfold String.leb.
  destruct (String.compare s1 s2) eqn:E12; [| |discriminate];
    destruct (String.compare s2 s3) eqn:E23; try discriminate; intros _ _.
  - apply String.compare_eq_iff in E12. subst. now rewrite E23.
  - apply String.compare_eq_iff in E12. subst. now rewrite E23.
  - apply String.compare_eq_iff in E23. subst. now rewrite E12.
  - now rewrite (string_compare_lt_trans s1 s2 s3).
Qed.

Lemma date_leb_trans a b c :
  Strptime.date_leb a b = true -> Strptime.date_leb b c = true ->
  Strptime.date_leb a c = true.
Proof.
  unfold Strptime.date_leb.
  repeat match goal with
    | |- context [?x <? ?y] => destruct (Z.ltb_spec x y)
    | |- context [?x <=? ?y] => destruct (Z.leb_spec x y)
    end; intros; try discriminate; try reflexivity; lia.
Qed.

Lemma date_leb_antisym a b :
  Strptime.date_leb a b = true -> Strptime.date_leb b a = true -> a = b.
Proof.
  unfold Strptime.date_leb. destruct a as [y m d], b as [y' m' d']. cbn.
  repeat match goal with
    | |- context [?x <? ?y] => destruct (Z.ltb_spec x y)
    | |- context [?x <=? ?y] => destruct (Z.leb_spec x y)
    end; intros; try discriminate; try lia.
  f_equal; lia.
Qed.

Lemma cell_leb_trans a b c :
  Cleaner.cell_leb a b = true -> Cleaner.cell_leb b c = true ->
  Cleaner.cell_leb a c = true.
Proof.
  destruct a, b, c; cbn; try discriminate; try reflexivity;
    eauto using string_leb_trans, date_leb_trans.
  rewrite !Z.leb_le. lia.
Qed.

Lemma cell_leb_antisym a b :
  Cleaner.cell_leb a b = true -> Cleaner.cell_leb b a = true -> a = b.
Proof.
  destruct a, b; cbn; try discriminate; try reflexivity; intros H1 H2.
  - apply Z.leb_le in H1, H2. f_equal. lia.
  - f_equal. now apply String.leb_antisym.
  - f_equal. now apply date_leb_antisym.
Qed.

Lemma cell_leb_refl a : Cleaner.cell_leb a a = true.
Proof. now destruct (cell_leb_total a a). Qed.

Lemma cell_ltb_leb a b :
  Cleaner.cell_ltb a b = true -> Cleaner.cell_leb a b = true.
Proof.
  unfold Cleaner.cell_ltb. intros H.
  destruct (cell_leb_total a b) as [Hab|Hba]; [assumption|].
  now rewrite Hba in H.
Qed.

Lemma cell_ltb_trans a b c :
  Cleaner.cell_ltb a b = true -> Cleaner.cell_ltb b c = true ->
  Cleaner.cell_ltb a c = true.
Proof.
  intros Hab Hbc. pose proof (cell_ltb_leb a b Hab) as Hle.
  unfold Cleaner.cell_ltb in *. apply negb_true_iff in Hbc.
  apply negb_true_iff. destruct (Cleaner.cell_leb c a) eqn:E; [|reflexivity].
  now rewrite (cell_leb_trans c a b E Hle) in Hbc.
Qed.

Lemma cell_ltb_false_eq a b :
  Cleaner.cell_ltb a b = false -> Cleaner.cell_ltb b a = false -> a = b.
Proof.
  unfold Cleaner.cell_ltb. rewrite !negb_false_iff.
  intros; now apply cell_leb_antisym.
Qed.

Lemma cell_ltb_irrefl a : Cleaner.cell_ltb a a = false.
Proof. unfold Cleaner.cell_ltb. now rewrite cell_leb_refl. Qed.

(** The order by group, unfolded. *)
Lemma group_leb_spec r1 r2 :
  group_leb r1 r2 = true <->
  Cleaner.cell_ltb (City r1) (City r2) = true
  \/ (City r1 = City r2
      /\ Cleaner.cell_leb (Commodity r1) (Commodity r2) = true).
Proof.
  unfold group_leb.
  destruct (Cleaner.cell_ltb (City r1) (City r2)) eqn:E1; [tauto|].
  destruct (Cleaner.cell_ltb (City r2) (City r1)) eqn:E2.
  - split; [discriminate|]. intros [H|[H _]]; [discriminate|].
    rewrite H, cell_ltb_irrefl in E2. discriminate.
  - pose proof (cell_ltb_false_eq _ _ E1 E2). intuition congruence.
Qed.

Lemma key_leb_group r1 r2 :
  Cleaner.key_leb r1 r2 = true -> group_leb r1 r2 = true.
Proof.
  unfold Cleaner.key_leb, group_leb.
  destruct (Cleaner.cell_ltb (City r1) (City r2)); [reflexivity|].
  destruct (Cleaner.cell_ltb (City r2) (City r1)); [discriminate|].
  destruct (Cleaner.cell_ltb (Commodity r1) (Commodity r2)) eqn:E1.
  - intros _. now apply cell_ltb_leb.
  - destruct (Cleaner.cell_ltb (Commodity r2) (Commodity r1)) eqn:E2;
      [discriminate|].
    intros _. rewrite (cell_ltb_false_eq _ _ E1 E2). apply cell_leb_refl.
Qed.

Lemma group_leb_trans r1 r2 r3 :
  group_leb r1 r2 = true -> group_leb r2 r3 = true -> group_leb r1 r3 = true.
Proof.
  rewrite !group_leb_spec.
  intros [H12|[E12 H12]] [H23|[E23 H23]].
  - left. eauto using cell_ltb_trans.
  - left. now rewrite <- E23.
  - left. now rewrite E12.
  - right. split; [congruence|eauto using cell_leb_trans].
Qed.

Lemma group_leb_antisym r1 r2 :
  group_leb r1 r2 = true -> group_leb r2 r1 = true ->
  Cleaner.group_key r1 = Cleaner.group_key r2.
Proof.
  rewrite !group_leb_spec. unfold Cleaner.group_key.
  intros [H12|[E12 H12]] [H21|[E21 H21]].
  - pose proof (cell_ltb_trans _ _ _ H12 H21) as H.
    rewrite cell_ltb_irrefl in H. discriminate.
  - rewrite E21, cell_ltb_irrefl in H12. discriminate.
  - rewrite E12, cell_ltb_irrefl in H21. discriminate.
  - f_equal; [assumption|now apply cell_leb_antisym].
Qed.

Lemma group_leb_key r r1 r2 :
  Cleaner.group_key r1 = Cleaner.group_key r2 ->
  group_leb r r1 = group_leb r r2.
Proof.
  unfold Cleaner.group_key, group_leb. now intros [= -> ->].
Qed.

#[local] Instance group_le_trans : Transitive group_le.
Proof. intros r1 r2 r3. exact (group_leb_trans r1 r2 r3). Qed.

Lemma sorted_by_group (l : table) :
  Sorted key_le l -> StronglySorted group_le l.
Proof.
  intros H. assert (Hs : Sorted group_le l).
  { induction H as [|r l _ IH Hhd]; constructor; [assumption|].
    destruct Hhd; constructor. now apply key_leb_group. }
  apply Sorted_StronglySorted; [apply group_le_trans|exact Hs].
Qed.

(** In a sorted frame the rows of one group lie together: between a row and
    a later row of its group there are only rows of that group. *)
Lemma sorted_group_contiguous r (l1 l2 : table) r' :
  StronglySorted group_le (r :: l1 ++ r' :: l2) ->
  Cleaner.group_key r' = Cleaner.group_key r ->
  Forall (fun x => Cleaner.group_key x = Cleaner.group_key r) l1.
Proof.
  intros Hs Hk. apply StronglySorted_cons in Hs as [Hr Hs].
  apply StronglySorted_app in Hs as (Hcross & _ & _).
  apply Forall_forall. intros x Hx.
  symmetry. apply group_leb_antisym.
  - rewrite Forall_forall in Hr. apply Hr. apply elem_of_app. now left.
  - rewrite <- (group_leb_key x r' r Hk). apply Hcross; [assumption|left].
Qed.

End KeyOrder.

Section Filling.
Variable config : ConsolidatorConfig.

(** The value [groupby(...).ffill()] gives a row, from the rows before it. *)
Lemma groupby_ffill_lookup before rows i r :
  rows !! i = Some r ->
  Cleaner.groupby_ffill before rows !! i
  = Some (if negb (Cleaner.grouped r) then NaN
          else if isna (Price r)
               then Cleaner.last_valid (Cleaner.group_key r)
                      (rev (take i rows) ++ before)
               else Price r).
Proof.
  revert before i. induction rows as [|r' rows IH]; intros before i Hi;
    [discriminate|].
  destruct i as [|i]; cbn in *.
  - now injection Hi as ->.
  - rewrite <- app_assoc. exact (IH (r' :: before) i Hi).
Qed.

Lemma last_valid_found k before r :
  r ∈ before -> Cleaner.group_key r = k -> isna (Price r) = false ->
  isna (Cleaner.last_valid k before) = false.
Proof.
  induction before as [|r' before IH]; intros Hin Hk Hp; [inversion Hin|].
  cbn. destruct (bool_decide (Cleaner.group_key r' = k)) eqn:Ek;
    destruct (isna (Price r')) eqn:Ep; cbn; try assumption;
    apply elem_of_cons in Hin as [->|Hin]; auto; try congruence.
  rewrite bool_decide_eq_true_2 in Ek by assumption. discriminate.
Qed.

(** [bfill] leaves a gap only where no valid value follows. *)
Lemma bfill_lookup_valid series i j c :
  series !! j = Some c -> isna c = false -> (i <= j)%nat ->
  exists c', Cleaner.bfill series !! i = Some c' /\ isna c' = false.
Proof.
  revert i j. induction series as [|x series IH]; intros i j Hj Hc Hij;
    [discriminate|].
  destruct i as [|i].
  - cbn. destruct (isna x) eqn:Ex; [|eauto].
    destruct j as [|j]; cbn in Hj; [congruence|].
    destruct (IH 0%nat j Hj Hc ltac:(lia)) as (c' & Hc' & Hna).
    destruct (Cleaner.bfill series); [discriminate|].
    cbn in *. injection Hc' as ->. eauto.
  - destruct j as [|j]; [lia|]. cbn in *. apply (IH i j); auto; lia.
Qed.

Lemma bfill_keeps_valid series :
  Forall2 (fun filled c => isna filled = true -> isna c = true)
    (Cleaner.bfill series) series.
Proof.
  induction series as [|c series IH]; cbn; constructor; [|assumption].
  destruct (isna c) eqn:E; [reflexivity|now rewrite E].
Qed.

Lemma groupby_ffill_keeps_valid before rows :
  Forall (fun r => Cleaner.grouped r = true) rows ->
  Forall2 (fun filled r => isna filled = true -> isna (Price r) = true)
    (Cleaner.groupby_ffill before rows) rows.
Proof.
  intros H. revert before. induction H as [|r rows Hr _ IH]; intros before;
    cbn; constructor; [|apply IH].
  rewrite Hr. cbn. destruct (isna (Price r)) eqn:E; [reflexivity|now rewrite E].
Qed.

Lemma na_count_le (filled series : list cell) :
  Forall2 (fun f c => isna f = true -> isna c = true) filled series ->
  (na_count filled <= na_count series)%nat.
Proof.
  induction 1 as [|f c filled series H _ IH]; cbn; [lia|].
  destruct (isna f); [rewrite H by reflexivity|destruct (isna c)]; lia.
Qed.

Lemma na_count_perm (l1 l2 : list cell) :
  Permutation l1 l2 -> na_count l1 = na_count l2.
Proof. induction 1; cbn; lia. Qed.

Lemma set_price_same r : set_price r (Price r) = r.
Proof. now destruct r. Qed.

Lemma price_assign (df : table) (prices : list cell) :
  length prices = length df ->
  Price <$> zip_with set_price df prices = prices.
Proof.
  revert prices. induction df as [|r df IH]; intros [|p prices]; cbn;
    try discriminate; [reflexivity|].
  intros [= H]. now rewrite IH.
Qed.

(** The indicator loop on one price. *)
Lemma replace_indicators_map indicators (df : table) :
  Cleaner.replace_indicators indicators df
  = List.map
      (fun r => set_price r
         (fold_left (fun p indicator => Cleaner.replace indicator p)
            indicators (Price r)))
      df.
Proof.
  unfold Cleaner.replace_indicators. revert df.
  induction indicators as [|i indicators IH]; intros df; cbn.
  - rewrite <- (List.map_id df) at 1. apply List.map_ext.
    intros r. now rewrite set_price_same.
  - rewrite IH, List.map_map. reflexivity.
Qed.

Lemma replace_fold_na indicators :
  fold_left (fun p indicator => Cleaner.replace indicator p) indicators NaN
  = NaN.
Proof. induction indicators; cbn; auto. Qed.

Lemma replace_fold_missing indicators p :
  isna (fold_left (fun p indicator => Cleaner.replace indicator p)
          indicators p)
  = isna p || bool_decide (p ∈ (Str <$> indicators)).
Proof.
  revert p. induction indicators as [|i indicators IH]; intros p; cbn.
  - rewrite bool_decide_eq_false_2 by apply not_elem_of_nil.
    now rewrite orb_false_r.
  - unfold Cleaner.replace at 2. case_bool_decide as E.
    + subst p. rewrite replace_fold_na. cbn.
      rewrite bool_decide_eq_true_2 by left. reflexivity.
    + rewrite IH. f_equal. apply bool_decide_ext.
      rewrite elem_of_cons. tauto.
Qed.

Lemma replace_fold_valid indicators p :
  isna p || bool_decide (p ∈ (Str <$> indicators)) = false ->
  fold_left (fun p indicator => Cleaner.replace indicator p) indicators p = p.
Proof.
  revert p. induction indicators as [|i indicators IH]; intros p; cbn; [auto|].
  intros H. apply orb_false_iff in H as [Hna Hin].
  apply bool_decide_eq_false in Hin. rewrite not_elem_of_cons in Hin.
  unfold Cleaner.replace at 2. rewrite bool_decide_eq_false_2 by tauto.
  apply IH. rewrite Hna. cbn. apply bool_decide_eq_false. tauto.
Qed.

Lemma replace_indicators_missing_count (df : table) :
  na_count (Price <$> Cleaner.replace_indicators
                        (missing_value_indicators config) df)
  = missing_count config (Price <$> df).
Proof.
  rewrite replace_indicators_map.
  induction df as [|r df IH]; cbn; [reflexivity|].
  rewrite replace_fold_missing. unfold missing at 1.
  f_equal. exact IH.
Qed.

Lemma replace_indicators_valid (df : table) r :
  r ∈ df -> missing config (Price r) = false ->
  r ∈ Cleaner.replace_indicators (missing_value_indicators config) df.
Proof.
  intros Hin Hvalid. rewrite replace_indicators_map.
  apply list_elem_of_In, in_map_iff. exists r.
  split; [|now apply list_elem_of_In].
  rewrite replace_fold_valid by exact Hvalid. apply set_price_same.
Qed.

End Filling.

Section Filled.
Variable config : ConsolidatorConfig.

(** X22: a group with at least one price of its own has no missing price
    left after [handle_missing_values] (rows that belong to a group: their
    City and Commodity are present). *)
Lemma handle_missing_values_fills_groups (df : table) (r : row) :
  r ∈ Cleaner.handle_missing_values config df ->
  Cleaner.grouped r = true ->
  (exists r', r' ∈ df /\ Cleaner.group_key r' = Cleaner.group_key r
              /\ missing config (Price r') = false) ->
  isna (Price r) = false.
Proof.
  unfold Cleaner.handle_missing_values.
  set (sorted := Cleaner.sort_values (Cleaner.replace_indicators _ df)).
  intros Hr Hgrouped (r' & Hr' & Hkey & Hvalid).
  apply list_elem_of_lookup in Hr as [i Hi].
  apply lookup_zip_with_Some in Hi as (r0 & p & -> & Hr0 & Hp).
  cbn in *.
  assert (Hna' : isna (Price r') = false).
  { unfold missing in Hvalid. now apply orb_false_iff in Hvalid as [-> _]. }
  assert (Hin : r' ∈ sorted).
  { unfold sorted. rewrite sort_values_perm.
    now apply replace_indicators_valid. }
  apply list_elem_of_lookup in Hin as [j Hj].
  assert (Hg' : Cleaner.grouped r' = true).
  { unfold Cleaner.grouped, Cleaner.group_key in *. cbn in *.
    now injection Hkey as -> ->. }
  assert (Hfilled : exists k c, (i <= k)%nat
            /\ Cleaner.groupby_ffill [] sorted !! k = Some c
            /\ isna c = false).
  { destruct (le_lt_dec i j) as [Hij|Hji].
    - exists j, (Price r'). split; [assumption|]. split; [|assumption].
      rewrite (groupby_ffill_lookup _ _ _ _ Hj), Hg', Hna'. reflexivity.
    - eexists i, _. split; [lia|].
      split; [apply (groupby_ffill_lookup _ _ _ _ Hr0)|].
      unfold Cleaner.grouped, Cleaner.group_key in *. cbn in *.
      rewrite Hgrouped. cbn. destruct (isna (Price r0)) eqn:E; [|assumption].
      apply (last_valid_found _ _ r'); [|assumption|assumption].
      rewrite app_nil_r, list_elem_of_In, <- in_rev, <- list_elem_of_In.
      apply elem_of_take. eauto. }
  destruct Hfilled as (k & c & Hik & Hk & Hc).
  destruct (bfill_lookup_valid _ i k c Hk Hc Hik) as (c' & Hc' & Hna).
  congruence.
Qed.

(** X23: when every row belongs to a group, no more prices are missing
    after [handle_missing_values] than were missing (absent or an indicator
    text) before. *)
Lemma handle_missing_values_missing_count (df : table) :
  Forall (fun r => Cleaner.grouped r = true) df ->
  (na_count (Price <$> Cleaner.handle_missing_values config df)
   <= missing_count config (Price <$> df))%nat.
Proof.
  intros Hgrouped. unfold Cleaner.handle_missing_values.
  set (replaced := Cleaner.replace_indicators _ df).
  set (sorted := Cleaner.sort_values replaced).
  assert (Hperm : Permutation sorted replaced) by apply sort_values_perm.
  assert (Hg : Forall (fun r => Cleaner.grouped r = true) sorted).
  { rewrite Hperm. unfold replaced. rewrite replace_indicators_map.
    apply Forall_forall. intros r Hr.
    apply list_elem_of_In, in_map_iff in Hr as (r0 & <- & Hr0).
    rewrite Forall_forall in Hgrouped. apply (Hgrouped r0).
    now apply list_elem_of_In. }
  rewrite price_assign by now rewrite bfill_length, groupby_ffill_length.
  rewrite <- replace_indicators_missing_count. fold replaced.
  rewrite <- (na_count_perm (Price <$> sorted) (Price <$> replaced))
    by now apply fmap_Permutation.
  etrans; [apply na_count_le, bfill_keeps_valid|].
  apply na_count_le.
  pose proof (groupby_ffill_keeps_valid [] sorted Hg) as H.
  clear -H. induction H; cbn; constructor; assumption.
Qed.

End Filled.

(** *** Where the code and the group-wise filling agree *)

Section Agreement.
Variable config : ConsolidatorConfig.

Lemma last_valid_nearest k rows :
  Cleaner.last_valid k rows = nearest_valid k rows.
Proof. induction rows as [|r rows IH]; cbn; [reflexivity|now rewrite IH]. Qed.

Lemma bfill_hd series : List.hd NaN (Cleaner.bfill series) = first_valid series.
Proof.
  induction series as [|c series IH]; cbn; [reflexivity|].
  now destruct (isna c).
Qed.

Lemma bfill_lookup series i c :
  series !! i = Some c ->
  Cleaner.bfill series !! i
  = Some (if isna c then first_valid (drop (S i) series) else c).
Proof.
  revert i. induction series as [|x series IH]; intros i Hi; [discriminate|].
  destruct i as [|i]; cbn in *.
  - injection Hi as ->. now rewrite bfill_hd.
  - now apply IH.
Qed.

Lemma groupby_ffill_drop n before rows :
  drop n (Cleaner.groupby_ffill before rows)
  = Cleaner.groupby_ffill (rev (take n rows) ++ before) (drop n rows).
Proof.
  revert before rows. induction n as [|n IH]; intros before rows;
    [reflexivity|].
  destruct rows as [|r rows]; [reflexivity|].
  cbn. rewrite IH, <- app_assoc. reflexivity.
Qed.

Lemma fill_within_groups_lookup before rows i r :
  rows !! i = Some r ->
  fill_within_groups before rows !! i
  = Some (if negb (Cleaner.grouped r) then NaN
          else if isna (Price r) then
            if isna (nearest_valid (Cleaner.group_key r)
                       (rev (take i rows) ++ before))
            then nearest_valid (Cleaner.group_key r) (drop (S i) rows)
            else nearest_valid (Cleaner.group_key r)
                   (rev (take i rows) ++ before)
          else Price r).
Proof.
  revert before i. induction rows as [|r' rows IH]; intros before i Hi;
    [discriminate|].
  destruct i as [|i]; cbn in *.
  - now injection Hi as ->.
  - rewrite <- app_assoc. exact (IH (r' :: before) i Hi).
Qed.

Lemma fill_within_groups_length before rows :
  length (fill_within_groups before rows) = length rows.
Proof.
  revert before. induction rows as [|r rows IH]; intros before; cbn;
    [reflexivity|now rewrite IH].
Qed.

(** Past a row of group [k] with nothing to carry forward, the first value
    the forward-filled column offers is the group's own next price, as long
    as the group has one and its rows lie together. *)
Lemma first_valid_of_group k before rest :
  isna k.1 = false -> isna k.2 = false ->
  nearest_valid k before = NaN ->
  (exists r', r' ∈ rest /\ Cleaner.group_key r' = k /\ isna (Price r') = false) ->
  (forall l1 r' l2, rest = l1 ++ r' :: l2 -> Cleaner.group_key r' = k ->
     Forall (fun x => Cleaner.group_key x = k) l1) ->
  first_valid (Cleaner.groupby_ffill before rest) = nearest_valid k rest.
Proof.
  intros Hk1 Hk2. revert before.
  induction rest as [|r rest IH]; intros before Hprior (r' & Hin & Hkey & Hp) Hcont.
  { inversion Hin. }
  assert (Hr : Cleaner.group_key r = k).
  { apply elem_of_cons in Hin as [<-|Hin]; [assumption|].
    apply list_elem_of_lookup in Hin as [j Hj].
    pose proof (take_drop_middle rest j r' Hj) as Hsplit.
    specialize (Hcont (r :: take j rest) r' (drop (S j) rest)).
    cbn in Hcont. rewrite Hsplit in Hcont.
    specialize (Hcont eq_refl Hkey). now inversion Hcont. }
  assert (Hg : Cleaner.grouped r = true).
  { unfold Cleaner.grouped. rewrite <- Hr in Hk1, Hk2.
    cbn in Hk1, Hk2. now rewrite Hk1, Hk2. }
  cbn. rewrite Hg, Hr, bool_decide_eq_true_2 by reflexivity. cbn.
  destruct (isna (Price r)) eqn:Ep; cbn.
  - rewrite last_valid_nearest, Hprior. cbn.
    apply IH.
    + cbn. rewrite Hr, bool_decide_eq_true_2, Ep by reflexivity. cbn.
      exact Hprior.
    + exists r'. apply elem_of_cons in Hin as [->|Hin]; [congruence|auto].
    + intros l1 x l2 -> Hx.
      specialize (Hcont (r :: l1) x l2 eq_refl Hx). now inversion Hcont.
  - now rewrite Ep.
Qed.

(** X24: on a frame all of whose rows belong to a group, every group having
    at least one price of its own, [handle_missing_values] fills exactly as
    the group-wise forward-then-backward fill does. *)
Lemma handle_missing_values_agrees (df : table) :
  Forall (fun r => Cleaner.grouped r = true) df ->
  (forall r, r ∈ df ->
     exists r', r' ∈ df /\ Cleaner.group_key r' = Cleaner.group_key r
                /\ missing config (Price r') = false) ->
  Cleaner.handle_missing_values config df
  = handle_missing_values_within_groups config df.
Proof.
  intros Hgrouped Hvalued.
  unfold Cleaner.handle_missing_values, handle_missing_values_within_groups.
  set (replaced := Cleaner.replace_indicators _ df).
  set (sorted := Cleaner.sort_values replaced).
  assert (Hperm : Permutation sorted replaced) by apply sort_values_perm.
  assert (Hrows : forall r, r ∈ sorted ->
            exists r0, r0 ∈ df /\ Cleaner.group_key r0 = Cleaner.group_key r).
  { intros r Hr. rewrite Hperm in Hr. unfold replaced in Hr.
    rewrite replace_indicators_map in Hr.
    apply list_elem_of_In, in_map_iff in Hr as (r0 & <- & Hr0).
    exists r0. split; [now apply list_elem_of_In|reflexivity]. }
  assert (Hg : forall r, r ∈ sorted -> Cleaner.grouped r = true).
  { intros r Hr. destruct (Hrows r Hr) as (r0 & Hr0 & Hk).
    rewrite Forall_forall in Hgrouped. specialize (Hgrouped r0 Hr0).
    unfold Cleaner.grouped, Cleaner.group_key in *.
    injection Hk as <- <-. exact Hgrouped. }
  assert (Hv : forall r, r ∈ sorted ->
            exists r', r' ∈ sorted
                       /\ Cleaner.group_key r' = Cleaner.group_key r
                       /\ isna (Price r') = false).
  { intros r Hr. destruct (Hrows r Hr) as (r0 & Hr0 & Hk).
    destruct (Hvalued r0 Hr0) as (r' & Hr' & Hk' & Hm).
    exists r'. split; [|split; [congruence|]].
    - rewrite Hperm. now apply replace_indicators_valid.
    - unfold missing in Hm. now apply orb_false_iff in Hm as [-> _]. }
  pose proof (sorted_by_group sorted (sort_values_sorted replaced)) as Hsorted.
  f_equal. apply list_eq. intros i.
  destruct (sorted !! i) as [r|] eqn:Hi.
  2:{ apply lookup_ge_None in Hi.
      rewrite (proj2 (lookup_ge_None _ i)),
              (proj2 (lookup_ge_None (fill_within_groups [] sorted) i));
        [reflexivity| |].
      - now rewrite fill_within_groups_length.
      - now rewrite bfill_length, groupby_ffill_length. }
  assert (Hin : r ∈ sorted) by (apply list_elem_of_lookup; eauto).
  rewrite (fill_within_groups_lookup [] sorted i r Hi).
  rewrite (bfill_lookup _ i _ (groupby_ffill_lookup [] sorted i r Hi)).
  rewrite (Hg r Hin). cbn [negb]. f_equal.
  destruct (isna (Price r)) eqn:Ep; [|now rewrite Ep].
  rewrite last_valid_nearest.
  destruct (isna (nearest_valid _ (rev (take i sorted) ++ []))) eqn:Eprior;
    [|reflexivity].
  rewrite groupby_ffill_drop, app_nil_r.
  rewrite app_nil_r in Eprior.
  assert (Hk : isna (Cleaner.group_key r).1 = false
               /\ isna (Cleaner.group_key r).2 = false).
  { pose proof (Hg r Hin) as H. unfold Cleaner.grouped in H. cbn.
    apply andb_true_iff in H as [H1 H2].
    now rewrite negb_true_iff in H1, H2. }
  destruct Hk as [Hk1 Hk2].
  apply first_valid_of_group; try assumption.
  - rewrite (take_S_r sorted i r Hi), rev_app_distr. cbn.
    rewrite bool_decide_eq_true_2, Ep by reflexivity. cbn.
    now destruct (nearest_valid _ (rev (take i sorted))).
  - destruct (Hv r Hin) as (r' & Hr' & Hk' & Hp').
    exists r'. split; [|split; assumption].
    apply list_elem_of_lookup in Hr' as [j Hj].
    destruct (lt_eq_lt_dec j i) as [[Hlt| ->]|Hgt].
    + exfalso.
      assert (Hfound : isna (Cleaner.last_valid (Cleaner.group_key r)
                               (rev (take i sorted))) = false).
      { apply (last_valid_found _ _ r'); [|assumption|assumption].
        rewrite list_elem_of_In, <- in_rev, <- list_elem_of_In.
        apply elem_of_take. eauto. }
      rewrite last_valid_nearest in Hfound. congruence.
    + pose proof (eq_trans (eq_sym Hi) Hj) as [= <-]. congruence.
    + apply list_elem_of_lookup. exists (j - S i)%nat.
      rewrite lookup_drop. now replace (S i + (j - S i))%nat with j by lia.
  - intros l1 x l2 Hsplit Hx.
    apply (sorted_group_contiguous r l1 l2 x); [|assumption].
    rewrite <- Hsplit, <- (drop_S sorted r i Hi).
    rewrite <- (take_drop i sorted) in Hsorted.
    now apply StronglySorted_app in Hsorted as (_ & _ & Hs).
Qed.

End Agreement.

(** C1 (at the input where the code departs from it): every price of the
    Beras group is missing, so filling within the group leaves the group
    missing; the code's backward fill runs over the whole sorted column and
    gives both Beras rows the price of the Telur Ayam group behind them.
    (On frames whose groups all have a price the two agree:
    [handle_missing_values_agrees].) *)
Theorem handle_missing_values_fills_across_groups :
  (forall r, r ∈ leak_table -> Commodity r = Str "Beras" ->
             missing default_config (Price r) = true)
  /\ handle_missing_values_within_groups default_config leak_table
     = [ mkrow (Str "Beras") (Str "kota-pontianak") (Str "15/ 01/ 2024") NaN;
         mkrow (Str "Beras") (Str "kota-pontianak") (Str "15/ 02/ 2024") NaN;
         mkrow (Str "Telur Ayam") (Str "kota-pontianak") (Str "15/ 01/ 2024")
           (Num 25000) ]
  /\ Cleaner.handle_missing_values default_config leak_table
     = [ mkrow (Str "Beras") (Str "kota-pontianak") (Str "15/ 01/ 2024")
           (Num 25000);
         mkrow (Str "Beras") (Str "kota-pontianak") (Str "15/ 02/ 2024")
           (Num 25000);
         mkrow (Str "Telur Ayam") (Str "kota-pontianak") (Str "15/ 01/ 2024")
           (Num 25000) ].
Proof.
  split; [|split; reflexivity].
  intros r Hr Hc. unfold leak_table in Hr.
  repeat (apply elem_of_cons in Hr as [->|Hr]); try reflexivity;
    try discriminate Hc.
  inversion Hr.
Qed.

(** ** Cleaner: price conversion *)

Lemma list_ascii_of_string_app s1 s2 :
  list_ascii_of_string (s1 +:+ s2)
  = list_ascii_of_string s1 ++ list_ascii_of_string s2.
Proof.
  induction s1 as [|a s1 IH]; cbn; [reflexivity|].
  rewrite <- IH. reflexivity.
Qed.

Lemma lookup_map {A B} (f : A -> B) (l : list A) i a :
  l !! i = Some a -> List.map f l !! i = Some (f a).
Proof.
  revert i. induction l as [|a' l IH]; intros [|i]; cbn; try discriminate.
  - now intros [= ->].
  - apply IH.
Qed.

Section PriceConversion.
Import Text.

Lemma decimal_char_plain a :
  decimal_char a ->
  is_cspace a = false /\ Ascii.eqb a ","%char = false
  /\ Ascii.eqb a "+"%char = false.
Proof.
  intros [H| ->]; [|repeat split].
  revert H. destruct a as [[] [] [] [] [] [] [] []]; vm_compute;
    intros; try discriminate; repeat split.
Qed.

Lemma string_of_uint_chars d :
  Forall decimal_char (list_ascii_of_string (NilEmpty.string_of_uint d)).
Proof.
  induction d; cbn; constructor; try assumption; left; reflexivity.
Qed.

Lemma str_of_Z_chars z :
  Forall decimal_char (list_ascii_of_string (str_of_Z z)).
Proof.
  unfold str_of_Z, NilZero.string_of_int, NilZero.string_of_uint.
  destruct (Z.to_int z) as [d|d]; [|cbn; constructor; [now right|]];
    (destruct d; [repeat constructor; left; reflexivity
                 |apply string_of_uint_chars ..]).
Qed.



























Lemma value_typed float read :
  value float read = NaN \/ exists z, value float read = Num z.
Proof. destruct read as [[z|z]|]; cbn; eauto. Qed.




Lemma clean_and_convert_price_typed series :
  Forall (fun c => c = NaN \/ exists z, c = Num z)
    (Cleaner._clean_and_convert_price series).
Proof.
  unfold Cleaner._clean_and_convert_price, to_numeric.
  apply Forall_forall. intros c Hc.
  apply list_elem_of_In, in_map_iff in Hc as (read & <- & _).
  apply value_typed.
Qed.


End PriceConversion.




Example price_conversion_coerces :
  Cleaner._clean_and_convert_price
    [Str "1,250,000"; Str "-"; Str "abc"; NaN; Str " 12,500 "; Num 9000]
  = [Num 1250000; NaN; NaN; NaN; Num 12500; Num 9000].
Proof. reflexivity. Qed.

(** One type for the whole series: beside a missing value, which only
    float64 holds, an integer beyond [2 ^ 53] is rounded; alone it is kept. *)
Example price_conversion_types_series :
  Cleaner._clean_and_convert_price [Str "9007199254740993"]
  = [Num 9007199254740993]
  /\ Cleaner._clean_and_convert_price [Str "9007199254740993"; Str "-"]
     = [Num 9007199254740992; NaN].
Proof. split; vm_compute; reflexivity. Qed.

(** ** Cleaner: date conversion *)

Section DateConversion.
Import Chars Strptime.

Lemma digit_not_space_slash a d :
  digit_of a = Some d ->
  is_space a = false /\ Ascii.eqb a "/"%char = false.
Proof.
  destruct a as [[] [] [] [] [] [] [] []]; vm_compute; intros;
    try discriminate; split; reflexivity.
Qed.

Lemma space_not_slash a :
  is_space a = true -> Ascii.eqb a "/"%char = false.
Proof.
  destruct a as [[] [] [] [] [] [] [] []]; vm_compute; intros;
    try discriminate; reflexivity.
Qed.

Lemma break_slash_app before after :
  Forall (fun a => Ascii.eqb a "/"%char = false) before ->
  break_slash (before ++ "/"%char :: after) = Some (before, after).
Proof.
  induction 1 as [|a l Ha _ IH]; cbn; [reflexivity|].
  rewrite Ha, IH. reflexivity.
Qed.

Lemma break_slash_inv l before after :
  break_slash l = Some (before, after) ->
  l = before ++ "/"%char :: after.
Proof.
  revert before. induction l as [|a l IH]; intros before; cbn; [discriminate|].
  destruct (Ascii.eqb_spec a "/"%char) as [->|_].
  - now intros [= <- <-].
  - destruct (break_slash l) as [[b a']|]; cbn; [|discriminate].
    intros [= <- <-]. cbn. f_equal. now apply IH.
Qed.

Lemma lstrip_app ws rest :
  Forall (fun a => is_space a = true) ws ->
  lstrip rest = rest ->
  lstrip (ws ++ rest) = rest.
Proof. induction 1 as [|a l Ha _ IH]; cbn; [auto|]. now rewrite Ha. Qed.

Lemma lstrip_inv l :
  exists ws, l = ws ++ lstrip l /\ Forall (fun a => is_space a = true) ws.
Proof.
  induction l as [|a l (ws & Hl & Hws)]; cbn; [now exists []|].
  destruct (is_space a) eqn:E.
  - exists (a :: ws). split; [cbn; congruence|now constructor].
  - now exists [].
Qed.

Lemma skip_blank_app ws rest :
  blank ws -> lstrip rest = rest -> skip_blank (ws ++ rest) = Some rest.
Proof.
  intros [Hne Hws] Hrest. destruct Hws as [|a ws Ha Hws]; [congruence|].
  cbn. rewrite Ha. f_equal. now apply lstrip_app.
Qed.

Lemma skip_blank_inv l rest :
  skip_blank l = Some rest -> exists ws, blank ws /\ l = ws ++ rest.
Proof.
  destruct l as [|a l]; cbn; [discriminate|].
  destruct (is_space a) eqn:E; [|discriminate]. intros [= <-].
  destruct (lstrip_inv l) as (ws & Hl & Hws).
  exists (a :: ws). split; [split; [discriminate|now constructor]|].
  cbn. congruence.
Qed.

Lemma lstrip_head_digit a d l :
  digit_of a = Some d -> lstrip (a :: l) = a :: l.
Proof.
  intros H. cbn. now destruct (digit_not_space_slash a d H) as [-> _].
Qed.

Lemma day_of_no_slash l v :
  day_of l = Some v -> Forall (fun a => Ascii.eqb a "/"%char = false) l.
Proof.
  destruct l as [|a [|b [|c l]]]; cbn; try discriminate.
  - destruct (digit_of a) eqn:Ea; cbn; [|discriminate]. intros _.
    repeat constructor. eapply digit_not_space_slash; eauto.
  - destruct (digit_of a) eqn:Ea, (digit_of b) eqn:Eb; try discriminate.
    + intros _. repeat constructor; eapply digit_not_space_slash; eauto.
    + destruct (Ascii.eqb_spec a " "%char) as [->|]; [|discriminate].
      intros _. repeat constructor. eapply digit_not_space_slash; eauto.
Qed.

Lemma month_of_shape l v :
  month_of l = Some v ->
  Forall (fun a => Ascii.eqb a "/"%char = false) l
  /\ forall rest, lstrip (l ++ rest) = l ++ rest.
Proof.
  destruct l as [|a [|b [|c l]]]; cbn [month_of]; try discriminate;
    destruct (digit_of a) eqn:Ea; cbn [mbind option_bind]; try discriminate.
  - intros _. split.
    + repeat constructor. eapply digit_not_space_slash; eauto.
    + intros rest. eapply lstrip_head_digit; eauto.
  - destruct (digit_of b) eqn:Eb; cbn [mbind option_bind]; [|discriminate].
    intros _. split.
    + repeat constructor; eapply digit_not_space_slash; eauto.
    + intros rest. eapply lstrip_head_digit; eauto.
Qed.

Lemma year_of_shape l v : year_of l = Some v -> lstrip l = l.
Proof.
  destruct l as [|a l]; [discriminate|].
  destruct l as [|b [|c [|d [|e l]]]]; cbn [year_of]; try discriminate.
  destruct (digit_of a) eqn:Ea; cbn [mbind option_bind]; [|discriminate].
  intros _. eapply lstrip_head_digit; eauto.
Qed.

(** The reader accepts exactly the texts of the declared shape that name a
    day of the calendar. *)
Lemma strptime_spec l d :
  strptime l = Some d <-> reads_as l d /\ valid_date d = true.
Proof.
  split.
  - unfold strptime.
    destruct (break_slash l) as [[day_text l1]|] eqn:E1; cbn; [|discriminate].
    destruct (day_of day_text) as [dd|] eqn:Ed; cbn; [|discriminate].
    destruct (skip_blank l1) as [l2|] eqn:E2; cbn; [|discriminate].
    destruct (break_slash l2) as [[month_text l3]|] eqn:E3; cbn;
      [|discriminate].
    destruct (month_of month_text) as [mm|] eqn:Em; cbn; [|discriminate].
    destruct (skip_blank l3) as [l4|] eqn:E4; cbn; [|discriminate].
    destruct (year_of l4) as [yy|] eqn:Ey; cbn; [|discriminate].
    destruct (valid_date _) eqn:Ev; cbn; [|discriminate].
    intros [= <-]. split; [|assumption].
    apply break_slash_inv in E1, E3.
    apply skip_blank_inv in E2 as (ws1 & Hws1 & ->).
    apply skip_blank_inv in E4 as (ws2 & Hws2 & ->).
    exists day_text, ws1, month_text, ws2, l4. cbn.
    repeat split; try assumption; try apply Hws1; try apply Hws2.
    rewrite E1, E3. reflexivity.
  - intros [(day_text & ws1 & month_text & ws2 & year_text
             & -> & Hd & Hws1 & Hm & Hws2 & Hy) Hv].
    unfold strptime.
    rewrite break_slash_app by (eapply day_of_no_slash; eauto). cbn.
    rewrite Hd. cbn.
    destruct (month_of_shape _ _ Hm) as [Hslash Hstrip].
    rewrite skip_blank_app by (auto using Hstrip). cbn.
    rewrite break_slash_app by assumption. cbn. rewrite Hm. cbn.
    rewrite skip_blank_app by (eauto using year_of_shape). cbn.
    rewrite Hy. cbn. destruct d as [y m dd]. cbn in *.
    now rewrite Hv.
Qed.

End DateConversion.

(** C5 (as amended): the date conversion never fails and returns, cell for
    cell, a timestamp or the missing value.  In any series, a text other
    than the words ["now"] and ["today"] becomes the timestamp of the day
    [d] exactly when it is a day (one or two digits, or one space and a
    digit), a slash, one or more whitespace characters, a month of one or
    two digits, a slash, one or more whitespace characters and a year of
    four digits, and these name the day [d] of the calendar; every other
    such text becomes missing.  In particular ["15/ 01/ 2024"] is 15
    January 2024, [" 5/ 01/ 2024"] is 5 January 2024 and ["15/01/2024"] is
    missing. *)
Theorem clean_and_convert_date_format (series : list cell) :
  length (Cleaner._clean_and_convert_date series) = length series
  /\ Forall (fun c => c = NaN \/ exists d, c = Ts d)
       (Cleaner._clean_and_convert_date series)
  /\ (forall i s d,
        series !! i = Some (Str s) -> ~ clock_word s ->
        Cleaner._clean_and_convert_date series !! i = Some (Ts d) <->
        reads_as (list_ascii_of_string s) d /\ Strptime.valid_date d = true)
  /\ (forall i s,
        series !! i = Some (Str s) -> ~ clock_word s ->
        ~ (exists d, reads_as (list_ascii_of_string s) d
                     /\ Strptime.valid_date d = true) ->
        Cleaner._clean_and_convert_date series !! i = Some NaN)
  /\ (forall i,
        series !! i = Some (Str "15/ 01/ 2024") ->
        Cleaner._clean_and_convert_date series !! i
        = Some (Ts (mkdate 2024 1 15)))
  /\ (forall i,
        series !! i = Some (Str " 5/ 01/ 2024") ->
        Cleaner._clean_and_convert_date series !! i
        = Some (Ts (mkdate 2024 1 5)))
  /\ (forall i,
        series !! i = Some (Str "15/01/2024") ->
        Cleaner._clean_and_convert_date series !! i = Some NaN).
Proof.
  unfold Cleaner._clean_and_convert_date.
  assert (Hcell : forall i s, series !! i = Some (Str s) ->
            List.map Strptime.to_datetime series !! i
            = Some (match Strptime.strptime (list_ascii_of_string s) with
                    | Some d => Ts d
                    | None => NaN
                    end)).
  { intros i s Hi. apply (lookup_map Strptime.to_datetime _ _ _ Hi). }
  split; [|split; [|split; [|split; [|split; [|split]]]]].
  - apply length_map.
  - apply Forall_forall. intros c Hc. apply list_elem_of_In, in_map_iff in Hc.
    destruct Hc as ([z|s|d|] & <- & _); cbn; eauto;
      destruct (Strptime.strptime _); eauto.
  - intros i s d Hi _. rewrite <- strptime_spec, (Hcell i s Hi).
    destruct (Strptime.strptime (list_ascii_of_string s)) as [d'|];
      split; intros [= ->]; reflexivity.
  - intros i s Hi _ H. rewrite (Hcell i s Hi).
    destruct (Strptime.strptime (list_ascii_of_string s)) as [d|] eqn:E;
      [|reflexivity].
    exfalso. apply H. exists d. now apply strptime_spec.
  - intros i Hi. now rewrite (Hcell i _ Hi).
  - intros i Hi. now rewrite (Hcell i _ Hi).
  - intros i Hi. now rewrite (Hcell i _ Hi).
Qed.

Lemma clean_and_convert_date_format_witness :
  (reads_as (list_ascii_of_string "15/ 01/ 2024") (mkdate 2024 1 15)
   /\ Strptime.valid_date (mkdate 2024 1 15) = true)
  /\ Cleaner._clean_and_convert_date
       [Str "15/01/2024"; Str "15/ 01/ 2024"; Str " 5/ 01/ 2024"]
     = [NaN; Ts (mkdate 2024 1 15); Ts (mkdate 2024 1 5)].
Proof.
  assert (H : reads_as (list_ascii_of_string "15/ 01/ 2024") (mkdate 2024 1 15)
              /\ Strptime.valid_date (mkdate 2024 1 15) = true).
  { split; [|reflexivity].
    exists (list_ascii_of_string "15"), (list_ascii_of_string " "),
      (list_ascii_of_string "01"), (list_ascii_of_string " "),
      (list_ascii_of_string "2024").
    repeat split; try reflexivity; try discriminate;
      repeat constructor. }
  split; [exact H|].
  set (series := [Str "15/01/2024"; Str "15/ 01/ 2024"; Str " 5/ 01/ 2024"]).
  destruct (clean_and_convert_date_format series)
    as (Hlen & Htyped & Hiff & _ & _ & Hblank & Hplain).
  apply list_eq. intros [|[|[|i]]].
  - apply (Hplain 0%nat). reflexivity.
  - apply (Hiff 1%nat "15/ 01/ 2024" (mkdate 2024 1 15));
      [reflexivity|intros [E|E]; discriminate E|exact H].
  - apply (Hblank 2%nat). reflexivity.
  - apply lookup_ge_None. rewrite Hlen. cbn. lia.
Defined.

(** C5 (as stated) fails: the separator need not be a slash and exactly one
    space.  With two spaces after the first slash the text is not in the
    literal format, and it is read as 15 January 2024 all the same. *)
Lemma date_conversion_accepts_wider_blank :
  literal_format (list_ascii_of_string "15/ 01/ 2024") = true
  /\ literal_format (list_ascii_of_string "15/  01/ 2024") = false
  /\ Cleaner._clean_and_convert_date [Str "15/  01/ 2024"]
     = [Ts (mkdate 2024 1 15)]
  /\ ~ (forall s d,
          Cleaner._clean_and_convert_date [Str s] = [Ts d] ->
          literal_format (list_ascii_of_string s) = true).
Proof.
  split; [reflexivity|]. split; [reflexivity|]. split; [reflexivity|].
  intros H. specialize (H "15/  01/ 2024" (mkdate 2024 1 15) eq_refl).
  discriminate H.
Qed.

(** ** Consolidator *)

Section Consolidation.
Variable config : ConsolidatorConfig.
Variable world : World.
Variable targets : list string.

Let process := Consolidator._process_single_file config world targets.

Lemma process_loop_from (files : list Path) (kept : list table) :
  fold_left
    (fun processed_dataframes file_path =>
       match process file_path with
       | Some processed_df => processed_dataframes ++ [processed_df]
       | None => processed_dataframes
       end)
    files kept
  = kept ++ omap process files.
Proof.
  revert kept. induction files as [|f files IH]; intros kept; cbn.
  - now rewrite app_nil_r.
  - rewrite IH. destruct (process f); [|reflexivity].
    now rewrite <- app_assoc.
Qed.

Lemma process_loop_omap files :
  Consolidator.process_loop config world targets files = omap process files.
Proof. apply (process_loop_from files []). Qed.

Lemma file_fails_skipped file_path :
  file_fails config world targets file_path -> process file_path = None.
Proof.
  unfold process, Consolidator._process_single_file, Loader.load_excel_file.
  intros [[e ->]|[(df & -> & Hv)|[(df & wide & long & -> & Hc & Ht & Hf)
                                 |(df & e & -> & Hp)]]]; cbn [catch];
    [reflexivity| | |].
  - destruct (Validator.validate_dataframe config df file_path) as [ok issues].
    cbn in Hv. subst ok. reflexivity.
  - destruct (Validator.validate_dataframe config df file_path) as [[] issues];
      [|reflexivity].
    cbn [negb]. unfold Consolidator.process_valid.
    rewrite Hc. cbn [mbind result_bind]. rewrite Ht. cbn [mbind result_bind].
    rewrite Hf. reflexivity.
  - destruct (Validator.validate_dataframe config df file_path) as [[] issues];
      [|reflexivity].
    cbn [negb]. now rewrite Hp.
Qed.

Lemma consolidate_data_discovered root files :
  Loader.find_excel_files config world root = Ok files ->
  Consolidator.consolidate_data config world targets root
  = Ok (concat (omap process files)).
Proof.
  intros H. unfold Consolidator.consolidate_data. rewrite H. cbn.
  rewrite process_loop_omap. fold process.
  case_bool_decide as E; [now rewrite E|reflexivity].
Qed.

(** C6: once the files are discovered, a file that fails (it does not load,
    it does not validate, or nothing of it is left after the commodity
    filter) contributes nothing and stops nothing: the result is the
    concatenation, in order, of what the other files yield, the same as if
    the failing file had not been listed; and when no file yields anything
    the result is the empty table, not an error. *)
Theorem consolidate_data_skips_failures (root : Path) (files : list Path) :
  Loader.find_excel_files config world root = Ok files ->
  (forall f, file_fails config world targets f -> process f = None)
  /\ Consolidator.consolidate_data config world targets root
     = Ok (concat (omap process files))
  /\ (forall before f after,
        files = before ++ f :: after -> process f = None ->
        Consolidator.consolidate_data config world targets root
        = Ok (concat (omap process (before ++ after))))
  /\ ((forall f, f ∈ files -> process f = None) ->
      Consolidator.consolidate_data config world targets root = Ok []).
Proof.
  intros H. pose proof (consolidate_data_discovered root files H) as Hrun.
  split; [apply file_fails_skipped|]. split; [exact Hrun|]. split.
  - intros before f after -> Hf. rewrite Hrun.
    rewrite !omap_app. cbn. now rewrite Hf.
  - intros Hall. rewrite Hrun. f_equal.
    replace (omap process files) with (@nil table); [reflexivity|].
    clear H Hrun. induction files as [|f fs IH]; [reflexivity|].
    cbn. rewrite Hall by left. apply IH. intros; apply Hall. now right.
Qed.

End Consolidation.

Lemma consolidate_data_skips_failures_witness :
  Loader.find_excel_files default_config sample_world ["data"]
  = Ok (rglob sample_world ["data"] "*.xlsx")
  /\ Consolidator.consolidate_data default_config sample_world
       (target_commodities default_config) ["data"]
     = Ok sample_master.
Proof.
  assert (H : Loader.find_excel_files default_config sample_world ["data"]
              = Ok (rglob sample_world ["data"] "*.xlsx")) by reflexivity.
  split; [exact H|].
  destruct (consolidate_data_skips_failures default_config sample_world
              (target_commodities default_config) ["data"] _ H)
    as (_ & Hrun & _).
  rewrite Hrun. reflexivity.
Defined.

Section Saving.
Variable config : ConsolidatorConfig.
Variable world : World.

(** C7 (as amended): an empty table is refused, with both formats reported
    as not written and nothing asked of the file system.  For any other
    table, once the output directory, if one is given, has been created,
    both writes are requested, the spreadsheet after the CSV file whatever
    became of the CSV file, and the returned dictionary has exactly the two
    entries, each telling whether its own write succeeded. *)
Theorem save_data_formats_independent
    (df : table) (csv_filename excel_filename : option string)
    (output_dir : option Path) :
  let csv_file :=
    target output_dir
      (Consolidator.name_or csv_filename (default_csv_output config)) in
  let excel_file :=
    target output_dir
      (Consolidator.name_or excel_filename (default_excel_output config)) in
  (df = [] ->
   Consolidator.save_data config world df csv_filename excel_filename
     output_dir
   = ([], Ok (<["excel" := false]> (<["csv" := false]> ∅))))
  /\ (df <> [] ->
      (forall output_path,
         output_dir = Some output_path -> mkdir world output_path = Ok tt) ->
      exists requests results,
        Consolidator.save_data config world df csv_filename excel_filename
          output_dir
        = (requests, Ok results)
        /\ List.filter is_write requests
           = [ToCsv csv_file; ToExcel excel_file]
        /\ results !! "csv"
           = Some (Consolidator.is_ok (to_csv world csv_file))
        /\ results !! "excel"
           = Some (Consolidator.is_ok (to_excel world excel_file))
        /\ dom results = {["csv"; "excel"]}).
Proof.
  intros csv_file excel_file. split.
  - intros ->. reflexivity.
  - intros Hne Hdir. unfold Consolidator.save_data.
    rewrite bool_decide_eq_false_2 by assumption.
    assert (Hdict : forall (a b : bool),
              (<["excel" := b]> (<["csv" := a]> ∅) : gmap string bool)
                !! "csv" = Some a
              /\ (<["excel" := b]> (<["csv" := a]> ∅) : gmap string bool)
                   !! "excel" = Some b
              /\ dom (<["excel" := b]> (<["csv" := a]> ∅) : gmap string bool)
                 = {["csv"; "excel"]}).
    { intros a b. split; [|split].
      - rewrite lookup_insert_ne by discriminate. apply lookup_insert_eq.
      - apply lookup_insert_eq.
      - rewrite !dom_insert_L, dom_empty_L. set_solver. }
    destruct output_dir as [output_path|].
    + rewrite (Hdir output_path eq_refl). cbn.
      eexists _, _. split; [reflexivity|]. split; [reflexivity|].
      apply Hdict.
    + cbn. eexists _, _. split; [reflexivity|]. split; [reflexivity|].
      apply Hdict.
Qed.

End Saving.

Lemma save_data_formats_independent_witness :
  sample_long <> []
  /\ mkdir sample_world ["out"] = Ok tt
  /\ exists requests results,
       Consolidator.save_data default_config sample_world sample_long
         None None (Some ["out"])
       = (requests, Ok results)
       /\ List.filter is_write requests
          = [ToCsv ["out"; "master_data_consolidated.csv"];
             ToExcel ["out"; "master_data_consolidated.xlsx"]]
       /\ results !! "csv" = Some false
       /\ results !! "excel" = Some true.
Proof.
  assert (Hne : sample_long <> []) by discriminate.
  assert (Hdir : forall output_path : Path,
            Some ["out"] = Some output_path ->
            mkdir sample_world output_path = Ok tt) by reflexivity.
  split; [exact Hne|]. split; [reflexivity|].
  destruct (save_data_formats_independent default_config sample_world
              sample_long None None (Some ["out"])) as [_ Hsave].
  destruct (Hsave Hne Hdir)
    as (requests & results & Hrun & Hreq & Hcsv & Hexcel & _).
  exists requests, results. repeat split; assumption.
Defined.

(** C7 (as stated) fails when the output directory cannot be created: the
    table is not empty, yet neither write is requested and no dictionary is
    returned, the error of [mkdir] leaves [save_data] instead. *)
Lemma save_data_mkdir_failure_propagates :
  sample_long <> []
  /\ Consolidator.save_data default_config readonly_world sample_long
       None None (Some ["out"])
     = ([Mkdir ["out"]], Raise OSError)
  /\ ~ exists requests results,
         Consolidator.save_data default_config readonly_world sample_long
           None None (Some ["out"])
         = (requests, Ok results).
Proof.
  split; [discriminate|]. split; [reflexivity|].
  intros (requests & results & H). discriminate H.
Qed.

(** * Further properties *)

(** ** Loader: reading the year back from a file name *)

Section YearFiles.
Import Chars.

Lemma decimal_char_not_space a :
  decimal_char a -> is_space a = false.
Proof.
  intros [H| ->]; [|reflexivity].
  revert H. destruct a as [[] [] [] [] [] [] [] []]; vm_compute;
    intros; try discriminate; reflexivity.
Qed.

Lemma lstrip_plain l :
  Forall (fun a => is_space a = false) l -> lstrip l = l.
Proof. destruct 1 as [|a l Ha _]; cbn; [reflexivity|now rewrite Ha]. Qed.

Lemma strip_plain l :
  Forall (fun a => is_space a = false) l -> strip l = l.
Proof.
  intros H. unfold strip. rewrite (lstrip_plain l H).
  rewrite lstrip_plain by now apply Forall_rev.
  apply rev_involutive.
Qed.

(** The digits of a decimal, read with a positive accumulator. *)
Lemma digits_acc d p b :
  PyInt.digits (Z.pos p) b (list_ascii_of_string (NilEmpty.string_of_uint d))
  = match d with
    | Decimal.Nil => if b then Some (Z.pos p) else None
    | _ => Some (Z.pos (Pos.of_uint_acc d p))
    end.
Proof.
  revert p b. induction d; intros p b; cbn [NilEmpty.string_of_uint
    list_ascii_of_string PyInt.digits Pos.of_uint_acc];
    [destruct b; reflexivity|..];
    (change (digit_of _) with (Some 0) || change (digit_of _) with (Some 1)
     || change (digit_of _) with (Some 2) || change (digit_of _) with (Some 3)
     || change (digit_of _) with (Some 4) || change (digit_of _) with (Some 5)
     || change (digit_of _) with (Some 6) || change (digit_of _) with (Some 7)
     || change (digit_of _) with (Some 8) || change (digit_of _) with (Some 9));
    cbv iota beta;
    match goal with
    | |- PyInt.digits ?z _ _ = Some (Z.pos (Pos.of_uint_acc _ ?q)) =>
        replace z with (Z.pos q) by lia
    end;
    rewrite IHd; destruct d; reflexivity.
Qed.

(** The digits of a decimal, leading zeros included. *)
Lemma digits_zero d b :
  d <> Decimal.Nil \/ b = true ->
  PyInt.digits 0 b (list_ascii_of_string (NilEmpty.string_of_uint d))
  = Some (Z.of_N (Pos.of_uint d)).
Proof.
  revert b. induction d; intros b Hb; cbn [NilEmpty.string_of_uint
    list_ascii_of_string PyInt.digits Pos.of_uint];
    [destruct Hb as [Hb| ->]; [congruence|reflexivity]
    |change (digit_of _) with (Some 0); cbv iota beta;
     change (10 * 0 + 0) with 0; apply IHd; now right
    |..];
    (change (digit_of _) with (Some 1) || change (digit_of _) with (Some 2)
     || change (digit_of _) with (Some 3) || change (digit_of _) with (Some 4)
     || change (digit_of _) with (Some 5) || change (digit_of _) with (Some 6)
     || change (digit_of _) with (Some 7) || change (digit_of _) with (Some 8)
     || change (digit_of _) with (Some 9));
    cbv iota beta;
    match goal with
    | |- PyInt.digits ?z _ _ = Some (Z.of_N (N.pos (Pos.of_uint_acc _ ?q))) =>
        change z with (Z.pos q)
    end;
    rewrite digits_acc; destruct d; reflexivity.
Qed.

(** [int] reads the decimal rendering of an integer back. *)
Lemma int_str_of_Z z : PyInt.int (Text.str_of_Z z) = Some z.
Proof.
  unfold PyInt.int.
  rewrite strip_plain
    by (eapply Forall_impl; [apply str_of_Z_chars|];
        intros a Ha; now apply decimal_char_not_space).
  unfold Text.str_of_Z, NilZero.string_of_int, NilZero.string_of_uint.
  destruct z as [|p|p]; [reflexivity| |]; cbn [Z.to_int].
  - pose proof (DecimalPos.Unsigned.to_uint_nonnil p) as Hnil.
    pose proof (DecimalPos.Unsigned.of_to p) as Hback.
    pose proof (digits_zero (Pos.to_uint p) false (or_introl Hnil)) as Hd.
    rewrite Hback in Hd.
    destruct (Pos.to_uint p) eqn:E; try congruence;
      cbn [NilEmpty.string_of_uint list_ascii_of_string] in *;
      exact Hd.
  - pose proof (DecimalPos.Unsigned.to_uint_nonnil p) as Hnil.
    pose proof (DecimalPos.Unsigned.of_to p) as Hback.
    pose proof (digits_zero (Pos.to_uint p) false (or_introl Hnil)) as Hd.
    rewrite Hback in Hd.
    destruct (Pos.to_uint p) eqn:E; try congruence;
      cbn [NilEmpty.string_of_uint list_ascii_of_string Ascii.eqb] in *;
      change (Ascii.eqb "-" "-") with true; cbv iota;
      rewrite Hd; reflexivity.
Qed.


Lemma rfind_dot_xlsx l i :
  PathLib.rfind_dot i (l ++ list_ascii_of_string ".xlsx")
  = Some (i + length l)%nat.
Proof.
  revert i. induction l as [|a l IH]; intros i; cbn.
  - f_equal. lia.
  - rewrite IH. f_equal. lia.
Qed.

(** The stem of [<base>.xlsx] is the base, when the base is not empty. *)
Lemma stem_xlsx directory base :
  base <> "" ->
  PathLib.stem (directory ++ [base +:+ ".xlsx"]) = base.
Proof.
  intros Hne. unfold PathLib.stem, PathLib.name. rewrite last_last.
  rewrite list_ascii_of_string_app, rfind_dot_xlsx.
  assert (0 < length (list_ascii_of_string base))%nat as Hlen.
  { destruct base; [congruence|cbn; lia]. }
  rewrite length_app. cbn [length list_ascii_of_string Nat.add].
  replace ((0 <? length (list_ascii_of_string base))%nat) with true
    by (symmetry; apply Nat.ltb_lt; lia).
  replace ((length (list_ascii_of_string base)
            <? length (list_ascii_of_string base) + 5 - 1)%nat) with true
    by (symmetry; apply Nat.ltb_lt; lia).
  cbn [andb]. rewrite firstn_app, firstn_all, Nat.sub_diag. cbn [firstn].
  rewrite app_nil_r. apply string_of_list_ascii_of_string.
Qed.

Lemma str_of_Z_nonempty z : Text.str_of_Z z <> "".
Proof.
  intros H. pose proof (int_str_of_Z z) as Hint. rewrite H in Hint.
  discriminate Hint.
Qed.

End YearFiles.

(** X1: the loader reads the year of a workbook back from its name: for
    every integer [y], the stem of [<y>.xlsx] parses as [y], in whatever
    directory the file lies; so with an explicit year list the file is kept
    exactly when [y] is listed, and with a range whose two limits are
    configured and not [0] exactly when [y] lies between them. *)
Theorem should_process_year_of_year_file
    (config : ConsolidatorConfig) (directory : Path) (y : Z) :
  PyInt.int (PathLib.stem (year_file directory y)) = Some y
  /\ (forall years, target_years config = Some years ->
        Loader._should_process_year config (year_file directory y)
        = bool_decide (y ∈ years))
  /\ (forall s e, target_years config = None ->
        year_range_start config = Some s -> year_range_end config = Some e ->
        s <> 0 -> e <> 0 ->
        Loader._should_process_year config (year_file directory y)
        = bool_decide (s <= y <= e)).
Proof.
  assert (Hread : PyInt.int (PathLib.stem (year_file directory y)) = Some y).
  { unfold year_file. rewrite stem_xlsx by apply str_of_Z_nonempty.
    apply int_str_of_Z. }
  split; [exact Hread|]. split.
  - intros years Hy. unfold Loader._should_process_year.
    now rewrite Hread, Hy.
  - intros s e Hy Hs He Hs0 He0. unfold Loader._should_process_year.
    rewrite Hread, Hy, Hs, He.
    rewrite (bool_decide_eq_true_2 (Some s <> None)) by discriminate.
    cbn [orb]. unfold Loader.or_else.
    destruct (Z.eqb_spec s 0); [congruence|].
    destruct (Z.eqb_spec e 0); [congruence|].
    cbn [Loader.bound_leb].
    case_bool_decide as H.
    + apply andb_true_iff. split; apply Z.leb_le; lia.
    + apply andb_false_iff.
      destruct (Z.leb_spec s y); [right|left; reflexivity].
      apply Z.leb_gt. lia.
Qed.

(** ** Loader: discovery as a filter, and the errors of discovery *)

Section Discovery.
Variable config : ConsolidatorConfig.

Lemma parent_part_ok (p : Path) :
  (2 <= length p)%nat -> exists d, PathLib.parent_part p = Ok d.
Proof.
  intros H. unfold PathLib.parent_part. rewrite <- length_rev in H.
  destruct (rev p) as [|a [|d l]]; cbn in H; try lia. eauto.
Qed.

Lemma parent_part_raise (p : Path) e :
  PathLib.parent_part p = Raise e -> e = IndexError /\ (length p < 2)%nat.
Proof.
  unfold PathLib.parent_part. rewrite <- (length_rev p).
  destruct (rev p) as [|a [|d l]]; cbn; intros [= <-]; split;
    try reflexivity; lia.
Qed.

Lemma should_process_city_ok file_path :
  target_cities config = None \/ (2 <= length file_path)%nat ->
  exists keep, Loader._should_process_city config file_path = Ok keep.
Proof.
  unfold Loader._should_process_city, Loader._extract_city_from_path.
  destruct (target_cities config) as [cities|]; [|eauto].
  intros [H|H]; [discriminate|].
  destruct (parent_part_ok file_path H) as [d ->]. cbn. eauto.
Qed.

Lemma should_process_city_raise file_path e :
  Loader._should_process_city config file_path = Raise e ->
  e = IndexError /\ target_cities config <> None
  /\ (length file_path < 2)%nat.
Proof.
  unfold Loader._should_process_city, Loader._extract_city_from_path.
  destruct (target_cities config) as [cities|]; [|discriminate].
  destruct (PathLib.parent_part file_path) as [d|e'] eqn:E; cbn;
    [discriminate|].
  intros [= <-]. destruct (parent_part_raise _ _ E). now repeat split.
Qed.

Lemma filter_loop_ok files kept :
  Forall (fun f => exists keep,
            Loader._should_process_city config f = Ok keep) files ->
  Loader.filter_loop config files kept
  = Ok (kept ++ List.filter (admitted config) files).
Proof.
  intros H. revert kept.
  induction H as [|f files [keep Hf] _ IH]; intros kept; cbn [Loader.filter_loop
    List.filter]; [now rewrite app_nil_r|].
  unfold admitted at 1. rewrite Hf.
  destruct (Loader._should_process_year config f); cbn [negb andb];
    [|apply IH].
  cbn. destruct keep; cbn.
  - rewrite IH, <- app_assoc. reflexivity.
  - apply IH.
Qed.

Lemma filter_loop_raise_inv files kept e :
  Loader.filter_loop config files kept = Raise e ->
  e = IndexError /\ target_cities config <> None
  /\ exists f, f ∈ files /\ (length f < 2)%nat
       /\ Loader._should_process_year config f = true.
Proof.
  revert kept. induction files as [|f files IH]; intros kept;
    cbn [Loader.filter_loop]; [discriminate|].
  assert (Hrest : forall kept',
            Loader.filter_loop config files kept' = Raise e ->
            e = IndexError /\ target_cities config <> None
            /\ exists f', f' ∈ f :: files /\ (length f' < 2)%nat
                 /\ Loader._should_process_year config f' = true).
  { intros kept' H. destruct (IH kept' H) as (He & Hc & f' & Hin & Hf').
    repeat split; try assumption. exists f'. split; [now right|exact Hf']. }
  destruct (Loader._should_process_year config f) eqn:Hy; cbn [negb];
    [|apply Hrest].
  destruct (Loader._should_process_city config f) as [keep|e'] eqn:Hc; cbn.
  - destruct keep; cbn; apply Hrest.
  - intros [= <-]. destruct (should_process_city_raise _ _ Hc) as (-> & Hn & Hl).
    repeat split; try assumption. exists f. split; [left|auto].
Qed.

Lemma filter_loop_short_path files kept f :
  target_cities config <> None -> f ∈ files -> (length f < 2)%nat ->
  Loader._should_process_year config f = true ->
  Loader.filter_loop config files kept = Raise IndexError.
Proof.
  intros Hc Hin Hlen Hy. revert kept.
  induction files as [|f0 files IH]; intros kept; [inversion Hin|].
  cbn [Loader.filter_loop].
  destruct (decide (f0 = f)) as [->|Hne].
  - rewrite Hy. cbn [negb].
    unfold Loader._should_process_city, Loader._extract_city_from_path.
    destruct (target_cities config) as [cities|]; [|congruence].
    destruct (PathLib.parent_part f) as [d|e] eqn:E.
    + unfold PathLib.parent_part in E. rewrite <- (length_rev f) in Hlen.
      destruct (rev f) as [|a0 [|d0 l]]; try discriminate; cbn in Hlen; lia.
    + destruct (parent_part_raise _ _ E) as [-> _]. reflexivity.
  - assert (Hin' : f ∈ files) by (inversion Hin; subst; [congruence|assumption]).
    destruct (Loader._should_process_year config f0); cbn [negb]; [|now apply IH].
    destruct (Loader._should_process_city config f0) as [keep|e] eqn:E; cbn.
    + destruct keep; cbn; now apply IH.
    + now destruct (should_process_city_raise _ _ E) as (-> & _).
Qed.

End Discovery.

(** X2: when no city list is configured, or every path handed over has a
    directory above the file, [_filter_files_by_criteria] raises nothing
    and returns exactly the files that pass the year test and the city test,
    in the order they were given. *)
Theorem filter_files_by_criteria_admitted
    (config : ConsolidatorConfig) (files : list Path) :
  target_cities config = None
  \/ Forall (fun f : Path => (2 <= length f)%nat) files ->
  Loader._filter_files_by_criteria config files
  = Ok (List.filter (admitted config) files).
Proof.
  intros H. unfold Loader._filter_files_by_criteria.
  rewrite filter_loop_ok; [reflexivity|].
  apply Forall_forall. intros f Hf. apply should_process_city_ok.
  destruct H as [H|H]; [now left|right].
  rewrite Forall_forall in H. now apply H.
Qed.

Lemma filter_files_by_criteria_admitted_witness :
  Loader._filter_files_by_criteria
    (with_filters default_config (Some [2023; 2024]) None None
       (Some ["kota-pontianak"]))
    [ ["data"; "kota-pontianak"; "2022.xlsx"];
      ["data"; "kota-pontianak"; "2023.xlsx"];
      ["data"; "kota-sampit"; "2023.xlsx"];
      ["data"; "kota-pontianak"; "notes.xlsx"] ]
  = Ok [ ["data"; "kota-pontianak"; "2023.xlsx"];
         ["data"; "kota-pontianak"; "notes.xlsx"] ].
Proof.
  apply (filter_files_by_criteria_admitted
           (with_filters default_config (Some [2023; 2024]) None None
              (Some ["kota-pontianak"]))).
  right. repeat constructor.
Defined.

(** X3: with a file pattern of the usual kind (letters, digits, [.], [_],
    [-], [?] and single [*], a letter or digit among them: a pattern
    [rglob] accepts), [consolidate_data] raises in two cases only.  It
    raises [FileNotFoundError] exactly when the root directory does not
    exist, and [IndexError] exactly when the root exists, a city list is
    configured and the search returns a path of fewer than two parts that
    passes the year test (a workbook lying directly in a root given as
    [.]).  Failures of single files never leave it. *)
Theorem consolidate_data_raises
    (config : ConsolidatorConfig) (world : World) (targets : list string)
    (root : Path) (e : exn) :
  name_pattern (file_pattern config) = true ->
  Consolidator.consolidate_data config world targets root = Raise e
  <-> (e = FileNotFoundError /\ dir_exists world root = false)
      \/ (e = IndexError /\ dir_exists world root = true
          /\ target_cities config <> None
          /\ exists f, f ∈ rglob world root (file_pattern config)
               /\ (length f < 2)%nat
               /\ Loader._should_process_year config f = true).
Proof.
  intros _.
  unfold Consolidator.consolidate_data, Loader.find_excel_files,
    Loader._filter_files_by_criteria.
  destruct (dir_exists world root); cbn [negb].
  - destruct (Loader.filter_loop config _ []) as [files|e'] eqn:E; cbn.
    + split.
      * destruct (bool_decide _); discriminate.
      * intros [[_ H]|(-> & _ & Hc & f & Hin & Hlen & Hy)]; [discriminate|].
        rewrite (filter_loop_short_path config _ [] f Hc Hin Hlen Hy) in E.
        discriminate E.
    + apply filter_loop_raise_inv in E as (-> & Hc & Hf). split.
      * intros [= <-]. right. auto.
      * intros [[_ H]|(-> & _)]; [discriminate|reflexivity].
  - cbn. split.
    + intros [= <-]. now left.
    + intros [[-> _]|(_ & H & _)]; [reflexivity|discriminate].
Qed.

Lemma consolidate_data_raises_witness :
  name_pattern (file_pattern default_config) = true
  /\ Consolidator.consolidate_data default_config flat_world
       (target_commodities default_config) []
     = Raise IndexError
  /\ exists f, f ∈ rglob flat_world [] (file_pattern default_config)
       /\ (length f < 2)%nat
       /\ Loader._should_process_year default_config f = true.
Proof.
  split; [reflexivity|]. split; [reflexivity|].
  destruct (proj1 (consolidate_data_raises default_config flat_world
                     (target_commodities default_config) [] IndexError
                     eq_refl) eq_refl)
    as [[H _]|(_ & _ & _ & H)]; [discriminate H|exact H].
Defined.

(** A workbook directly under the root, with the default city list. *)
Example consolidate_data_flat_root :
  Consolidator.consolidate_data default_config flat_world
    (target_commodities default_config) []
  = Raise IndexError.
Proof. reflexivity. Qed.

(** ** Cleaner: type conversion of the long table *)

Section Conversion.

Lemma convert_data_types_zip (df : table) :
  Cleaner.convert_data_types df
  = zip_with
      (fun r p => set_date (set_price r p) (Strptime.to_datetime (Date r)))
      df (Cleaner._clean_and_convert_price (List.map Price df)).
Proof.
  unfold Cleaner.convert_data_types, Cleaner._clean_and_convert_date.
  generalize (Cleaner._clean_and_convert_price (List.map Price df)).
  induction df as [|r df IH]; intros [|p prices]; cbn; try reflexivity.
  f_equal. apply IH.
Qed.

Lemma to_datetime_timestamp_or_missing c :
  Strptime.to_datetime c = NaN \/ exists d, Strptime.to_datetime c = Ts d.
Proof.
  destruct c; cbn; eauto;
    match goal with |- context [Strptime.strptime ?l] =>
      destruct (Strptime.strptime l) end; eauto.
Qed.

End Conversion.

(** ** Cleaner: what the filling does to the prices *)

Section Prices.
Variable config : ConsolidatorConfig.

Lemma key_leb_set_price r1 p1 r2 p2 :
  Cleaner.key_leb (set_price r1 p1) (set_price r2 p2) = Cleaner.key_leb r1 r2.
Proof. reflexivity. Qed.

Lemma zip_set_price_sorted (l : table) (prices : list cell) :
  Sorted key_le l -> Sorted key_le (zip_with set_price l prices).
Proof.
  intros H. revert prices.
  induction H as [|r l Hs IH Hhd]; intros [|p prices]; cbn; try constructor.
  - apply IH.
  - destruct Hhd as [|r' l' Hr]; [constructor|].
    destruct prices as [|p' prices]; cbn; constructor.
    unfold key_le. now rewrite key_leb_set_price.
Qed.

Lemma first_valid_elem series :
  isna (first_valid series) = false -> first_valid series ∈ series.
Proof.
  induction series as [|c series IH]; cbn; [discriminate|].
  destruct (isna c) eqn:E; intros H; [right; auto|left].
Qed.

Lemma bfill_elem series i p :
  Cleaner.bfill series !! i = Some p -> isna p = false -> p ∈ series.
Proof.
  intros Hi Hp.
  destruct (series !! i) as [c|] eqn:Hc.
  - rewrite (bfill_lookup _ _ _ Hc) in Hi. injection Hi as <-.
    destruct (isna c) eqn:E.
    + apply first_valid_elem in Hp.
      apply list_elem_of_lookup in Hp as [j Hj]. rewrite lookup_drop in Hj.
      apply list_elem_of_lookup. eauto.
    + apply list_elem_of_lookup. eauto.
  - apply lookup_ge_None in Hc. rewrite <- bfill_length in Hc.
    apply lookup_ge_None in Hc. congruence.
Qed.

Lemma last_valid_elem k before :
  isna (Cleaner.last_valid k before) = false ->
  exists r, r ∈ before /\ Cleaner.group_key r = k
            /\ Price r = Cleaner.last_valid k before.
Proof.
  induction before as [|r before IH]; cbn; [discriminate|].
  case_bool_decide as Hk; cbn.
  - destruct (isna (Price r)) eqn:E; cbn.
    + intros H. destruct (IH H) as (r' & Hin & Hr'). exists r'.
      split; [now right|assumption].
    + intros _. exists r. split; [left|auto].
  - intros H. destruct (IH H) as (r' & Hin & Hr'). exists r'.
    split; [now right|assumption].
Qed.

Lemma grouped_key r r' :
  Cleaner.group_key r = Cleaner.group_key r' ->
  Cleaner.grouped r = Cleaner.grouped r'.
Proof. unfold Cleaner.group_key, Cleaner.grouped. now intros [= -> ->]. Qed.

(** A valid value of the forward-filled column is the price of a grouped
    row of the frame. *)
Lemma groupby_ffill_elem rows p :
  p ∈ Cleaner.groupby_ffill [] rows -> isna p = false ->
  exists r, r ∈ rows /\ Cleaner.grouped r = true /\ Price r = p.
Proof.
  intros Hin Hp. apply list_elem_of_lookup in Hin as [i Hi].
  destruct (rows !! i) as [r|] eqn:Hr.
  - rewrite (groupby_ffill_lookup _ _ _ _ Hr) in Hi. injection Hi as <-.
    destruct (Cleaner.grouped r) eqn:Hg; cbn in *; [|discriminate].
    destruct (isna (Price r)) eqn:E.
    + destruct (last_valid_elem _ _ Hp) as (r' & Hin & Hk & Hprice).
      exists r'. split; [|split; [|assumption]].
      * rewrite app_nil_r in Hin.
        apply list_elem_of_In, in_rev, list_elem_of_In in Hin.
        apply elem_of_take in Hin as (j & Hj & _).
        apply list_elem_of_lookup. eauto.
      * now rewrite (grouped_key _ _ Hk).
    + exists r. split; [|auto]. apply list_elem_of_lookup. eauto.
  - apply lookup_ge_None in Hr. rewrite <- (groupby_ffill_length []) in Hr.
    apply lookup_ge_None in Hr. congruence.
Qed.

(** A valid price after the indicator loop is a price of the input that is
    neither missing nor an indicator. *)
Lemma replace_indicators_elem (df : table) r :
  r ∈ Cleaner.replace_indicators (missing_value_indicators config) df ->
  isna (Price r) = false ->
  exists r0, r0 ∈ df /\ observation r0 = observation r
             /\ Price r0 = Price r /\ missing config (Price r0) = false.
Proof.
  rewrite replace_indicators_map. intros Hin Hp.
  apply list_elem_of_In, in_map_iff in Hin as (r0 & <- & Hr0).
  cbn in Hp. rewrite replace_fold_missing in Hp.
  exists r0. split; [now apply list_elem_of_In|]. split; [reflexivity|].
  cbn. now rewrite replace_fold_valid by exact Hp.
Qed.

End Prices.

(** X7: the table [handle_missing_values] returns is in (City, Commodity,
    Date) order, whatever the order of the rows it was given. *)
Theorem handle_missing_values_sorted
    (config : ConsolidatorConfig) (df : table) :
  Sorted key_le (Cleaner.handle_missing_values config df).
Proof.
  unfold Cleaner.handle_missing_values.
  apply zip_set_price_sorted, sort_values_sorted.
Qed.

(** X8: [handle_missing_values] never alters a price that is present: a row
    of the input that belongs to a group (its City and Commodity are not
    missing) and whose price is neither missing nor an indicator text is a
    row of the output, unchanged. *)
Theorem handle_missing_values_keeps_prices
    (config : ConsolidatorConfig) (df : table) (r : row) :
  r ∈ df -> Cleaner.grouped r = true -> missing config (Price r) = false ->
  r ∈ Cleaner.handle_missing_values config df.
Proof.
  intros Hin Hg Hvalid. unfold Cleaner.handle_missing_values.
  set (sorted := Cleaner.sort_values (Cleaner.replace_indicators _ df)).
  assert (Hna : isna (Price r) = false).
  { unfold missing in Hvalid. now apply orb_false_iff in Hvalid as [-> _]. }
  assert (Hs : r ∈ sorted).
  { unfold sorted. rewrite sort_values_perm.
    now apply replace_indicators_valid. }
  apply list_elem_of_lookup in Hs as [i Hi].
  apply list_elem_of_lookup. exists i.
  apply lookup_zip_with_Some. exists r, (Price r).
  split; [symmetry; apply set_price_same|]. split; [exact Hi|].
  pose proof (groupby_ffill_lookup [] sorted i r Hi) as Hf.
  rewrite Hg, Hna in Hf. cbn in Hf.
  etrans; [apply (bfill_lookup _ _ _ Hf)|]. now rewrite Hna.
Qed.

Lemma handle_missing_values_keeps_prices_witness :
  mkrow (Str "Beras") (Str "kota-pontianak") (Str "15/ 01/ 2024") (Num 12000)
    ∈ Cleaner.handle_missing_values default_config sample_long.
Proof.
  apply (handle_missing_values_keeps_prices default_config sample_long).
  - left.
  - reflexivity.
  - reflexivity.
Defined.

(** X9: [handle_missing_values] never makes a price up: every price of the
    output that is not missing is the price, neither missing nor an
    indicator text, of a row of the input that belongs to a group. *)
Theorem handle_missing_values_prices_from_input
    (config : ConsolidatorConfig) (df : table) :
  Forall
    (fun r' =>
       isna (Price r') = true
       \/ exists r, r ∈ df /\ Cleaner.grouped r = true
                    /\ missing config (Price r) = false
                    /\ Price r = Price r')
    (Cleaner.handle_missing_values config df).
Proof.
  apply Forall_forall. intros r' Hr'.
  destruct (isna (Price r')) eqn:Hp; [now left|right].
  unfold Cleaner.handle_missing_values in Hr'.
  set (sorted := Cleaner.sort_values (Cleaner.replace_indicators _ df)) in Hr'.
  apply list_elem_of_lookup in Hr' as [i Hi].
  apply lookup_zip_with_Some in Hi as (r0 & p & -> & Hr0 & Hfill).
  cbn in Hp |- *.
  pose proof (bfill_elem _ _ _ Hfill Hp) as Hin.
  destruct (groupby_ffill_elem _ _ Hin Hp) as (r1 & Hr1 & Hg & <-).
  unfold sorted in Hr1. rewrite sort_values_perm in Hr1.
  destruct (replace_indicators_elem config _ _ Hr1 Hp)
    as (r2 & Hr2 & Hobs & Hprice & Hvalid).
  exists r2. split; [assumption|]. split; [|split; assumption].
  unfold observation in Hobs. injection Hobs as Hc Hm _.
  unfold Cleaner.grouped in *. now rewrite Hc, Hm.
Qed.

(** ** Cleaner: from the raw sheet to the long table *)

Section Sheets.
Variable config : ConsolidatorConfig.

Lemma frame_get_in label (df : DataFrame) values :
  Frame.get label df = Ok values -> label ∈ Frame.columns df.
Proof.
  intros H. apply frame_get_elem in H. unfold Frame.columns.
  apply list_elem_of_fmap. now exists (label, values).
Qed.

Lemma rect_nrows (df : DataFrame) n :
  Forall (fun c : column => length c.2 = n) df -> df <> [] ->
  Frame.nrows df = n.
Proof. destruct 1 as [|[l vs] df H _]; [congruence|intros _; exact H]. Qed.

(** Assigning a scalar column. *)
Lemma assign_get label value (df : DataFrame) :
  Frame.get label (Frame.assign label value df)
  = Ok (repeat value (Frame.nrows df)).
Proof.
  unfold Frame.assign, Frame.get. generalize (repeat value (Frame.nrows df)).
  intros filled. case_bool_decide as Hin.
  - unfold Frame.columns in Hin. induction df as [|[l vs] df IH];
      [inversion Hin|].
    cbn. destruct (String.eqb_spec l label) as [->|Hne]; cbn.
    + now rewrite String.eqb_refl.
    + destruct (String.eqb_spec l label); [congruence|].
      apply IH. cbn in Hin. inversion Hin; subst; [congruence|assumption].
  - unfold Frame.columns in Hin. induction df as [|[l vs] df IH]; cbn.
    + now rewrite String.eqb_refl.
    + cbn in Hin. apply not_elem_of_cons in Hin as [Hne Hin].
      destruct (String.eqb_spec l label); [congruence|]. now apply IH.
Qed.

Lemma find_label_ext (df1 df2 : DataFrame) label :
  Forall2 (fun c1 c2 : column =>
             c1 = c2 \/ (c1.1 <> label /\ c2.1 <> label)) df1 df2 ->
  List.find (fun c : column => String.eqb c.1 label) df1
  = List.find (fun c : column => String.eqb c.1 label) df2.
Proof.
  induction 1 as [|c1 c2 df1 df2 [->|[H1 H2]] _ IH]; cbn;
    [reflexivity|now rewrite IH|].
  destruct (String.eqb_spec c1.1 label); [congruence|].
  destruct (String.eqb_spec c2.1 label); [congruence|]. exact IH.
Qed.

Lemma assign_get_other label value (df : DataFrame) other :
  other <> label ->
  Frame.get other (Frame.assign label value df) = Frame.get other df.
Proof.
  intros Hne. unfold Frame.assign, Frame.get.
  generalize (repeat value (Frame.nrows df)). intros filled.
  case_bool_decide as Hin.
  - erewrite find_label_ext; [reflexivity|].
    clear Hin. induction df as [|[l vs] df IH]; cbn; constructor;
      [|exact IH].
    destruct (String.eqb_spec l label) as [->|]; [right; cbn|left]; auto.
  - clear Hin. induction df as [|[l vs] df IH]; cbn.
    + destruct (String.eqb_spec label other); [congruence|reflexivity].
    + destruct (String.eqb l other); [reflexivity|exact IH].
Qed.

Lemma assign_columns label value (df : DataFrame) :
  Frame.columns (Frame.assign label value df)
  = if bool_decide (label ∈ Frame.columns df) then Frame.columns df
    else Frame.columns df ++ [label].
Proof.
  unfold Frame.assign. generalize (repeat value (Frame.nrows df)).
  intros filled. case_bool_decide as Hin; unfold Frame.columns.
  - clear Hin. induction df as [|[l vs] df IH]; cbn; [reflexivity|].
    f_equal; [|exact IH]. now destruct (String.eqb_spec l label).
  - now rewrite fmap_app.
Qed.

Lemma assign_rect label value (df : DataFrame) :
  Forall (fun c : column => length c.2 = Frame.nrows df) df ->
  Forall (fun c : column => length c.2 = Frame.nrows df)
    (Frame.assign label value df).
Proof.
  intros H. unfold Frame.assign.
  pose proof (repeat_length value (Frame.nrows df)) as Hfilled.
  revert Hfilled. generalize (repeat value (Frame.nrows df)).
  generalize (Frame.nrows df) H. clear H. intros n H filled Hfilled.
  case_bool_decide as Hin.
  - clear Hin. induction H as [|[l vs] df Hc _ IH]; cbn; constructor;
      [|exact IH].
    now destruct (String.eqb l label).
  - apply Forall_app. split; [assumption|]. now repeat constructor.
Qed.

Lemma assign_filter (P : string -> bool) label value (df : DataFrame) :
  P label = false ->
  List.filter (fun c : column => P c.1) (Frame.assign label value df)
  = List.filter (fun c : column => P c.1) df.
Proof.
  intros HP. unfold Frame.assign. generalize (repeat value (Frame.nrows df)).
  intros filled. case_bool_decide as Hin.
  - clear Hin. induction df as [|[l vs] df IH]; cbn; [reflexivity|].
    destruct (String.eqb_spec l label) as [->|]; cbn.
    + now rewrite HP.
    + now rewrite IH.
  - rewrite List.filter_app. cbn. rewrite HP. apply app_nil_r.
Qed.

Lemma assign_nonempty label value (df : DataFrame) :
  df <> [] -> Frame.assign label value df <> [].
Proof.
  unfold Frame.assign. destruct df as [|c df]; [congruence|].
  intros _. destruct (bool_decide _); discriminate.
Qed.

(** Renaming one column. *)
Lemma rename_columns old new (df : DataFrame) :
  Frame.columns (Frame.rename old new df)
  = (fun l => if String.eqb l old then new else l) <$> Frame.columns df.
Proof.
  unfold Frame.rename, Frame.columns.
  induction df as [|[l vs] df IH]; cbn; [reflexivity|].
  f_equal; [|exact IH]. now destruct (String.eqb l old).
Qed.

Lemma rename_rect old new (df : DataFrame) n :
  Forall (fun c : column => length c.2 = n) df ->
  Forall (fun c : column => length c.2 = n) (Frame.rename old new df).
Proof.
  unfold Frame.rename. induction 1 as [|[l vs] df Hc _ IH]; cbn;
    constructor; [|exact IH].
  now destruct (String.eqb l old).
Qed.

Lemma rename_get old new (df : DataFrame) :
  new ∉ Frame.columns df ->
  Frame.get new (Frame.rename old new df) = Frame.get old df.
Proof.
  unfold Frame.get, Frame.rename, Frame.columns.
  induction df as [|[l vs] df IH]; cbn; [reflexivity|].
  intros Hnew. apply not_elem_of_cons in Hnew as [Hne Hnew].
  destruct (String.eqb_spec l old) as [->|Hlo]; cbn.
  - now rewrite String.eqb_refl.
  - destruct (String.eqb_spec l new); [congruence|]. now apply IH.
Qed.

Lemma rename_filter (P : string -> bool) old new (df : DataFrame) :
  P new = false ->
  List.filter (fun c : column => P c.1) (Frame.rename old new df)
  = List.filter (fun c : column => P c.1 && negb (String.eqb c.1 old)) df.
Proof.
  intros HP. unfold Frame.rename.
  induction df as [|[l vs] df IH]; cbn; [reflexivity|].
  destruct (String.eqb_spec l old) as [->|]; cbn.
  - rewrite HP, andb_false_r. exact IH.
  - rewrite andb_true_r. now rewrite IH.
Qed.

(** Dropping the labels of the list that are present. *)
Lemma drop_present labels (df : DataFrame) :
  Frame.drop
    (List.filter (fun col => bool_decide (col ∈ Frame.columns df)) labels) df
  = List.filter (fun c : column => negb (bool_decide (c.1 ∈ labels))) df.
Proof.
  unfold Frame.drop. apply List.filter_ext_in. intros c Hc. f_equal.
  apply bool_decide_ext. rewrite !list_elem_of_In, filter_In.
  rewrite bool_decide_eq_true. split; [tauto|]. intros H. split; [exact H|].
  unfold Frame.columns. apply list_elem_of_fmap. exists c.
  split; [reflexivity|now apply list_elem_of_In].
Qed.

Lemma filter_columns_sub (P : column -> bool) (df : DataFrame) label :
  label ∈ Frame.columns (List.filter P df) -> label ∈ Frame.columns df.
Proof.
  unfold Frame.columns. rewrite !list_elem_of_fmap.
  intros (c & -> & Hc). exists c. split; [reflexivity|].
  apply list_elem_of_In in Hc. apply filter_In in Hc as [Hc _].
  now apply list_elem_of_In.
Qed.

Lemma filter_columns_NoDup (P : column -> bool) (df : DataFrame) :
  NoDup (Frame.columns df) -> NoDup (Frame.columns (List.filter P df)).
Proof.
  unfold Frame.columns. induction df as [|c df IH]; cbn; [auto|].
  intros H. apply NoDup_cons in H as [Hc Hnd].
  destruct (P c); cbn; [|auto]. apply NoDup_cons. split; [|auto].
  intros Hin. apply Hc. now apply (filter_columns_sub P).
Qed.

Lemma filter_get (P : string -> bool) (df : DataFrame) label :
  P label = true ->
  Frame.get label (List.filter (fun c : column => P c.1) df)
  = Frame.get label df.
Proof.
  intros HP. unfold Frame.get.
  induction df as [|[l vs] df IH]; cbn; [reflexivity|].
  destruct (String.eqb_spec l label) as [->|Hne].
  - cbn. rewrite HP. cbn. now rewrite String.eqb_refl.
  - destruct (P l); cbn; [|exact IH].
    destruct (String.eqb_spec l label); [congruence|exact IH].
Qed.

Lemma stack_elem label (commodity city values : list cell) r :
  r ∈ Cleaner.stack label commodity city values ->
  Commodity r ∈ commodity /\ City r ∈ city /\ Date r = Str label
  /\ Price r ∈ values.
Proof.
  revert city values.
  induction commodity as [|c commodity IH]; intros [|t city] [|v values];
    cbn; try (intros H; now inversion H).
  intros H. apply elem_of_cons in H as [->|H]; cbn.
  - repeat split; left.
  - destruct (IH _ _ H) as (H1 & H2 & H3 & H4).
    repeat split; try assumption; now right.
Qed.

End Sheets.

Section CleanAndTransform.
Variable config : ConsolidatorConfig.

Lemma filter_columns_in (P : string -> bool) (df : DataFrame) label :
  label ∈ Frame.columns df -> P label = true ->
  label ∈ Frame.columns (List.filter (fun c : column => P c.1) df).
Proof.
  unfold Frame.columns. rewrite !list_elem_of_fmap.
  intros (c & -> & Hc) HP. exists c. split; [reflexivity|].
  apply list_elem_of_In, filter_In. split; [now apply list_elem_of_In|exact HP].
Qed.

(** The cleaned frame, written out. *)
Lemma clean_dataframe_ok (df : DataFrame) file_path city :
  PathLib.parent_part file_path = Ok city ->
  original_commodity_col config ∈ Frame.columns df ->
  original_commodity_col config ∉ columns_to_drop config ->
  Cleaner.clean_dataframe config df file_path
  = Ok (Frame.assign (city_col config) (Str city)
          (Frame.rename (original_commodity_col config) (commodity_col config)
             (kept_columns config df))).
Proof.
  intros Hcity Horig Hkeep. unfold Cleaner.clean_dataframe.
  rewrite drop_present. fold (kept_columns config df).
  rewrite bool_decide_eq_true_2.
  - unfold Cleaner._extract_city_from_path. now rewrite Hcity.
  - apply (filter_columns_in (not_dropped config)); [assumption|].
    unfold not_dropped. now rewrite bool_decide_eq_false_2.
Qed.

Lemma renamed_well_formed (df : DataFrame) :
  Frame.well_formed df ->
  original_commodity_col config ∈ Frame.columns df ->
  original_commodity_col config ∉ columns_to_drop config ->
  commodity_col config ∉ Frame.columns df ->
  let renamed :=
    Frame.rename (original_commodity_col config) (commodity_col config)
      (kept_columns config df) in
  renamed <> []
  /\ NoDup (Frame.columns renamed)
  /\ Forall (fun c : column => length c.2 = Frame.nrows df) renamed
  /\ Frame.nrows renamed = Frame.nrows df.
Proof.
  intros [Hnd Hrect] Horig Hkeep Hcom renamed.
  assert (Hin : original_commodity_col config
                ∈ Frame.columns (kept_columns config df)).
  { apply (filter_columns_in (not_dropped config)); [assumption|].
    unfold not_dropped. now rewrite bool_decide_eq_false_2. }
  assert (Hne : renamed <> []).
  { unfold renamed, Frame.rename. destruct (kept_columns config df);
      [inversion Hin|discriminate]. }
  assert (Hr : Forall (fun c : column => length c.2 = Frame.nrows df) renamed).
  { apply rename_rect. unfold kept_columns.
    apply Forall_forall. intros c Hc. rewrite Forall_forall in Hrect.
    apply Hrect. apply list_elem_of_In in Hc. apply filter_In in Hc as [Hc _].
    now apply list_elem_of_In. }
  split; [exact Hne|]. split; [|split; [exact Hr|now apply rect_nrows]].
  unfold renamed. rewrite rename_columns.
  apply NoDup_fmap_2_strong; [|now apply filter_columns_NoDup].
  intros l1 l2 H1 H2.
  apply filter_columns_sub in H1, H2.
  destruct (String.eqb_spec l1 (original_commodity_col config)),
    (String.eqb_spec l2 (original_commodity_col config));
    intros; subst; congruence.
Qed.

Lemma lookup_repeat {A} (x : A) n i :
  (i < n)%nat -> repeat x n !! i = Some x.
Proof.
  revert i. induction n as [|n IH]; intros [|i] H; cbn; try lia;
    [reflexivity|apply IH; lia].
Qed.

Lemma filter_twice {A} (f g : A -> bool) (l : list A) :
  List.filter f (List.filter g l) = List.filter (fun x => g x && f x) l.
Proof.
  induction l as [|a l IH]; cbn; [reflexivity|].
  destruct (g a); cbn; [destruct (f a)|]; now rewrite IH.
Qed.

(** The period columns of the cleaned frame are the raw period columns. *)
Lemma cleaned_period_columns (df : DataFrame) city :
  commodity_col config ∉ Frame.columns df ->
  period_columns config
    (Frame.assign (city_col config) (Str city)
       (Frame.rename (original_commodity_col config) (commodity_col config)
          (kept_columns config df)))
  = List.filter (fun c : column => is_raw_period config c.1) df.
Proof.
  intros Hcom. unfold period_columns.
  rewrite (assign_filter (is_period config)) by apply is_period_city.
  rewrite (rename_filter (is_period config)) by apply is_period_commodity.
  unfold kept_columns. rewrite filter_twice.
  apply List.filter_ext_in. intros c Hc.
  assert (Hne : c.1 <> commodity_col config).
  { intros E. apply Hcom. rewrite <- E. unfold Frame.columns.
    apply list_elem_of_fmap. exists c.
    split; [reflexivity|now apply list_elem_of_In]. }
  unfold is_raw_period, is_period, not_dropped.
  destruct (String.eqb_spec c.1 (original_commodity_col config)) as [E|E];
    repeat case_bool_decide; cbn; try reflexivity; exfalso;
    repeat match goal with
      | H : _ ∈ _ :: _ |- _ => apply elem_of_cons in H as [H|H]
      | H : _ ∈ [] |- _ => inversion H
      | H : ~ _ ∈ _ :: _ |- _ => apply not_elem_of_cons in H as [? H]
      end; congruence.
Qed.

End CleanAndTransform.

(** X10: for a file with a directory above it, [clean_dataframe] succeeds on
    a well-formed sheet that has the original commodity column (not among
    the dropped ones) and no column already named like the output commodity
    column.  The cleaned frame is well formed and has the rows of the
    sheet; its city column holds the name of the directory in every row, its
    commodity column the values of the original commodity column, and no
    dropped label is left among its columns. *)
Theorem clean_dataframe_city
    (config : ConsolidatorConfig) (df : DataFrame) (file_path : Path)
    (city : string) :
  PathLib.parent_part file_path = Ok city ->
  Frame.well_formed df ->
  original_commodity_col config ∈ Frame.columns df ->
  original_commodity_col config ∉ columns_to_drop config ->
  commodity_col config ∉ Frame.columns df ->
  commodity_col config <> city_col config ->
  exists wide,
    Cleaner.clean_dataframe config df file_path = Ok wide
    /\ Frame.well_formed wide
    /\ Frame.nrows wide = Frame.nrows df
    /\ Frame.get (city_col config) wide
       = Ok (repeat (Str city) (Frame.nrows df))
    /\ Frame.get (commodity_col config) wide
       = Frame.get (original_commodity_col config) df
    /\ (forall label,
          label ∈ columns_to_drop config ->
          label <> city_col config -> label <> commodity_col config ->
          label ∉ Frame.columns wide).
Proof.
  intros Hcity Hwf Horig Hkeep Hcom Hne.
  destruct (renamed_well_formed config df Hwf Horig Hkeep Hcom)
    as (Hnonempty & Hnd & Hrect & Hrows).
  set (renamed :=
         Frame.rename (original_commodity_col config) (commodity_col config)
           (kept_columns config df)) in *.
  assert (Hrows' : Frame.nrows (Frame.assign (city_col config) (Str city) renamed)
                   = Frame.nrows df).
  { apply rect_nrows; [|now apply assign_nonempty].
    rewrite <- Hrows. apply assign_rect. now rewrite Hrows. }
  exists (Frame.assign (city_col config) (Str city) renamed).
  split; [now apply clean_dataframe_ok|]. split; [|split; [exact Hrows'|split; [|split]]].
  - split.
    + rewrite assign_columns. case_bool_decide as Hin; [exact Hnd|].
      apply NoDup_app. split; [exact Hnd|]. split; [|apply NoDup_singleton].
      intros l Hl Hl'. apply list_elem_of_singleton in Hl'. now subst.
    + rewrite Hrows', <- Hrows. apply assign_rect. now rewrite Hrows.
  - now rewrite assign_get, Hrows.
  - rewrite assign_get_other by assumption. unfold renamed.
    rewrite rename_get.
    + apply (filter_get (not_dropped config)). unfold not_dropped.
      now rewrite bool_decide_eq_false_2.
    + intros H. now apply filter_columns_sub in H.
  - intros label Hdrop Hlc Hlm Hin. rewrite assign_columns in Hin.
    assert (Hin' : label ∈ Frame.columns renamed).
    { destruct (bool_decide _); [exact Hin|].
      apply elem_of_app in Hin as [Hin|Hin]; [exact Hin|].
      apply list_elem_of_singleton in Hin. congruence. }
    unfold renamed in Hin'. rewrite rename_columns in Hin'.
    apply list_elem_of_fmap in Hin' as (l & -> & Hl).
    destruct (String.eqb_spec l (original_commodity_col config));
      [congruence|].
    unfold kept_columns, Frame.columns in Hl.
    apply list_elem_of_fmap in Hl as (c & -> & Hc).
    apply list_elem_of_In, filter_In in Hc as [_ Hc]. unfold not_dropped in Hc.
    now rewrite bool_decide_eq_true_2 in Hc.
Qed.

Lemma numbered_sheet_well_formed : Frame.well_formed numbered_sheet.
Proof.
  split.
  - apply (bool_decide_unpack _). vm_compute. exact I.
  - repeat constructor.
Qed.

Lemma clean_dataframe_city_witness :
  exists wide,
    Cleaner.clean_dataframe default_config numbered_sheet sample_path = Ok wide
    /\ Frame.well_formed wide
    /\ Frame.nrows wide = 2%nat
    /\ Frame.get "City" wide
       = Ok [Str "kota-pontianak"; Str "kota-pontianak"]
    /\ Frame.get "Commodities" wide = Ok [Str "Beras"; Str "Telur Ayam"]
    /\ "No" ∉ Frame.columns wide.
Proof.
  destruct (clean_dataframe_city default_config numbered_sheet sample_path
              "kota-pontianak") as (wide & Hrun & Hwf & Hrows & Hc & Hm & Hd).
  - reflexivity.
  - apply numbered_sheet_well_formed.
  - apply (bool_decide_unpack _). vm_compute. exact I.
  - apply (bool_decide_unpack _). vm_compute. exact I.
  - apply (bool_decide_unpack _). vm_compute. exact I.
  - discriminate.
  - exists wide. repeat split; try assumption.
    + apply Hwf.
    + apply Hwf.
    + apply Hd; [left|discriminate|discriminate].
Defined.

(** The reshaped table of a raw sheet, written out: the blocks of the raw
    period columns, each pairing the commodities with the city. *)
Lemma clean_and_transform_ok
    (config : ConsolidatorConfig) (df : DataFrame) (file_path : Path)
    (city : string) :
  PathLib.parent_part file_path = Ok city ->
  Frame.well_formed df ->
  original_commodity_col config ∈ Frame.columns df ->
  original_commodity_col config ∉ columns_to_drop config ->
  commodity_col config ∉ Frame.columns df ->
  price_col config ∉ Frame.columns df ->
  commodity_col config <> city_col config ->
  price_col config <> commodity_col config ->
  price_col config <> city_col config ->
  exists wide commodity,
    Cleaner.clean_dataframe config df file_path = Ok wide
    /\ Frame.get (city_col config) wide
       = Ok (repeat (Str city) (Frame.nrows df))
    /\ Frame.get (original_commodity_col config) df = Ok commodity
    /\ length commodity = Frame.nrows df
    /\ Cleaner.transform_to_long_format config wide
       = Ok (flat_map
               (fun c : column =>
                  Cleaner.stack c.1 commodity
                    (repeat (Str city) (Frame.nrows df)) c.2)
               (List.filter (fun c : column => is_raw_period config c.1) df)).
Proof.
  intros Hcity Hwf Horig Hkeep Hcom Hprice Hne Hpc Hpt.
  destruct (renamed_well_formed config df Hwf Horig Hkeep Hcom)
    as (Hnonempty & Hnd & Hrect & Hrows).
  set (renamed :=
         Frame.rename (original_commodity_col config) (commodity_col config)
           (kept_columns config df)) in *.
  set (wide := Frame.assign (city_col config) (Str city) renamed).
  destruct (frame_get_present _ _ Horig) as [commodity Hcommodity].
  assert (Hlc : length commodity = Frame.nrows df).
  { apply (well_formed_length df (original_commodity_col config, commodity)
             Hwf).
    now apply frame_get_elem. }
  assert (Hgm : Frame.get (commodity_col config) wide = Ok commodity).
  { unfold wide. rewrite assign_get_other by assumption. unfold renamed.
    rewrite rename_get.
    - rewrite <- Hcommodity. apply (filter_get (not_dropped config)).
      unfold not_dropped. now rewrite bool_decide_eq_false_2.
    - intros H. now apply filter_columns_sub in H. }
  assert (Hgc : Frame.get (city_col config) wide
                = Ok (repeat (Str city) (Frame.nrows df))).
  { unfold wide. now rewrite assign_get, Hrows. }
  assert (Hperiods : period_columns config wide
                     = List.filter (fun c : column => is_raw_period config c.1) df).
  { now apply cleaned_period_columns. }
  assert (Hpw : price_col config ∉ Frame.columns wide).
  { unfold wide. rewrite assign_columns. intros Hin.
    assert (Hin' : price_col config ∈ Frame.columns renamed).
    { destruct (bool_decide _); [exact Hin|].
      apply elem_of_app in Hin as [Hin|Hin]; [exact Hin|].
      apply list_elem_of_singleton in Hin. congruence. }
    unfold renamed in Hin'. rewrite rename_columns in Hin'.
    apply list_elem_of_fmap in Hin' as (l & E & Hl).
    apply filter_columns_sub in Hl.
    destruct (String.eqb_spec l (original_commodity_col config));
      congruence. }
  exists wide, commodity.
  split; [now apply clean_dataframe_ok|]. split; [exact Hgc|].
  split; [exact Hcommodity|]. split; [exact Hlc|].
  unfold Cleaner.transform_to_long_format, Cleaner.melt.
  rewrite bool_decide_eq_false_2 by assumption.
  rewrite Hgm, Hgc. cbn [mbind result_bind]. f_equal.
  unfold period_columns, is_period in Hperiods. now rewrite Hperiods.
Qed.

(** X11: cleaning followed by the reshape, as the processing of a file
    chains them.  On a well-formed sheet with the original commodity column
    whose labels do not collide with the output names, the long table has
    exactly (rows) x (period columns) records, the period columns being the
    columns of the sheet other than the original commodity column, the city
    column and the dropped ones; the record at [j * rows + i] carries the
    commodity of row [i], the name of the file's directory as city, the label
    of period column [j] as date and the cell as price. *)
Theorem clean_and_transform_rows
    (config : ConsolidatorConfig) (df : DataFrame) (file_path : Path)
    (city : string) :
  PathLib.parent_part file_path = Ok city ->
  Frame.well_formed df ->
  original_commodity_col config ∈ Frame.columns df ->
  original_commodity_col config ∉ columns_to_drop config ->
  commodity_col config ∉ Frame.columns df ->
  price_col config ∉ Frame.columns df ->
  commodity_col config <> city_col config ->
  price_col config <> commodity_col config ->
  price_col config <> city_col config ->
  exists long commodity,
    clean_and_transform config df file_path = Ok long
    /\ Frame.get (original_commodity_col config) df = Ok commodity
    /\ length long
       = (Frame.nrows df
          * length (List.filter (fun c : column => is_raw_period config c.1) df))%nat
    /\ forall j i label values,
         List.filter (fun c : column => is_raw_period config c.1) df !! j
         = Some (label, values) ->
         (i < Frame.nrows df)%nat ->
         exists c v,
           commodity !! i = Some c /\ values !! i = Some v
           /\ long !! (j * Frame.nrows df + i)%nat
              = Some (mkrow c (Str city) (Str label) v).
Proof.
  intros Hcity Hwf Horig Hkeep Hcom Hprice Hne Hpc Hpt.
  destruct (clean_and_transform_ok config df file_path city)
    as (wide & commodity & Hclean & Hgc & Hcommodity & Hlc & Hlong);
    try assumption.
  set (periods := List.filter (fun c : column => is_raw_period config c.1) df)
    in *.
  assert (Hvalues : forall c : column, c ∈ periods ->
            length c.2 = Frame.nrows df).
  { intros c Hc. apply (well_formed_length df c Hwf).
    unfold periods in Hc. apply list_elem_of_In in Hc.
    apply filter_In in Hc as [Hc _]. now apply list_elem_of_In. }
  assert (Hblocks : forall c : column, c ∈ periods ->
            length (Cleaner.stack c.1 commodity
                      (repeat (Str city) (Frame.nrows df)) c.2)
            = Frame.nrows df).
  { intros c Hc. apply stack_length;
      [assumption|apply repeat_length|now apply Hvalues]. }
  eexists _, commodity.
  split; [|split; [exact Hcommodity|split]].
  - unfold clean_and_transform. rewrite Hclean. cbn [mbind result_bind].
    exact Hlong.
  - now apply flat_map_length_uniform.
  - intros j i label values Hj Hi.
    destruct (lookup_lt_is_Some_2 commodity i) as [c Hc]; [lia|].
    assert (Hlv : length values = Frame.nrows df).
    { apply (Hvalues (label, values)). now apply list_elem_of_lookup_2 in Hj. }
    destruct (lookup_lt_is_Some_2 values i) as [v Hv]; [lia|].
    exists c, v. split; [exact Hc|]. split; [exact Hv|].
    etrans;
      [apply (flat_map_lookup_uniform _ _ (Frame.nrows df) j i (label, values));
       assumption|].
    apply stack_lookup; [assumption| |assumption].
    apply lookup_repeat. exact Hi.
Qed.

Lemma clean_and_transform_rows_witness :
  exists long,
    clean_and_transform default_config numbered_sheet sample_path = Ok long
    /\ length long = 4%nat
    /\ long !! 3%nat
       = Some (mkrow (Str "Telur Ayam") (Str "kota-pontianak")
                 (Str "15/ 02/ 2024") (Num 25000)).
Proof.
  destruct (clean_and_transform_rows default_config numbered_sheet sample_path
              "kota-pontianak")
    as (long & commodity & Hrun & Hcommodity & Hlen & Hrows).
  - reflexivity.
  - apply numbered_sheet_well_formed.
  - apply (bool_decide_unpack _). vm_compute. exact I.
  - apply (bool_decide_unpack _). vm_compute. exact I.
  - apply (bool_decide_unpack _). vm_compute. exact I.
  - apply (bool_decide_unpack _). vm_compute. exact I.
  - discriminate.
  - discriminate.
  - discriminate.
  - exists long. split; [exact Hrun|]. split; [exact Hlen|].
    injection Hcommodity as <-.
    destruct (Hrows 1%nat 1%nat "15/ 02/ 2024" [Str "12,500"; Num 25000])
      as (c & v & Hc & Hv & Hrow); [reflexivity|cbn; lia|].
    injection Hc as <-. injection Hv as <-. exact Hrow.
Defined.

(** ** Consolidator: what every consolidated row satisfies *)

Section Rows.
Variable config : ConsolidatorConfig.
Variable world : World.
Variable targets : list string.

Lemma clean_dataframe_inv (df : DataFrame) file_path wide :
  Cleaner.clean_dataframe config df file_path = Ok wide ->
  exists city cleaned,
    PathLib.parent_part file_path = Ok city
    /\ wide = Frame.assign (city_col config) (Str city) cleaned.
Proof.
  unfold Cleaner.clean_dataframe, Cleaner._extract_city_from_path.
  destruct (PathLib.parent_part file_path) as [city|e]; cbn; [|discriminate].
  intros [= <-]. eauto.
Qed.

Lemma melt_city id1 id2 value_name (df : DataFrame) long cities r :
  Cleaner.melt id1 id2 value_name df = Ok long ->
  Frame.get id2 df = Ok cities ->
  r ∈ long -> City r ∈ cities.
Proof.
  unfold Cleaner.melt. destruct (bool_decide _); [discriminate|].
  destruct (Frame.get id1 df) as [commodity|]; cbn; [|discriminate].
  intros H Hc. rewrite Hc in H. cbn in H. injection H as <-.
  intros Hr. apply list_elem_of_In, in_flat_map in Hr as (c & _ & Hr).
  apply list_elem_of_In, stack_elem in Hr. tauto.
Qed.

Lemma handle_missing_values_observation (df : table) r :
  r ∈ Cleaner.handle_missing_values config df ->
  exists r0, r0 ∈ df /\ observation r0 = observation r.
Proof.
  unfold Cleaner.handle_missing_values.
  set (sorted := Cleaner.sort_values (Cleaner.replace_indicators _ df)).
  intros Hr.
  assert (Ho : observation r ∈ observation <$> df).
  { rewrite <- (replaced_observation (missing_value_indicators config) df).
    rewrite <- (sort_values_perm (Cleaner.replace_indicators _ df)).
    fold sorted.
    rewrite <- (observation_assign sorted
                  (Cleaner.bfill (Cleaner.groupby_ffill [] sorted)))
      by now rewrite bfill_length, groupby_ffill_length.
    apply list_elem_of_fmap. eauto. }
  apply list_elem_of_fmap in Ho as (r0 & Ho & Hr0). eauto.
Qed.

Lemma convert_data_types_elem (df : table) r :
  r ∈ Cleaner.convert_data_types df ->
  exists r0, r0 ∈ df /\ Commodity r = Commodity r0 /\ City r = City r0
    /\ (Price r = NaN \/ exists z, Price r = Num z)
    /\ Date r = Strptime.to_datetime (Date r0).
Proof.
  rewrite convert_data_types_zip. intros Hr.
  apply elem_of_lookup_zip_with in Hr as (i & r0 & p & -> & Hr0 & Hp).
  exists r0. split; [exact (list_elem_of_lookup_2 _ _ _ Hr0)|].
  repeat split. cbn.
  pose proof (clean_and_convert_price_typed (List.map Price df)) as Htyped.
  rewrite Forall_forall in Htyped.
  exact (Htyped p (list_elem_of_lookup_2 _ _ _ Hp)).
Qed.

Lemma process_valid_rows (df : DataFrame) file_path processed :
  Consolidator.process_valid config targets df file_path = Ok (Some processed) ->
  processed <> []
  /\ exists city, PathLib.parent_part file_path = Ok city
       /\ Forall (fun r => City r = Str city /\ consolidated targets r)
            processed.
Proof.
  unfold Consolidator.process_valid.
  destruct (Cleaner.clean_dataframe config df file_path) as [wide|e] eqn:Hclean;
    cbn [mbind result_bind]; [|discriminate].
  destruct (Cleaner.transform_to_long_format config wide) as [long|e]
    eqn:Hlong; cbn [mbind result_bind]; [|discriminate].
  case_bool_decide as Hempty; cbn [negb]; [discriminate|].
  destruct (Frame.get (city_col config) wide) as [cities|e] eqn:Hcities;
    cbn [mbind result_bind]; [|discriminate].
  destruct cities as [|t cities]; [discriminate|].
  intros [= <-]. split; [exact Hempty|].
  destruct (clean_dataframe_inv _ _ _ Hclean) as (city & cleaned & Hcity & ->).
  exists city. split; [exact Hcity|].
  pose proof Hcities as Hfilled. rewrite assign_get in Hfilled.
  apply Forall_forall. intros r Hr.
  apply filter_commodities_closed in Hr as [Hr Htarget].
  apply convert_data_types_elem in Hr as (r1 & Hr1 & Hc1 & Ht1 & Hp1 & Hd1).
  apply handle_missing_values_observation in Hr1 as (r2 & Hr2 & Hobs).
  unfold observation in Hobs. injection Hobs as Ht2 _ _.
  pose proof (melt_city _ _ _ _ _ _ _ Hlong Hcities Hr2) as Hin.
  injection Hfilled as Hfilled. rewrite <- Hfilled in Hin.
  apply list_elem_of_In, repeat_spec in Hin.
  split; [congruence|]. split; [exact Htarget|]. rewrite Hd1. split.
  - exact Hp1.
  - apply to_datetime_timestamp_or_missing.
Qed.

Lemma filter_loop_inv files kept result :
  Loader.filter_loop config files kept = Ok result ->
  result = kept ++ List.filter (admitted config) files.
Proof.
  revert kept. induction files as [|f files IH]; intros kept;
    cbn [Loader.filter_loop List.filter].
  - intros [= <-]. now rewrite app_nil_r.
  - unfold admitted at 1.
    destruct (Loader._should_process_year config f); cbn [negb andb];
      [|apply IH].
    destruct (Loader._should_process_city config f) as [[]|e]; cbn;
      [|apply IH|discriminate].
    intros H. apply IH in H. now rewrite <- app_assoc in H.
Qed.

Lemma process_single_file_valid file_path processed :
  Consolidator._process_single_file config world targets file_path
  = Some processed ->
  exists df,
    Consolidator.process_valid config targets df file_path
    = Ok (Some processed).
Proof.
  unfold Consolidator._process_single_file.
  destruct (Loader.load_excel_file world file_path) as [df|]; [|discriminate].
  destruct (Validator.validate_dataframe config df file_path) as [[] issues];
    cbn [negb]; [|discriminate].
  destruct (Consolidator.process_valid config targets df file_path)
    as [[t|]|e] eqn:E; try discriminate.
  intros [= <-]. eauto.
Qed.

End Rows.

(** X12: whatever [_process_single_file] returns for a file is not empty,
    and each of its rows carries the name of the file's directory as city,
    a commodity of the target list, a price that is a number or missing and
    a date that is a timestamp or missing. *)
Theorem process_single_file_rows
    (config : ConsolidatorConfig) (world : World) (targets : list string)
    (file_path : Path) (processed : table) :
  Consolidator._process_single_file config world targets file_path
  = Some processed ->
  processed <> []
  /\ exists city, PathLib.parent_part file_path = Ok city
       /\ Forall (fun r => City r = Str city /\ consolidated targets r)
            processed.
Proof.
  intros Hrun.
  destruct (process_single_file_valid config world targets _ _ Hrun)
    as [df Hvalid].
  exact (process_valid_rows config targets df file_path processed Hvalid).
Qed.

Lemma process_single_file_rows_witness :
  exists city,
    PathLib.parent_part sample_path = Ok city
    /\ Forall (fun r => City r = Str city
                        /\ consolidated (target_commodities default_config) r)
         sample_master.
Proof.
  destruct (process_single_file_rows default_config sample_world
              (target_commodities default_config) sample_path sample_master)
    as [_ H]; [reflexivity|exact H].
Defined.

(** X13: every row of the table [consolidate_data] returns comes from a
    file the search found and both loader predicates admitted: its city is
    the name of that file's directory, which is one of the configured cities
    when a city list is configured; its commodity is a target; its price is
    a number or missing and its date a timestamp or missing. *)
Theorem consolidate_data_rows
    (config : ConsolidatorConfig) (world : World) (targets : list string)
    (root : Path) (master : table) :
  Consolidator.consolidate_data config world targets root = Ok master ->
  Forall
    (fun r =>
       consolidated targets r
       /\ exists f city,
            f ∈ rglob world root (file_pattern config)
            /\ admitted config f = true
            /\ PathLib.parent_part f = Ok city
            /\ City r = Str city
            /\ forall cities, target_cities config = Some cities ->
                 city ∈ cities)
    master.
Proof.
  intros Hrun.
  destruct (Loader.find_excel_files config world root) as [files|e] eqn:Hfind.
  2:{ unfold Consolidator.consolidate_data in Hrun. rewrite Hfind in Hrun.
      discriminate Hrun. }
  rewrite (consolidate_data_discovered config world targets root files Hfind)
    in Hrun.
  injection Hrun as <-.
  unfold Loader.find_excel_files, Loader._filter_files_by_criteria in Hfind.
  destruct (dir_exists world root); [|discriminate]. cbn [negb] in Hfind.
  apply filter_loop_inv in Hfind. cbn [app] in Hfind. subst files.
  apply Forall_forall. intros r Hr.
  apply list_elem_of_In, in_concat in Hr as (t & Ht & Hr).
  apply list_elem_of_In, list_elem_of_omap in Ht as (f & Hf & Hprocess).
  apply list_elem_of_In, filter_In in Hf as [Hf Hadmitted].
  destruct (process_single_file_valid _ _ _ _ _ Hprocess) as [df Hvalid].
  destruct (process_valid_rows _ _ _ _ _ Hvalid)
    as (_ & city & Hcity & Hrows).
  rewrite Forall_forall in Hrows.
  destruct (Hrows r ltac:(now apply list_elem_of_In)) as [Hc Hrow].
  split; [exact Hrow|]. exists f, city.
  split; [now apply list_elem_of_In|]. split; [exact Hadmitted|].
  split; [exact Hcity|]. split; [exact Hc|].
  intros cities Hcities. unfold admitted in Hadmitted.
  apply andb_true_iff in Hadmitted as [_ Hadm].
  apply bool_decide_eq_true in Hadm.
  unfold Loader._should_process_city, Loader._extract_city_from_path in Hadm.
  rewrite Hcities, Hcity in Hadm. cbn in Hadm. injection Hadm as Hadm.
  now apply bool_decide_eq_true in Hadm.
Qed.

Lemma consolidate_data_rows_witness :
  Forall
    (fun r =>
       consolidated (target_commodities default_config) r
       /\ exists f city,
            f ∈ rglob sample_world ["data"] "*.xlsx"
            /\ admitted default_config f = true
            /\ PathLib.parent_part f = Ok city
            /\ City r = Str city
            /\ forall cities, target_cities default_config = Some cities ->
                 city ∈ cities)
    sample_master.
Proof.
  apply (consolidate_data_rows default_config sample_world
           (target_commodities default_config) ["data"] sample_master).
  reflexivity.
Defined.

(** ** Pipeline: saving and running *)

Section PipelineRuns.
Variable config : ConsolidatorConfig.
Variable paths : PathConfig.
Variable world : World.
Variable root : Path.

Lemma name_or_default default :
  Consolidator.name_or (Some default) default
  = Consolidator.name_or None default.
Proof. unfold Consolidator.name_or. now destruct (String.eqb default ""). Qed.

Lemma save_data_default_names (df : table) csv_filename excel_filename dir :
  csv_filename = None \/ csv_filename = Some (default_csv_output config) ->
  excel_filename = None
  \/ excel_filename = Some (default_excel_output config) ->
  Consolidator.save_data config world df csv_filename excel_filename dir
  = Consolidator.save_data config world df None None dir.
Proof.
  intros [-> | ->] [-> | ->]; unfold Consolidator.save_data;
    rewrite ?name_or_default; reflexivity.
Qed.

Lemma save_consolidated_data_default (df : table) output_formats :
  Pipeline._save_consolidated_data config paths world df output_formats
  = Consolidator.save_data config world df None None
      (Some (processed_data_dir paths)).
Proof.
  unfold Pipeline._save_consolidated_data. apply save_data_default_names;
    destruct (bool_decide _); auto.
Qed.

End PipelineRuns.

(** X14: [_save_consolidated_data] does not honour [output_formats]: a
    format that is left out has its file name left at [None], and
    [save_data] replaces [None] by the default name; so whatever formats are
    asked for, the call is the one that saves both files under their default
    names in the processed-data directory, and on a table that is not empty,
    once the directory is there, both the CSV and the Excel file are
    requested. *)
Theorem save_consolidated_data_formats_ignored
    (config : ConsolidatorConfig) (paths : PathConfig) (world : World)
    (df : table) (output_formats : option (list string)) :
  Pipeline._save_consolidated_data config paths world df output_formats
  = Consolidator.save_data config world df None None
      (Some (processed_data_dir paths))
  /\ (df <> [] -> mkdir world (processed_data_dir paths) = Ok tt ->
      (Pipeline._save_consolidated_data config paths world df output_formats).1
      = [ Mkdir (processed_data_dir paths);
          ToCsv (processed_data_dir paths ++ [default_csv_output config]);
          ToExcel (processed_data_dir paths ++ [default_excel_output config]) ]).
Proof.
  pose proof (save_consolidated_data_default config paths world df
                output_formats) as H.
  split; [exact H|].
  intros Hne Hdir. rewrite H. unfold Consolidator.save_data.
  rewrite bool_decide_eq_false_2 by exact Hne. rewrite Hdir. reflexivity.
Qed.

(** Asking for the CSV alone still requests the Excel file. *)
Example save_consolidated_data_csv_only :
  (Pipeline._save_consolidated_data default_config default_paths sample_world
     sample_master (Some ["csv"])).1
  = [ Mkdir ["data"; "processed"];
      ToCsv ["data"; "processed"; "master_data_consolidated.csv"];
      ToExcel ["data"; "processed"; "master_data_consolidated.xlsx"] ].
Proof. reflexivity. Qed.

(** X15: a call of [run_consolidation] raises in two cases only: the
    consolidation itself raises, or the consolidated table is not empty,
    saving is asked for and the processed-data directory cannot be created.
    A file that cannot be written never makes it raise, and when it returns
    it returns the consolidated table of the targets in force, having
    requested no write if the table is empty or saving was not asked for. *)
Theorem run_consolidation_outcome
    (config : ConsolidatorConfig) (paths : PathConfig) (world : World)
    (root : Path) (self_targets : list string)
    (target_commodities : option (list string)) (save_outputs : bool)
    (output_formats : option (list string)) :
  let targets := Pipeline.override target_commodities self_targets in
  let consolidated :=
    Consolidator.consolidate_data config world targets root in
  let '(kept, requests, outcome) :=
    Pipeline.run_consolidation config paths world root self_targets
      target_commodities save_outputs output_formats in
  kept = targets
  /\ (forall e, outcome = Raise e <->
        consolidated = Raise e
        \/ (exists df, consolidated = Ok df /\ df <> []
              /\ save_outputs = true
              /\ mkdir world (processed_data_dir paths) = Raise e))
  /\ (forall df, outcome = Ok df -> consolidated = Ok df)
  /\ (save_outputs = false \/ consolidated = Ok [] -> requests = []).
Proof.
  intros targets consolidated.
  unfold Pipeline.run_consolidation. fold targets. fold consolidated.
  destruct consolidated as [df|e0] eqn:E.
  2:{ split; [reflexivity|]. split; [|split; [discriminate|reflexivity]].
      intros e. split.
      - intros [= <-]. now left.
      - intros [[= <-]|(df & H & _)]; [reflexivity|discriminate]. }
  case_bool_decide as Hempty.
  { split; [reflexivity|]. split; [|split; [now intros df' [= <-]|reflexivity]].
    intros e. split; [discriminate|].
    intros [H|(df' & [= <-] & Hne & _)]; [discriminate|contradiction]. }
  destruct save_outputs.
  2:{ split; [reflexivity|]. split; [|split; [now intros df' [= <-]|reflexivity]].
      intros e. split; [discriminate|].
      intros [H|(df' & _ & _ & H & _)]; discriminate. }
  rewrite (save_consolidated_data_default config paths world df
             output_formats).
  unfold Consolidator.save_data. rewrite bool_decide_eq_false_2 by exact Hempty.
  destruct (mkdir world (processed_data_dir paths)) as [[]|e0] eqn:Hdir.
  - split; [reflexivity|]. split; [|split].
    + intros e. split; [discriminate|].
      intros [H|(df' & _ & _ & _ & H)]; discriminate.
    + now intros df' [= <-].
    + intros [H|[= H]]; [discriminate|congruence].
  - split; [reflexivity|]. split; [|split].
    + intros e. split.
      * intros [= <-]. right. exists df. auto.
      * intros [H|(df' & _ & _ & _ & [= <-])]; [discriminate|reflexivity].
    + discriminate.
    + intros [H|[= H]]; [discriminate|congruence].
Qed.

(** X16: the override of the target commodities is kept by the pipeline:
    after a run with a list that is not empty, a run without a list behaves
    as a run with that list would; an empty list overrides nothing. *)
Theorem run_consolidation_override_persists
    (config : ConsolidatorConfig) (paths : PathConfig) (world : World)
    (root : Path) (self_targets targets : list string)
    (save_outputs save_outputs' : bool)
    (output_formats output_formats' : option (list string)) :
  targets <> [] ->
  let first :=
    Pipeline.run_consolidation config paths world root self_targets
      (Some targets) save_outputs output_formats in
  first.1.1 = targets
  /\ Pipeline.run_consolidation config paths world root first.1.1 None
       save_outputs' output_formats'
     = Pipeline.run_consolidation config paths world root self_targets
         (Some targets) save_outputs' output_formats'
  /\ Pipeline.run_consolidation config paths world root self_targets
       (Some []) save_outputs' output_formats'
     = Pipeline.run_consolidation config paths world root self_targets None
         save_outputs' output_formats'.
Proof.
  intros Hne first.
  assert (Hkept : forall self given save formats,
            (Pipeline.run_consolidation config paths world root self given
               save formats).1.1
            = Pipeline.override given self).
  { intros self given save formats. unfold Pipeline.run_consolidation.
    destruct (Consolidator.consolidate_data _ _ _ _); [|reflexivity].
    destruct (bool_decide _); [reflexivity|].
    destruct save; [|reflexivity].
    destruct (Pipeline._save_consolidated_data _ _ _ _ _) as [requests []];
      reflexivity. }
  assert (Hfirst : first.1.1 = targets).
  { unfold first. rewrite Hkept. destruct targets; [congruence|reflexivity]. }
  split; [exact Hfirst|]. split; [|reflexivity].
  rewrite Hfirst. unfold Pipeline.run_consolidation.
  destruct targets; [congruence|reflexivity].
Qed.

Lemma run_consolidation_override_persists_witness :
  (Pipeline.run_consolidation default_config default_paths sample_world
     ["data"] (target_commodities default_config) (Some ["Beras"]) false
     None).1.1
  = ["Beras"]
  /\ Pipeline.run_consolidation default_config default_paths sample_world
       ["data"] ["Beras"] None false None
     = Pipeline.run_consolidation default_config default_paths sample_world
         ["data"] (target_commodities default_config) (Some ["Beras"]) false
         None.
Proof.
  destruct (run_consolidation_override_persists default_config default_paths
              sample_world ["data"] (target_commodities default_config)
              ["Beras"] false false None None)
    as (Hkept & Hnext & _); [discriminate|].
  split; [exact Hkept|]. rewrite <- Hnext. now rewrite Hkept.
Defined.

(** ** Validator and pipeline: the structure of the data directory *)

Section Structure.
Variable config : ConsolidatorConfig.
Variable world : World.
Variable is_file : Path -> bool.

Let valid (file_path : Path) : bool :=
  (PathValidator.validate_file_path world is_file file_path).1.

Lemma filter_partition_length {A} (p : A -> bool) (l : list A) :
  (length (List.filter p l) + length (List.filter (fun a => negb (p a)) l))%nat
  = length l.
Proof.
  induction l as [|a l IH]; cbn; [reflexivity|].
  destruct (p a); cbn; lia.
Qed.

Lemma record_files_from (files : list Path) (results : Report.t) :
  let report := fold_left (Pipeline.record_file world is_file) files results in
  Report.valid_files report
  = Report.valid_files results ++ (PurePath.str <$> List.filter valid files)
  /\ Report.invalid_files report
     = Report.invalid_files results
       ++ (PurePath.str <$> List.filter (fun f => negb (valid f)) files)
  /\ Report.missing_directories report = Report.missing_directories results
  /\ Report.issues report
     = Report.issues results
       ++ concat ((fun f =>
                     (PathValidator.validate_file_path world is_file f).2)
                  <$> List.filter (fun f => negb (valid f)) files).
Proof.
  revert results. induction files as [|f files IH]; intros results.
  - cbn. now rewrite !app_nil_r.
  - cbn [fold_left List.filter]. cbv zeta in IH |- *.
    destruct (IH (Pipeline.record_file world is_file results f))
      as (-> & -> & -> & ->).
    unfold Pipeline.record_file.
    assert (Hv : valid f
                 = (PathValidator.validate_file_path world is_file f).1)
      by reflexivity.
    destruct (PathValidator.validate_file_path world is_file f)
      as [ok found] eqn:Ef; cbn [fst snd] in *. rewrite Hv.
    destruct ok;
      cbn [Report.valid_files Report.invalid_files Report.missing_directories
           Report.issues fmap list_fmap concat negb];
      rewrite ?Ef, <- ?app_assoc; auto.
Qed.

End Structure.

(** The suffix of [<base>.xlsx] is [.xlsx], when the base is not empty. *)
Lemma suffix_xlsx directory base :
  base <> "" ->
  PurePath.suffix (directory ++ [base +:+ ".xlsx"]) = ".xlsx".
Proof.
  intros Hne. unfold PurePath.suffix, PathLib.name. rewrite last_last.
  rewrite list_ascii_of_string_app, rfind_dot_xlsx.
  assert (0 < length (list_ascii_of_string base))%nat as Hlen.
  { destruct base; [congruence|cbn; lia]. }
  rewrite length_app. cbn [length list_ascii_of_string Nat.add].
  replace ((0 <? length (list_ascii_of_string base))%nat) with true
    by (symmetry; apply Nat.ltb_lt; lia).
  replace ((length (list_ascii_of_string base)
            <? length (list_ascii_of_string base) + 5 - 1)%nat) with true
    by (symmetry; apply Nat.ltb_lt; lia).
  cbn [andb]. now rewrite drop_app_length.
Qed.

(** X17: [validate_file_path] runs three checks, none guarding another: the
    path exists, it is a file, and its suffix, lower-cased, is [.xlsx] or
    [.xls].  The verdict is [true] exactly when all three pass, which is
    exactly when no issue is reported, and each check that fails reports one
    issue.  The workbook of a year, [<year>.xlsx], passes the third check in
    whatever directory it lies, so its verdict is decided by the file system
    alone. *)
Theorem validate_file_path_checks
    (world : World) (is_file : Path -> bool) (file_path : Path) :
  let exists_ := dir_exists world file_path in
  let excel :=
    bool_decide (PurePath.lower (PurePath.suffix file_path)
                   ∈ [".xlsx"; ".xls"]) in
  let '(is_valid, issues) :=
    PathValidator.validate_file_path world is_file file_path in
  is_valid = exists_ && is_file file_path && excel
  /\ (is_valid = true <-> issues = [])
  /\ length issues
     = ((if exists_ then 0 else 1) + (if is_file file_path then 0 else 1)
        + (if excel then 0 else 1))%nat
  /\ (forall directory y,
        (PathValidator.validate_file_path world is_file
           (year_file directory y)).1
        = dir_exists world (year_file directory y)
          && is_file (year_file directory y)).
Proof.
  assert (Hchecks : forall p,
            (PathValidator.validate_file_path world is_file p).1
            = dir_exists world p && is_file p
              && bool_decide (PurePath.lower (PurePath.suffix p)
                                ∈ [".xlsx"; ".xls"])).
  { intros p. unfold PathValidator.validate_file_path, Validator.append_if.
    destruct (dir_exists world p), (is_file p),
      (bool_decide (PurePath.lower (PurePath.suffix p) ∈ [".xlsx"; ".xls"]));
      reflexivity. }
  assert (Hyear : forall directory y,
            (PathValidator.validate_file_path world is_file
               (year_file directory y)).1
            = dir_exists world (year_file directory y)
              && is_file (year_file directory y)).
  { intros directory y. rewrite Hchecks. unfold year_file.
    rewrite suffix_xlsx by apply str_of_Z_nonempty.
    rewrite bool_decide_eq_true_2 by left. apply andb_true_r. }
  clear Hchecks. intros exists_ excel.
  unfold PathValidator.validate_file_path at 1.
  fold exists_. fold excel. unfold Validator.append_if.
  split; [|split; [|split; [|exact Hyear]]].
  - destruct exists_, (is_file file_path), excel; reflexivity.
  - destruct exists_, (is_file file_path), excel; cbn; split;
      try reflexivity; discriminate.
  - destruct exists_, (is_file file_path), excel; reflexivity.
Qed.

(** X18: the report of [validate_data_structure].  Its list of missing
    directories is always empty.  When the root does not exist, or when the
    discovery raises, it names no file and holds exactly one issue.
    Otherwise the valid and the invalid files are the discovered files that
    pass and that fail [validate_file_path], each list in the order of
    discovery, and the issues are those of the invalid files, in order. *)
Theorem validate_data_structure_report
    (config : ConsolidatorConfig) (world : World) (is_file : Path -> bool)
    (root : Path) :
  let report := Pipeline.validate_data_structure config world is_file root in
  let valid f := (PathValidator.validate_file_path world is_file f).1 in
  Report.missing_directories report = []
  /\ match Loader.find_excel_files config world root with
     | Raise e =>
         Report.valid_files report = [] /\ Report.invalid_files report = []
         /\ length (Report.issues report) = 1%nat
     | Ok files =>
         Report.valid_files report = PurePath.str <$> List.filter valid files
         /\ Report.invalid_files report
            = PurePath.str <$> List.filter (fun f => negb (valid f)) files
         /\ Report.issues report
            = concat ((fun f =>
                         (PathValidator.validate_file_path world is_file f).2)
                      <$> List.filter (fun f => negb (valid f)) files)
         /\ (length (Report.valid_files report)
             + length (Report.invalid_files report))%nat = length files
     end.
Proof.
  intros report valid. unfold report, Pipeline.validate_data_structure.
  destruct (dir_exists world root) eqn:Hroot; cbn [negb].
  - destruct (Loader.find_excel_files config world root) as [files|e] eqn:E.
    + pose proof (record_files_from world is_file files
                    {| Report.valid_files := []; Report.invalid_files := [];
                       Report.missing_directories := [];
                       Report.issues := [] |}) as H.
      cbv zeta in H. destruct H as (Hv & Hi & Hm & Hs). cbn in Hv, Hi, Hm, Hs.
      split; [exact Hm|]. split; [exact Hv|]. split; [exact Hi|].
      split; [exact Hs|]. rewrite Hv, Hi, !length_fmap.
      apply (filter_partition_length valid).
    + now repeat split.
  - unfold Loader.find_excel_files. rewrite Hroot. cbn. now repeat split.
Qed.

(** ** Settings: reading the filters from a text *)

Section SettingsFacts.
Import Chars.

Lemma split_commas_nonempty l : Settings.split_commas l <> [].
Proof.
  destruct l as [|a l]; cbn; [discriminate|].
  destruct (Ascii.eqb a ","); [discriminate|].
  destruct (Settings.split_commas l); discriminate.
Qed.

Lemma split_commas_plain l :
  Forall (fun a => Ascii.eqb a ","%char = false) l ->
  Settings.split_commas l = [l].
Proof.
  induction 1 as [|a l Ha _ IH]; cbn; [reflexivity|]. now rewrite Ha, IH.
Qed.

Lemma split_commas_app l rest :
  Forall (fun a => Ascii.eqb a ","%char = false) l ->
  Settings.split_commas (l ++ ","%char :: rest)
  = l :: Settings.split_commas rest.
Proof.
  induction 1 as [|a l Ha _ IH]; cbn; [reflexivity|]. now rewrite Ha, IH.
Qed.

Lemma space_not_comma a :
  is_space a = true -> Ascii.eqb a ","%char = false.
Proof.
  destruct a as [[] [] [] [] [] [] [] []]; vm_compute; intros;
    try discriminate; reflexivity.
Qed.

Lemma strip_app_blank ws l :
  Forall (fun a => is_space a = true) ws ->
  strip (ws ++ l) = strip l.
Proof.
  intros H. unfold strip. do 3 f_equal.
  induction H as [|a ws Ha _ IH]; cbn; [reflexivity|]. now rewrite Ha.
Qed.

(** The parts of a list joined by a separator, a comma followed by
    whitespace: the first item, then each further item behind the
    whitespace. *)
Lemma split_commas_concat ws items item prefix :
  Forall (fun a => is_space a = true) (list_ascii_of_string ws) ->
  Forall (fun a => Ascii.eqb a ","%char = false) prefix ->
  Forall (fun s => Forall (fun a => Ascii.eqb a ","%char = false)
                     (list_ascii_of_string s)) (item :: items) ->
  Settings.split_commas
    (prefix ++ list_ascii_of_string
                 (String.concat (separator ws) (item :: items)))
  = (prefix ++ list_ascii_of_string item)
    :: ((fun s => list_ascii_of_string ws ++ list_ascii_of_string s)
        <$> items).
Proof.
  intros Hws. revert item prefix.
  induction items as [|next items IH]; intros item prefix Hprefix Hitems;
    inversion Hitems as [|? ? Hitem Hrest]; subst.
  - cbn. apply split_commas_plain. now apply Forall_app.
  - cbn [String.concat]. unfold separator at 1.
    rewrite !list_ascii_of_string_app. cbn [list_ascii_of_string].
    rewrite app_assoc. cbn [app].
    rewrite split_commas_app by now apply Forall_app.
    cbn [fmap list_fmap]. f_equal. apply IH; [|exact Hrest].
    eapply Forall_impl; [exact Hws|]. apply space_not_comma.
Qed.

Lemma split_concat ws item items :
  Forall (fun a => is_space a = true) (list_ascii_of_string ws) ->
  Forall (fun s => Forall (fun a => Ascii.eqb a ","%char = false)
                     (list_ascii_of_string s)) (item :: items) ->
  Settings.split (String.concat (separator ws) (item :: items))
  = item :: ((fun s => ws +:+ s) <$> items).
Proof.
  intros Hws Hitems. unfold Settings.split.
  pose proof (split_commas_concat ws items item [] Hws (Forall_nil_2 _) Hitems)
    as H.
  cbn [app] in H. rewrite H. cbn [fmap list_fmap]. rewrite string_of_list_ascii_of_string. f_equal.
  rewrite <- list_fmap_compose. apply list_fmap_ext. intros _ s _. cbn.
  rewrite <- list_ascii_of_string_app. apply string_of_list_ascii_of_string.
Qed.

Lemma settings_strip_blank ws s :
  Forall (fun a => is_space a = true) (list_ascii_of_string ws) ->
  Settings.strip (ws +:+ s) = Settings.strip s.
Proof.
  intros H. unfold Settings.strip.
  now rewrite list_ascii_of_string_app, strip_app_blank.
Qed.

Lemma settings_strip_str_of_Z z :
  Settings.strip (Text.str_of_Z z) = Text.str_of_Z z.
Proof.
  unfold Settings.strip. rewrite strip_plain.
  - apply string_of_list_ascii_of_string.
  - eapply Forall_impl; [apply str_of_Z_chars|].
    intros a Ha. now apply decimal_char_not_space.
Qed.

Lemma str_of_Z_no_comma z :
  Forall (fun a => Ascii.eqb a ","%char = false)
    (list_ascii_of_string (Text.str_of_Z z)).
Proof.
  eapply Forall_impl; [apply str_of_Z_chars|].
  intros a Ha. now apply decimal_char_plain.
Qed.

Lemma ints_rendered ws (years : list Z) :
  Forall (fun a => is_space a = true) (list_ascii_of_string ws) ->
  Settings.ints ((fun s => ws +:+ s) <$> (Text.str_of_Z <$> years))
  = Ok years.
Proof.
  intros Hws. induction years as [|y years IH];
    cbn [fmap list_fmap Settings.ints]; [reflexivity|].
  rewrite settings_strip_blank, settings_strip_str_of_Z, int_str_of_Z
    by exact Hws.
  change (list_fmap string string (fun s => ws +:+ s)
            (list_fmap Z string Text.str_of_Z years))
    with ((fun s => ws +:+ s) <$> (Text.str_of_Z <$> years)).
  now rewrite IH.
Qed.

End SettingsFacts.

(** X19: [parse_target_years] reads a rendered year list back.  For every
    list of integers that is not empty, the text of their decimal renderings
    joined by a comma, with or without whitespace behind the comma, parses
    to that list; the empty text, a list and [None] are returned as they
    are; and a text one of whose comma-separated parts is not an integer
    raises [ValueError]. *)
Theorem parse_target_years_round_trip (ws : string) (years : list Z) :
  Forall (fun a => Chars.is_space a = true) (list_ascii_of_string ws) ->
  years <> [] ->
  Settings.parse_target_years
    (Settings.Text (String.concat (separator ws) (Text.str_of_Z <$> years)))
  = Ok (Settings.Items years)
  /\ Settings.parse_target_years (Settings.Text "")
     = Ok (Settings.Text "")
  /\ Settings.parse_target_years (Settings.Items years)
     = Ok (Settings.Items years)
  /\ (forall s, s <> "" ->
        (exists part, part ∈ Settings.split s
                      /\ PyInt.int (Settings.strip part) = None) ->
        Settings.parse_target_years (Settings.Text s) = Raise ValueError).
Proof.
  intros Hws Hne. split; [|split; [reflexivity|split; [reflexivity|]]].
  - destruct years as [|y years]; [congruence|].
    unfold Settings.parse_target_years.
    assert (Htext : String.concat (separator ws)
                      (Text.str_of_Z <$> y :: years) <> "").
    { cbn [fmap list_fmap]. intros E.
      apply (f_equal list_ascii_of_string) in E.
      destruct (Text.str_of_Z <$> years);
        cbn [String.concat] in E;
        rewrite ?list_ascii_of_string_app in E;
        pose proof (str_of_Z_nonempty y) as Hy;
        destruct (Text.str_of_Z y); [congruence|discriminate E
                                    |congruence|discriminate E]. }
    apply String.eqb_neq in Htext. rewrite Htext. cbn [negb].
    cbn [fmap list_fmap]. rewrite split_concat; [|exact Hws|].
    + cbn [Settings.ints].
      rewrite settings_strip_str_of_Z, int_str_of_Z.
      change (list_fmap Z string Text.str_of_Z years)
        with (Text.str_of_Z <$> years).
      rewrite (ints_rendered ws years Hws). reflexivity.
    + change (Forall
                (fun s => Forall (fun a => Ascii.eqb a ","%char = false)
                            (list_ascii_of_string s))
                (Text.str_of_Z <$> y :: years)).
      apply Forall_fmap, Forall_forall. intros z _. apply str_of_Z_no_comma.
  - intros s Hs (part & Hin & Hpart). unfold Settings.parse_target_years.
    apply String.eqb_neq in Hs. rewrite Hs. cbn [negb].
    replace (Settings.ints (Settings.split s)) with (@Raise (list Z) ValueError);
      [reflexivity|].
    symmetry. induction (Settings.split s) as [|p parts IH];
      [inversion Hin|].
    cbn. apply elem_of_cons in Hin as [<-|Hin].
    + now rewrite Hpart.
    + destruct (PyInt.int (Settings.strip p)); [|reflexivity].
      now rewrite IH.
Qed.

Lemma parse_target_years_round_trip_witness :
  Settings.parse_target_years (Settings.Text "2020, 2021, 2022")
  = Ok (Settings.Items [2020; 2021; 2022]).
Proof.
  destruct (parse_target_years_round_trip " " [2020; 2021; 2022])
    as [H _].
  - repeat constructor.
  - discriminate.
  - exact H.
Defined.

Section Stripping.
Import Chars.

Lemma lstrip_idempotent l : lstrip (lstrip l) = lstrip l.
Proof.
  induction l as [|a l IH]; cbn; [reflexivity|].
  destruct (is_space a) eqn:E; [exact IH|]. cbn. now rewrite E.
Qed.

Lemma lstrip_head l a rest : lstrip l = a :: rest -> is_space a = false.
Proof.
  induction l as [|b l IH]; cbn; [discriminate|].
  destruct (is_space b) eqn:E; [exact IH|]. now intros [= <- _].
Qed.

Lemma lstrip_snoc l a :
  is_space a = false -> lstrip (l ++ [a]) = lstrip l ++ [a].
Proof.
  intros Ha. induction l as [|b l IH]; cbn; [now rewrite Ha|].
  now destruct (is_space b).
Qed.

Lemma strip_idempotent l : strip (strip l) = strip l.
Proof.
  unfold strip at 2 3. destruct (lstrip l) as [|a rest] eqn:E;
    [reflexivity|].
  pose proof (lstrip_head _ _ _ E) as Ha.
  cbn [rev]. rewrite lstrip_snoc by exact Ha.
  rewrite rev_app_distr. cbn [rev app]. unfold strip.
  cbn [lstrip]. rewrite Ha. cbn [rev].
  rewrite rev_involutive, lstrip_snoc by exact Ha.
  now rewrite lstrip_idempotent, rev_app_distr.
Qed.

Lemma settings_strip_idempotent s :
  Settings.strip (Settings.strip s) = Settings.strip s.
Proof.
  unfold Settings.strip.
  now rewrite list_ascii_of_string_of_list_ascii, strip_idempotent.
Qed.

End Stripping.

(** X20: [parse_target_cities] never raises.  On a text that is not empty
    it returns at least one name, and no name it returns has whitespace at
    either end; it reads back every list of names (not empty, without commas,
    without surrounding whitespace) from the text that joins them by a comma,
    with or without whitespace behind it.  The empty text, a list and
    [None] are returned as they are. *)
Theorem parse_target_cities_round_trip (ws : string) (cities : list string) :
  Forall (fun a => Chars.is_space a = true) (list_ascii_of_string ws) ->
  cities <> [] -> Forall plain_name cities ->
  Settings.parse_target_cities
    (Settings.Text (String.concat (separator ws) cities))
  = Ok (Settings.Items cities)
  /\ (forall s, s <> "" ->
        exists names,
          Settings.parse_target_cities (Settings.Text s)
          = Ok (Settings.Items names)
          /\ names <> []
          /\ Forall (fun name => Settings.strip name = name) names)
  /\ Settings.parse_target_cities (Settings.Text "") = Ok (Settings.Text "")
  /\ Settings.parse_target_cities (Settings.Items cities)
     = Ok (Settings.Items cities).
Proof.
  intros Hws Hne Hplain. split; [|split; [|split; reflexivity]].
  - destruct cities as [|city cities]; [congruence|].
    unfold Settings.parse_target_cities.
    assert (Htext : String.concat (separator ws) (city :: cities) <> "").
    { inversion Hplain as [|? ? [Hcity _] _]; subst. intros E.
      apply (f_equal list_ascii_of_string) in E.
      destruct cities; cbn [String.concat] in E;
        rewrite ?list_ascii_of_string_app in E;
        destruct city; try congruence; discriminate E. }
    apply String.eqb_neq in Htext. rewrite Htext. cbn [negb].
    rewrite split_concat; [|exact Hws|].
    + do 2 f_equal. inversion Hplain as [|? ? (_ & _ & Hcity) Hrest]; subst.
      cbn [fmap list_fmap]. rewrite Hcity. f_equal.
      change (list_fmap string string Settings.strip
                (list_fmap string string (fun s => ws +:+ s) cities))
        with (Settings.strip <$> ((fun s => ws +:+ s) <$> cities)).
      rewrite <- list_fmap_compose.
      rewrite <- (list_fmap_id cities) at 2.
      apply Forall_fmap_ext_1.
      eapply Forall_impl; [exact Hrest|].
      intros name (_ & _ & Hname). unfold compose.
      rewrite settings_strip_blank by exact Hws. exact Hname.
    + eapply Forall_impl; [exact Hplain|]. now intros name (_ & H & _).
  - intros s Hs. unfold Settings.parse_target_cities.
    apply String.eqb_neq in Hs. rewrite Hs. cbn [negb].
    eexists. split; [reflexivity|]. split.
    + unfold Settings.split.
      pose proof (split_commas_nonempty (list_ascii_of_string s)) as H.
      destruct (Settings.split_commas _); [congruence|discriminate].
    + apply Forall_fmap, Forall_forall. intros part _. cbn.
      apply settings_strip_idempotent.
Qed.

Lemma parse_target_cities_round_trip_witness :
  Settings.parse_target_cities
    (Settings.Text "kota-pontianak, kota-sampit")
  = Ok (Settings.Items ["kota-pontianak"; "kota-sampit"]).
Proof.
  destruct (parse_target_cities_round_trip " "
              ["kota-pontianak"; "kota-sampit"]) as [H _].
  - repeat constructor.
  - discriminate.
  - repeat constructor; try discriminate; reflexivity.
  - exact H.
Defined.

(** ** Consolidator: the processing of a good file *)

Section GoodFiles.
Variable config : ConsolidatorConfig.






End GoodFiles.



(** ** Cleaner: the filling at work on a table with gaps *)

Lemma gap_table_grouped : Forall (fun r => Cleaner.grouped r = true) gap_table.
Proof. repeat constructor. Qed.

Lemma gap_table_priced (r : row) :
  r ∈ gap_table ->
  exists r', r' ∈ gap_table
             /\ Cleaner.group_key r' = Cleaner.group_key r
             /\ missing default_config (Price r') = false.
Proof.
  intros Hr. unfold gap_table in Hr.
  repeat (apply elem_of_cons in Hr as [->|Hr]); [| | | |inversion Hr].
  - eexists. split; [right; right; left|]. split; reflexivity.
  - eexists. split; [right; right; right; left|]. split; reflexivity.
  - eexists. split; [right; right; left|]. split; reflexivity.
  - eexists. split; [right; right; right; left|]. split; reflexivity.
Qed.

Lemma handle_missing_values_fills_groups_witness :
  mkrow (Str "Beras") (Str "kota-pontianak") (Str "15/ 01/ 2024") (Num 12500)
    ∈ Cleaner.handle_missing_values default_config gap_table
  /\ isna (Price (mkrow (Str "Beras") (Str "kota-pontianak")
                    (Str "15/ 01/ 2024") (Num 12500))) = false.
Proof.
  assert (Hin : mkrow (Str "Beras") (Str "kota-pontianak")
                  (Str "15/ 01/ 2024") (Num 12500)
                ∈ Cleaner.handle_missing_values default_config gap_table)
    by left.
  split; [exact Hin|].
  apply (handle_missing_values_fills_groups default_config gap_table).
  - exact Hin.
  - reflexivity.
  - exists (mkrow (Str "Beras") (Str "kota-pontianak") (Str "15/ 02/ 2024")
              (Num 12500)).
    split; [right; right; right; left|]. split; reflexivity.
Defined.

Lemma handle_missing_values_missing_count_witness :
  (na_count (Price <$> Cleaner.handle_missing_values default_config gap_table)
   <= missing_count default_config (Price <$> gap_table))%nat.
Proof.
  apply (handle_missing_values_missing_count default_config gap_table).
  apply gap_table_grouped.
Defined.

Lemma handle_missing_values_agrees_witness :
  Cleaner.handle_missing_values default_config gap_table
  = handle_missing_values_within_groups default_config gap_table.
Proof.
  apply (handle_missing_values_agrees default_config gap_table).
  - apply gap_table_grouped.
  - apply gap_table_priced.
Defined.

Lemma handle_missing_values_copy_witness :
  ({[ 0%nat := gap_table ]} : gmap loc table) !! 0%nat = Some gap_table
  /\ exists out h',
       CleanerRef.handle_missing_values default_config 0%nat
         {[ 0%nat := gap_table ]}
       = Ok (out, h')
       /\ h' !! 0%nat = Some gap_table
       /\ h' !! out
          = Some (Cleaner.handle_missing_values default_config gap_table).
Proof.
  assert (Hdf : ({[ 0%nat := gap_table ]} : gmap loc table) !! 0%nat
                = Some gap_table) by reflexivity.
  split; [exact Hdf|].
  destruct (handle_missing_values_copy default_config
              {[ 0%nat := gap_table ]} 0%nat gap_table Hdf)
    as (out & h' & Hrun & _ & Hkept & Hout).
  exists out, h'. split; [exact Hrun|]. split; [|exact Hout].
  rewrite Hkept by eauto. exact Hdf.
Defined.

(** ** Cleaner: the shape of what the filling leaves *)

Section Refill.
Variable config : ConsolidatorConfig.

Lemma first_valid_na series :
  isna (first_valid series) = true <-> Forall (fun c => isna c = true) series.
Proof.
  induction series as [|c series IH]; cbn; [split; auto|].
  destruct (isna c) eqn:E.
  - rewrite IH. split; [now constructor|now inversion 1].
  - rewrite E. split; [discriminate|]. inversion 1; congruence.
Qed.

Lemma bfill_lookup_drop series i c :
  series !! i = Some c ->
  Cleaner.bfill series !! i = Some (first_valid (drop i series)).
Proof.
  intros Hi. rewrite (bfill_lookup _ _ _ Hi), (drop_S _ _ _ Hi). reflexivity.
Qed.

(** What is left missing is a tail of the filled column. *)
Lemma bfill_na_tail series i j c c' :
  Cleaner.bfill series !! i = Some c -> Cleaner.bfill series !! j = Some c' ->
  (i <= j)%nat -> isna c = true -> isna c' = true.
Proof.
  intros Hi Hj Hij Hc.
  destruct (series !! i) as [x|] eqn:Hx.
  2:{ apply lookup_ge_None in Hx. rewrite <- bfill_length in Hx.
      apply lookup_ge_None in Hx. congruence. }
  destruct (series !! j) as [y|] eqn:Hy.
  2:{ apply lookup_ge_None in Hy. rewrite <- bfill_length in Hy.
      apply lookup_ge_None in Hy. congruence. }
  rewrite (bfill_lookup_drop _ _ _ Hx) in Hi. injection Hi as <-.
  rewrite (bfill_lookup_drop _ _ _ Hy) in Hj. injection Hj as <-.
  apply first_valid_na. apply first_valid_na in Hc.
  replace j with (i + (j - i))%nat by lia. rewrite <- drop_drop.
  now apply Forall_drop.
Qed.

End Refill.

(** X26: what [handle_missing_values] leaves missing lies at the end of the
    table it returns: behind a row whose price is still missing, every row
    has a missing price.  (The backward fill runs over the whole sorted
    column, so a gap is closed whenever any price follows it.) *)
Theorem handle_missing_values_missing_tail
    (config : ConsolidatorConfig) (df : table) (i j : nat) (r r' : row) :
  Cleaner.handle_missing_values config df !! i = Some r ->
  Cleaner.handle_missing_values config df !! j = Some r' ->
  (i <= j)%nat ->
  isna (Price r) = true -> isna (Price r') = true.
Proof.
  unfold Cleaner.handle_missing_values.
  set (sorted := Cleaner.sort_values (Cleaner.replace_indicators _ df)).
  intros Hi Hj Hij.
  apply lookup_zip_with_Some in Hi as (s & p & -> & _ & Hp).
  apply lookup_zip_with_Some in Hj as (s' & p' & -> & _ & Hp').
  cbn. exact (bfill_na_tail _ i j p p' Hp Hp' Hij).
Qed.

Lemma handle_missing_values_missing_tail_witness :
  Cleaner.handle_missing_values default_config tail_table !! 1%nat
  = Some (mkrow (Str "Telur Ayam") (Str "kota-pontianak")
            (Str "15/ 01/ 2024") NaN)
  /\ isna (Price (mkrow (Str "Telur Ayam") (Str "kota-pontianak")
                    (Str "15/ 02/ 2024") NaN)) = true.
Proof.
  split; [reflexivity|].
  apply (handle_missing_values_missing_tail default_config tail_table
           1%nat 2%nat
           (mkrow (Str "Telur Ayam") (Str "kota-pontianak")
              (Str "15/ 01/ 2024") NaN)).
  - reflexivity.
  - reflexivity.
  - lia.
  - reflexivity.
Defined.

(** ** Cleaner: filling twice *)

Section Idempotence.
Variable config : ConsolidatorConfig.

Lemma sort_values_fixed (l : table) :
  Sorted key_le l -> Cleaner.sort_values l = l.
Proof.
  unfold Cleaner.sort_values. induction 1 as [|r l Hs IH Hhd]; cbn;
    [reflexivity|].
  rewrite IH. destruct Hhd as [|r' l' Hr]; cbn; [reflexivity|].
  unfold key_le in Hr. now rewrite Hr.
Qed.

Lemma replace_indicators_fixed (df : table) :
  Forall (fun r => isna (Price r) = true
                   \/ missing config (Price r) = false) df ->
  Cleaner.replace_indicators (missing_value_indicators config) df = df.
Proof.
  intros H. rewrite replace_indicators_map.
  rewrite <- (List.map_id df) at 2. apply List.map_ext_in.
  intros r Hr. rewrite Forall_forall in H.
  destruct (H r ltac:(now apply list_elem_of_In)) as [Hna|Hvalid].
  - destruct (Price r) eqn:E; try discriminate.
    rewrite replace_fold_na. rewrite <- E. apply set_price_same.
  - rewrite replace_fold_valid by exact Hvalid. apply set_price_same.
Qed.

Lemma zip_set_price_twice (l : table) (prices : list cell) :
  zip_with set_price (zip_with set_price l prices) prices
  = zip_with set_price l prices.
Proof.
  revert prices. induction l as [|r l IH]; intros [|p prices]; cbn;
    [reflexivity..|].
  now rewrite IH.
Qed.

Lemma take_zip_set_price (l : table) (prices : list cell) i r :
  r ∈ take i (zip_with set_price l prices) ->
  exists k s p, (k < i)%nat /\ l !! k = Some s /\ prices !! k = Some p
                /\ r = set_price s p.
Proof.
  intros Hr. apply elem_of_take in Hr as (k & Hk & Hlt).
  apply lookup_zip_with_Some in Hk as (s & p & -> & Hs & Hp).
  exists k, s, p. auto.
Qed.

Lemma strongly_sorted_lookup {A} (R : A -> A -> Prop) (l : list A) i j x y :
  StronglySorted R l -> (i < j)%nat ->
  l !! i = Some x -> l !! j = Some y -> R x y.
Proof.
  intros H. revert i j. induction H as [|a l _ IH Hall]; intros i j Hij Hi Hj;
    [discriminate|].
  destruct j as [|j]; [lia|]. cbn in Hj. destruct i as [|i]; cbn in Hi.
  - injection Hi as <-. rewrite Forall_forall in Hall. apply Hall.
    apply list_elem_of_lookup. eauto.
  - apply (IH i j); [lia|assumption|assumption].
Qed.

Lemma group_leb_key_l r r1 r2 :
  Cleaner.group_key r1 = Cleaner.group_key r2 ->
  group_leb r1 r = group_leb r2 r.
Proof. unfold Cleaner.group_key, group_leb. now intros [= -> ->]. Qed.

(** In a sorted table, a row between two rows of one group is of that
    group. *)
Lemma sorted_between (l : table) a b c ra rb rc :
  Sorted key_le l ->
  l !! a = Some ra -> l !! b = Some rb -> l !! c = Some rc ->
  (a <= b <= c)%nat ->
  Cleaner.group_key ra = Cleaner.group_key rc ->
  Cleaner.group_key rb = Cleaner.group_key rc.
Proof.
  intros Hs Ha Hb Hc [Hab Hbc] Hkey. apply sorted_by_group in Hs.
  destruct (decide (a = b)) as [->|Hne];
    [pose proof (eq_trans (eq_sym Ha) Hb) as [= <-]; exact Hkey|].
  destruct (decide (b = c)) as [->|Hne'];
    [pose proof (eq_trans (eq_sym Hb) Hc) as [= <-]; reflexivity|].
  apply group_leb_antisym.
  - apply (strongly_sorted_lookup group_le l b c); [assumption|lia|auto..].
  - rewrite <- (group_leb_key_l rb ra rc Hkey).
    apply (strongly_sorted_lookup group_le l a b); [assumption|lia|auto..].
Qed.

(** A valid forward-filled value at row [m] shows a priced row of the group
    of row [m] at or before [m]. *)
Lemma groupby_ffill_source (rows : table) m rm c :
  rows !! m = Some rm ->
  Cleaner.groupby_ffill [] rows !! m = Some c -> isna c = false ->
  Cleaner.grouped rm = true
  /\ exists j r, (j <= m)%nat /\ rows !! j = Some r
       /\ Cleaner.group_key r = Cleaner.group_key rm
       /\ isna (Price r) = false.
Proof.
  intros Hm Hc Hv. rewrite (groupby_ffill_lookup _ _ _ _ Hm) in Hc.
  injection Hc as <-.
  destruct (Cleaner.grouped rm); cbn in Hv; [|discriminate].
  split; [reflexivity|].
  destruct (isna (Price rm)) eqn:E.
  - destruct (last_valid_elem _ _ Hv) as (r & Hr & Hkey & Hprice).
    rewrite app_nil_r in Hr.
    apply list_elem_of_In, in_rev, list_elem_of_In in Hr.
    apply elem_of_take in Hr as (j & Hj & Hlt).
    exists j, r. split; [lia|]. split; [exact Hj|]. split; [exact Hkey|].
    now rewrite Hprice.
  - exists m, rm. auto.
Qed.

(** A priced row of the group of a grouped row [i], before [i], makes the
    forward-filled value of row [i] valid. *)
Lemma groupby_ffill_valid (rows : table) i ri j r :
  rows !! i = Some ri -> Cleaner.grouped ri = true ->
  rows !! j = Some r -> (j < i)%nat ->
  Cleaner.group_key r = Cleaner.group_key ri -> isna (Price r) = false ->
  exists c, Cleaner.groupby_ffill [] rows !! i = Some c /\ isna c = false.
Proof.
  intros Hi Hg Hj Hji Hkey Hv. eexists.
  split; [apply (groupby_ffill_lookup _ _ _ _ Hi)|].
  rewrite Hg. cbn [negb]. destruct (isna (Price ri)) eqn:E; [|exact E].
  apply (last_valid_found _ _ r); [|assumption|assumption].
  rewrite app_nil_r, list_elem_of_In, <- in_rev, <- list_elem_of_In.
  apply elem_of_take. eauto.
Qed.

(** In the sorted table: if every forward-filled value from row [i] on is
    missing, and row [i] belongs to a group, then no earlier row of the
    group of row [i] carries a price after the first filling. *)
Lemma no_prior_price (sorted : table) i s :
  Sorted key_le sorted ->
  sorted !! i = Some s -> Cleaner.grouped s = true ->
  Forall (fun c => isna c = true) (drop i (Cleaner.groupby_ffill [] sorted)) ->
  let filled := Cleaner.bfill (Cleaner.groupby_ffill [] sorted) in
  isna (Cleaner.last_valid (Cleaner.group_key s)
          (rev (take i (zip_with set_price sorted filled)) ++ []))
  = true.
Proof.
  intros Hsorted Hi Hg Htail filled.
  destruct (isna (Cleaner.last_valid _ _)) eqn:Hv; [reflexivity|exfalso].
  destruct (last_valid_elem _ _ Hv) as (r & Hr & Hkey & Hprice).
  rewrite app_nil_r in Hr.
  apply list_elem_of_In, in_rev, list_elem_of_In in Hr.
  apply take_zip_set_price in Hr as (k & sk & p & Hki & Hk & Hp & ->).
  cbn in Hprice. change (Cleaner.group_key (set_price sk p))
    with (Cleaner.group_key sk) in Hkey.
  assert (Hpv : isna p = false) by (rewrite Hprice; exact Hv).
  (* the price of row k comes from a forward-filled value at some m >= k *)
  destruct (Cleaner.groupby_ffill [] sorted !! k) as [c|] eqn:Hc.
  2:{ apply lookup_ge_None in Hc. rewrite groupby_ffill_length in Hc.
      apply lookup_lt_Some in Hk. lia. }
  unfold filled in Hp. rewrite (bfill_lookup_drop _ _ _ Hc) in Hp.
  injection Hp as <-.
  pose proof (first_valid_elem _ Hpv) as Hin.
  apply list_elem_of_lookup in Hin as [d Hd]. rewrite lookup_drop in Hd.
  set (m := (k + d)%nat) in *.
  assert (Hmi : (m < i)%nat).
  { destruct (le_lt_dec i m) as [Hle|]; [|assumption]. exfalso.
    rewrite Forall_forall in Htail.
    assert (Hna : isna (first_valid (drop k (Cleaner.groupby_ffill [] sorted)))
                  = true).
    { apply Htail. apply list_elem_of_lookup. exists (m - i)%nat.
      rewrite lookup_drop. now replace (i + (m - i))%nat with m by lia. }
    congruence. }
  destruct (lookup_lt_is_Some_2 sorted m) as [sm Hm].
  { apply lookup_lt_Some in Hi. lia. }
  (* row m belongs to the group of rows k and i *)
  assert (Hkm : Cleaner.group_key sm = Cleaner.group_key s).
  { apply (sorted_between sorted k m i sk sm s); try assumption.
    unfold m. lia. }
  assert (Hfm : isna (first_valid (drop k (Cleaner.groupby_ffill [] sorted)))
                = false) by exact Hpv.
  destruct (groupby_ffill_source sorted m sm _ Hm Hd Hfm)
    as (_ & j & r & Hjm & Hj & Hjkey & Hjv).
  destruct (groupby_ffill_valid sorted i s j r Hi Hg Hj ltac:(lia)
              ltac:(congruence) Hjv) as (c' & Hc' & Hv').
  rewrite Forall_forall in Htail.
  assert (Hna : isna c' = true).
  { apply Htail. apply list_elem_of_lookup. exists 0%nat.
    rewrite lookup_drop. now rewrite Nat.add_0_r. }
  congruence.
Qed.

(** Filling the filled table again gives the filled column. *)
Lemma refill (sorted : table) :
  Sorted key_le sorted ->
  let filled := Cleaner.bfill (Cleaner.groupby_ffill [] sorted) in
  Cleaner.bfill
    (Cleaner.groupby_ffill [] (zip_with set_price sorted filled))
  = filled.
Proof.
  intros Hsorted filled.
  set (f1 := Cleaner.groupby_ffill [] sorted) in *.
  set (out := zip_with set_price sorted filled).
  set (f2 := Cleaner.groupby_ffill [] out).
  assert (Hl1 : length f1 = length sorted) by apply groupby_ffill_length.
  assert (Hlq : length filled = length sorted).
  { unfold filled. now rewrite bfill_length. }
  assert (Hlo : length out = length sorted).
  { unfold out. rewrite length_zip_with. lia. }
  assert (Hl2 : length f2 = length sorted).
  { unfold f2. now rewrite groupby_ffill_length. }
  assert (Hclaim : forall d i, (i + d = length sorted)%nat ->
            first_valid (drop i f2) = first_valid (drop i f1)).
  { induction d as [|d IH]; intros i Hid.
    - rewrite !drop_ge by lia. reflexivity.
    - destruct (lookup_lt_is_Some_2 sorted i) as [s Hi]; [lia|].
      destruct (lookup_lt_is_Some_2 f1 i) as [c1 Hc1]; [lia|].
      pose proof (drop_S _ _ _ Hc1) as Hd1.
      remember (first_valid (drop i f1)) as q eqn:Hq.
      assert (Hq1 : q = if isna c1 then first_valid (drop (S i) f1) else c1).
      { rewrite Hq, Hd1. reflexivity. }
      assert (Hqi : filled !! i = Some q).
      { rewrite Hq. apply (bfill_lookup_drop _ _ _ Hc1). }
      assert (Ho : out !! i = Some (set_price s q)).
      { apply lookup_zip_with_Some. eauto. }
      pose proof (groupby_ffill_lookup [] out i _ Ho) as Hc2.
      fold f2 in Hc2.
      change (Cleaner.grouped (set_price s q)) with (Cleaner.grouped s) in Hc2.
      change (Cleaner.group_key (set_price s q))
        with (Cleaner.group_key s) in Hc2.
      change (Price (set_price s q)) with q in Hc2.
      rewrite (drop_S _ _ _ Hc2). cbn [first_valid].
      rewrite (IH (S i)) by lia.
      pose proof (groupby_ffill_lookup [] sorted i s Hi) as Hf1.
      fold f1 in Hf1. rewrite Hc1 in Hf1. injection Hf1 as Hf1.
      destruct (Cleaner.grouped s) eqn:Hg; cbn [negb].
      2:{ cbn [isna]. cbn [negb] in Hf1. subst c1. exact (eq_sym Hq1). }
      destruct (isna q) eqn:Hna; [|now rewrite Hna].
      assert (Htail : Forall (fun c => isna c = true) (drop i f1)).
      { apply first_valid_na. now rewrite <- Hq. }
      pose proof (no_prior_price sorted i s Hsorted Hi Hg Htail) as Hprior.
      cbv zeta in Hprior. fold f1 in Hprior. fold filled in Hprior.
      fold out in Hprior. rewrite Hprior.
      destruct (isna c1) eqn:Hc1na; [exact (eq_sym Hq1)|].
      rewrite Hq1 in Hna. congruence. }
  apply list_eq. intros i.
  destruct (f2 !! i) as [c2|] eqn:Hc2.
  - rewrite (bfill_lookup_drop _ _ _ Hc2).
    destruct (lookup_lt_is_Some_2 f1 i) as [c1 Hc1].
    { apply lookup_lt_Some in Hc2. lia. }
    unfold filled. rewrite (bfill_lookup_drop _ _ _ Hc1). f_equal.
    apply (Hclaim (length sorted - i)%nat). apply lookup_lt_Some in Hc2. lia.
  - apply lookup_ge_None in Hc2.
    rewrite (proj2 (lookup_ge_None _ i)), (proj2 (lookup_ge_None filled i));
      [reflexivity|lia|].
    rewrite bfill_length. exact Hc2.
Qed.

End Idempotence.

(** The prices the filling returns are free of indicator texts. *)
Lemma handle_missing_values_no_indicator
    (config : ConsolidatorConfig) (df : table) :
  Forall (fun r => isna (Price r) = true
                   \/ missing config (Price r) = false)
    (Cleaner.handle_missing_values config df).
Proof.
  apply Forall_forall. intros r' Hr'.
  destruct (isna (Price r')) eqn:Hp; [now left|right].
  unfold Cleaner.handle_missing_values in Hr'.
  apply list_elem_of_lookup in Hr' as [i Hi].
  apply lookup_zip_with_Some in Hi as (r0 & p & -> & Hr0 & Hfill).
  cbn in Hp |- *.
  pose proof (bfill_elem _ _ _ Hfill Hp) as Hin.
  destruct (groupby_ffill_elem _ _ Hin Hp) as (r1 & Hr1 & Hg & <-).
  rewrite sort_values_perm in Hr1.
  destruct (replace_indicators_elem config _ _ Hr1 Hp)
    as (r2 & _ & _ & Hprice & Hvalid).
  now rewrite <- Hprice.
Qed.

(** X27: [handle_missing_values] is idempotent: filling the table it
    returned once more changes nothing.  (The first call leaves the table
    sorted and free of indicator texts, and what it left missing has no
    price of its group before it and no price at all behind it.) *)
Theorem handle_missing_values_idempotent
    (config : ConsolidatorConfig) (df : table) :
  Cleaner.handle_missing_values config
    (Cleaner.handle_missing_values config df)
  = Cleaner.handle_missing_values config df.
Proof.
  pose proof (handle_missing_values_no_indicator config df) as Hclean.
  unfold Cleaner.handle_missing_values at 1.
  rewrite (replace_indicators_fixed config _ Hclean).
  unfold Cleaner.handle_missing_values.
  set (sorted := Cleaner.sort_values (Cleaner.replace_indicators _ df)).
  assert (Hsorted : Sorted key_le sorted) by apply sort_values_sorted.
  rewrite sort_values_fixed by now apply zip_set_price_sorted.
  pose proof (refill sorted Hsorted) as Hrefill. cbv zeta in Hrefill.
  rewrite Hrefill. apply zip_set_price_twice.
Qed.

(** ** Consolidator: the order of the rows of a file *)

Section RowOrder.
Variable config : ConsolidatorConfig.
Variable world : World.
Variable targets : list string.

Lemma strongly_sorted_zip_with (f : row -> cell -> row) (l : table)
    (prices : list cell) :
  (forall r p, City (f r p) = City r /\ Commodity (f r p) = Commodity r) ->
  StronglySorted group_le l ->
  StronglySorted group_le (zip_with f l prices).
Proof.
  intros Hf Hl. revert prices.
  induction Hl as [|a l _ IH Hall]; intros [|p prices]; cbn;
    try constructor; [apply IH|].
  apply Forall_forall. intros b Hb.
  apply elem_of_lookup_zip_with in Hb as (i & b0 & q & -> & Hb0 & _).
  rewrite Forall_forall in Hall.
  pose proof (Hall b0 (list_elem_of_lookup_2 _ _ _ Hb0)) as Hle.
  unfold group_le, group_leb in *.
  destruct (Hf a p) as [-> ->], (Hf b0 q) as [-> ->]. exact Hle.
Qed.

Lemma strongly_sorted_filter (p : row -> bool) (l : table) :
  StronglySorted group_le l -> StronglySorted group_le (List.filter p l).
Proof.
  induction 1 as [|a l _ IH Hall]; cbn; [constructor|].
  destruct (p a); [|exact IH]. constructor; [exact IH|].
  apply Forall_forall. intros b Hb.
  apply list_elem_of_In, filter_In in Hb as [Hb _].
  rewrite Forall_forall in Hall. apply Hall. now apply list_elem_of_In.
Qed.

Lemma process_valid_inv (df : DataFrame) file_path processed :
  Consolidator.process_valid config targets df file_path = Ok (Some processed) ->
  exists long,
    clean_and_transform config df file_path = Ok long
    /\ processed
       = Cleaner.filter_commodities
           (Cleaner.convert_data_types
              (Cleaner.handle_missing_values config long)) targets.
Proof.
  unfold Consolidator.process_valid, clean_and_transform.
  destruct (Cleaner.clean_dataframe config df file_path) as [wide|e];
    cbn [mbind result_bind]; [|discriminate].
  destruct (Cleaner.transform_to_long_format config wide) as [long|e];
    cbn [mbind result_bind]; [|discriminate].
  case_bool_decide as Hempty; cbn [negb]; [discriminate|].
  destruct (Frame.get (city_col config) wide) as [[|t cities]|e];
    cbn [mbind result_bind]; try discriminate.
  intros [= <-]. eauto.
Qed.

End RowOrder.

(** X28: the rows [_process_single_file] returns for a file are in group
    order: they are sorted by (City, Commodity), so the rows of one
    commodity lie together, in the order the filling left them. *)
Theorem process_single_file_sorted
    (config : ConsolidatorConfig) (world : World) (targets : list string)
    (file_path : Path) (processed : table) :
  Consolidator._process_single_file config world targets file_path
  = Some processed ->
  StronglySorted group_le processed.
Proof.
  intros Hrun.
  destruct (process_single_file_valid config world targets _ _ Hrun)
    as [df Hvalid].
  destruct (process_valid_inv config targets df file_path processed Hvalid)
    as (long & _ & ->).
  unfold Cleaner.filter_commodities. apply strongly_sorted_filter.
  rewrite convert_data_types_zip.
  apply strongly_sorted_zip_with; [intros r p; split; reflexivity|].
  apply sorted_by_group. unfold Cleaner.handle_missing_values.
  apply zip_set_price_sorted, sort_values_sorted.
Qed.

Lemma process_single_file_sorted_witness :
  StronglySorted group_le sample_master.
Proof.
  apply (process_single_file_sorted default_config sample_world
           (target_commodities default_config) sample_path sample_master).
  reflexivity.
Defined.

(** ** The runner: what reaches the configuration *)

Section RunnerFacts.
Context {V : Type}.

Lemma pass_on_lookup (config_data : gmap string (option V))
    (mapping : list (string * string)) (start : gmap string V) config_key v :
  NoDup mapping.*2 ->
  fold_left (Runner.pass_on config_data) mapping start !! config_key = Some v
  <-> (exists yaml_key, (yaml_key, config_key) ∈ mapping
         /\ config_data !! yaml_key = Some (Some v))
      \/ (start !! config_key = Some v
          /\ forall yaml_key w, (yaml_key, config_key) ∈ mapping ->
               config_data !! yaml_key <> Some (Some w)).
Proof.
  revert start. induction mapping as [|[yk ck] mapping IH]; intros start Hnd.
  - cbn. split.
    + intros H. right. split; [exact H|]. intros yk w Hin. inversion Hin.
    + intros [(yk & Hin & _)|[H _]]; [inversion Hin|exact H].
  - cbn in Hnd. apply NoDup_cons in Hnd as [Hck Hnd].
    cbn [fold_left]. rewrite (IH _ Hnd). clear IH.
    assert (Hfresh : forall yaml_key, (yaml_key, ck) ∉ mapping).
    { intros yaml_key Hin. apply Hck. apply list_elem_of_fmap.
      now exists (yaml_key, ck). }
    unfold Runner.pass_on.
    split.
    + intros [(yaml_key & Hin & Hv)|[Hstart Hnone]].
      * left. exists yaml_key. split; [now right|exact Hv].
      * destruct (config_data !! yk) as [[value|]|] eqn:Hyk.
        -- destruct (decide (ck = config_key)) as [->|Hne].
           ++ rewrite lookup_insert_eq in Hstart. injection Hstart as ->.
              left. exists yk. split; [left|exact Hyk].
           ++ rewrite lookup_insert_ne in Hstart by exact Hne.
              right. split; [exact Hstart|]. intros yaml_key w Hin.
              apply elem_of_cons in Hin as [[= -> ->]|Hin];
                [congruence|now apply Hnone].
        -- right. split; [exact Hstart|]. intros yaml_key w Hin.
           apply elem_of_cons in Hin as [[= -> ->]|Hin];
             [congruence|now apply Hnone].
        -- right. split; [exact Hstart|]. intros yaml_key w Hin.
           apply elem_of_cons in Hin as [[= -> ->]|Hin];
             [congruence|now apply Hnone].
    + intros [(yaml_key & Hin & Hv)|[Hstart Hnone]].
      * apply elem_of_cons in Hin as [[= -> ->]|Hin].
        -- right. rewrite Hv. split; [apply lookup_insert_eq|].
           intros yaml_key w Hin. now apply Hfresh in Hin.
        -- left. eauto.
      * right. split.
        -- destruct (config_data !! yk) as [[value|]|] eqn:Hyk;
             try exact Hstart.
           destruct (decide (ck = config_key)) as [->|Hne].
           ++ exfalso. apply (Hnone yk value); [left|exact Hyk].
           ++ now rewrite lookup_insert_ne by exact Hne.
        -- intros yaml_key w Hin. apply Hnone. now right.
Qed.

Lemma pass_on_ignores (config_data : gmap string (option V))
    (mapping : list (string * string)) (start : gmap string V) key value :
  key ∉ mapping.*1 ->
  fold_left (Runner.pass_on (<[key := value]> config_data)) mapping start
  = fold_left (Runner.pass_on config_data) mapping start.
Proof.
  revert start. induction mapping as [|[yk ck] mapping IH]; intros start Hk;
    [reflexivity|].
  cbn in Hk. apply not_elem_of_cons in Hk as [Hne Hk].
  cbn [fold_left]. rewrite (IH _ Hk). f_equal.
  unfold Runner.pass_on. now rewrite lookup_insert_ne by congruence.
Qed.

End RunnerFacts.

(** X29: what the runner passes from the YAML document to the
    configuration.  A field receives a value exactly when the document
    holds, under the YAML key mapped to that field, a value that is not
    [null]; in particular [csv_filename] and [excel_filename] arrive as
    [default_csv_output] and [default_excel_output].  A key outside the
    mapping (such as [columns_to_drop] or [min_expected_columns]) has no
    effect on the configuration, whatever its value. *)
Theorem consolidated_config_lookup {V : Type}
    (config_data : gmap string (option V)) :
  (forall config_key v,
     Runner.consolidated_config config_data !! config_key = Some v
     <-> exists yaml_key,
           (yaml_key, config_key) ∈ Runner.config_mapping
           /\ config_data !! yaml_key = Some (Some v))
  /\ (forall key value,
        key ∉ Runner.config_mapping.*1 ->
        Runner.consolidated_config (<[key := value]> config_data)
        = Runner.consolidated_config config_data).
Proof.
  split.
  - intros config_key v. unfold Runner.consolidated_config.
    rewrite pass_on_lookup.
    + split; [|now left]. intros [H|[H _]]; [exact H|].
      rewrite lookup_empty in H. discriminate.
    + apply (bool_decide_unpack _). vm_compute. exact I.
  - intros key value Hkey. apply pass_on_ignores. exact Hkey.
Qed.

(** A document that sets the file names and a key the runner does not
    know. *)
Example consolidated_config_sample :
  Runner.consolidated_config
    (<["columns_to_drop" := Some "Nomor"]>
       (<["csv_filename" := Some "prices.csv"]>
          (<["target_years" := None]> ∅)))
  = {[ "default_csv_output" := "prices.csv" ]}.
Proof. apply (bool_decide_unpack _). vm_compute. exact I. Qed.

(** ** Consolidator: when nothing is consolidated *)

(** X30: once the files are discovered, [consolidate_data] returns the empty
    table exactly when every discovered file fails: one file that is
    processed is enough for a table with rows, since what a file yields is
    never empty. *)
Theorem consolidate_data_empty_iff
    (config : ConsolidatorConfig) (world : World) (targets : list string)
    (root : Path) (files : list Path) :
  Loader.find_excel_files config world root = Ok files ->
  Consolidator.consolidate_data config world targets root = Ok []
  <-> forall f, f ∈ files ->
        Consolidator._process_single_file config world targets f = None.
Proof.
  intros Hfind.
  rewrite (consolidate_data_discovered config world targets root files Hfind).
  clear Hfind. split.
  - intros [= Hempty] f Hf.
    destruct (Consolidator._process_single_file config world targets f)
      as [t|] eqn:E; [exfalso|reflexivity].
    assert (Hin : t ∈ omap (Consolidator._process_single_file config world
                              targets) files).
    { apply list_elem_of_omap. eauto. }
    assert (Hne : t <> []).
    { destruct (process_single_file_valid config world targets _ _ E)
        as [df Hvalid].
      exact (proj1 (process_valid_rows config targets df f t Hvalid)). }
    apply list_elem_of_In in Hin.
    destruct t as [|r t]; [congruence|].
    assert (Hr : In r (concat (omap (Consolidator._process_single_file config
                                       world targets) files))).
    { apply in_concat. eexists. split; [exact Hin|now left]. }
    rewrite Hempty in Hr. inversion Hr.
  - intros Hall. f_equal.
    replace (omap (Consolidator._process_single_file config world targets) files)
      with (@nil table); [reflexivity|].
    induction files as [|f files IH]; [reflexivity|].
    cbn. rewrite Hall by left. apply IH. intros f' Hf'. apply Hall. now right.
Qed.

Lemma consolidate_data_empty_iff_witness :
  Consolidator.consolidate_data default_config barren_world
    (target_commodities default_config) ["data"] = Ok []
  <-> forall f, f ∈ [["data"; "kota-pontianak"; "2024.xlsx"]] ->
        Consolidator._process_single_file default_config barren_world
          (target_commodities default_config) f = None.
Proof.
  apply (consolidate_data_empty_iff default_config barren_world
           (target_commodities default_config) ["data"]).
  reflexivity.
Defined.
